(** * Viva Real scraper: the validator/cleaner, the image and location
      resolvers and the record assembler, embedded from the Python sources

    - [src/validators.py]: [normalize_text], [normalize_zipcode],
      [validate_price], [validate_int_value], [validate_url],
      [clean_location], [clean_data];
    - [src/extractors.py]: the merge of the four image strategies in
      [extract_images], and the map-link search, the AI merge and the final
      fallback of [extract_location];
    - [src/scraper.py]: the assembly of the raw record, the completeness
      check and the re-extraction pass of [VivaRealScraper.scrape].

    A Python [str] is a list of code points.  Code points are taken below 256
    (the type [ascii]): on that range [\d] is [0-9], [str.isspace] and [\s]
    are the twelve characters of [is_space], and the only characters that
    [re.IGNORECASE] identifies with an ASCII letter are the ASCII letters. *)

From Stdlib Require Import ZArith List String Ascii Bool Lia SpecFloat DecimalString.
Import ListNotations.

Set Implicit Arguments.
Set Warnings "-register-all".

(* ================================================================== *)
(** * Part I.  The Python values the code handles *)
(* ================================================================== *)

(** ** Characters and strings *)

Definition pystr := list ascii.

(** A string literal of the sources. *)
Definition lit (s : string) : pystr := list_ascii_of_string s.

Definition code (c : ascii) : N := N_of_ascii c.

Definition in_range (lo hi : N) (c : ascii) : bool :=
  (lo <=? code c)%N && (code c <=? hi)%N.

(** [str.isspace], which is also what [str.strip()], [str.split()] and the
    regular-expression class [\s] use: TAB..CR, FS..US, space, NEL, NBSP. *)
Definition is_space (c : ascii) : bool :=
  in_range 9 13 c || in_range 28 32 c || (code c =? 133)%N || (code c =? 160)%N.

(** The class [\d]. *)
Definition is_digit (c : ascii) : bool := in_range 48 57 c.

Definition is_upper (c : ascii) : bool :=
  in_range 65 90 c || (in_range 192 222 c && negb (code c =? 215)%N).

(** [str.lower] on one character. *)
Definition lower_char (c : ascii) : ascii :=
  if is_upper c then ascii_of_N (code c + 32) else c.

Definition lower (s : pystr) : pystr := map lower_char s.

Definition char_eqb_ci (a b : ascii) : bool := Ascii.eqb (lower_char a) (lower_char b).

Fixpoint str_eqb (a b : pystr) : bool :=
  match a, b with
  | [], [] => true
  | x :: a', y :: b' => Ascii.eqb x y && str_eqb a' b'
  | _, _ => false
  end.

(** [s.startswith(p)]. *)
Fixpoint startswith (p s : pystr) : bool :=
  match p, s with
  | [], _ => true
  | x :: p', y :: s' => Ascii.eqb x y && startswith p' s'
  | _ :: _, [] => false
  end.

(** [needle in hay] on strings. *)
Fixpoint contains (needle hay : pystr) : bool :=
  startswith needle hay ||
  match hay with
  | [] => false
  | _ :: t => contains needle t
  end.

(** [x in l] on a list or a set of strings. *)
Fixpoint mem (x : pystr) (l : list pystr) : bool :=
  match l with
  | [] => false
  | y :: t => str_eqb x y || mem x t
  end.

Fixpoint lstrip_by (p : ascii -> bool) (s : pystr) : pystr :=
  match s with
  | [] => []
  | c :: t => if p c then lstrip_by p t else s
  end.

Definition rstrip_by (p : ascii -> bool) (s : pystr) : pystr :=
  rev (lstrip_by p (rev s)).

Definition strip_by (p : ascii -> bool) (s : pystr) : pystr :=
  rstrip_by p (lstrip_by p s).

(** [s.strip()]. *)
Definition strip (s : pystr) : pystr := strip_by is_space s.

(** [s.strip('/')]. *)
Definition strip_slash (s : pystr) : pystr := strip_by (Ascii.eqb "/") s.

(** [s.split(c)[0]]: the text before the first [c]. *)
Fixpoint before (c : ascii) (s : pystr) : pystr :=
  match s with
  | [] => []
  | x :: t => if Ascii.eqb x c then [] else x :: before c t
  end.

(** The pieces of [s] between single whitespace characters; the first piece
    is the one being read.  Empty pieces stand between adjacent separators. *)
Fixpoint pieces (s : pystr) : list pystr :=
  match s with
  | [] => [[]]
  | c :: t =>
      if is_space c then [] :: pieces t
      else match pieces t with
           | w :: ws => (c :: w) :: ws
           | [] => [[c]]
           end
  end.

Definition nonempty (s : pystr) : bool :=
  match s with [] => false | _ :: _ => true end.

(** [s.split()]: the maximal runs of non-whitespace characters. *)
Definition split_ws (s : pystr) : list pystr := filter nonempty (pieces s).

(** [sep.join(l)]. *)
Fixpoint join (sep : pystr) (l : list pystr) : pystr :=
  match l with
  | [] => []
  | [w] => w
  | w :: ws => w ++ sep ++ join sep ws
  end.

(** [s.replace(c, by)] for a one-character [c]. *)
Definition replace_char (c : ascii) (by_ : pystr) (s : pystr) : pystr :=
  flat_map (fun x => if Ascii.eqb x c then by_ else [x]) s.

(** [s.count(c)] for a one-character [c]. *)
Definition count_char (c : ascii) (s : pystr) : nat :=
  List.length (filter (Ascii.eqb c) s).

Definition digit_value (c : ascii) : Z := Z.of_N (code c) - 48.

(** [int(ds)] for a string of decimal digits.  Python's integers are
    unbounded, and the conversions between [int] and decimal text are taken
    as the language defines them: the cap CPython 3.11 and later put on their
    length (4300 digits unless configured otherwise, a [ValueError] beyond)
    is not modelled. *)
Definition int_of_digits (ds : pystr) : Z :=
  fold_left (fun acc c => 10 * acc + digit_value c)%Z ds 0%Z.

(** [str(z)] for an integer. *)
Definition str_of_int (z : Z) : pystr := lit (NilZero.string_of_int (Z.to_int z)).

(** ** Exceptions and results *)

Inductive exn : Set :=
  | ValueError
  | OverflowError
  | TypeError
  | RuntimeError
  | AttributeError
  | WebDriverException.

Inductive result (A : Type) : Type :=
  | Ok (a : A)
  | Raise (e : exn).

Arguments Ok {A} a.
Arguments Raise {A} e.

Definition bind {A B : Type} (m : result A) (k : A -> result B) : result B :=
  match m with
  | Ok a => k a
  | Raise e => Raise e
  end.

Notation "x <- m ;; k" := (bind m (fun x => k))
  (at level 61, m at next level, right associativity).

(** ** Floats: IEEE-754 binary64 *)

Definition dbl_prec : Z := 53.
Definition dbl_emax : Z := 1024.

Definition pyfloat := spec_float.

Definition float_zero : pyfloat := S754_zero false.

(** [x >= 0] for a float [x]: false on NaN, true on both zeros. *)
Definition float_ge0 (x : pyfloat) : bool := SFleb float_zero x.

(** [float(z)] for an integer: the nearest double, ties to even;
    [OverflowError] when that is out of range. *)
Definition float_of_int (z : Z) : result pyfloat :=
  match binary_normalize dbl_prec dbl_emax z 0 false with
  | S754_infinity _ => Raise OverflowError
  | f => Ok f
  end.

(** [int(x)] for a float: truncation towards zero; [ValueError] on NaN and
    [OverflowError] on an infinity. *)
Definition int_of_float (x : pyfloat) : result Z :=
  match x with
  | S754_nan => Raise ValueError
  | S754_infinity _ => Raise OverflowError
  | S754_zero _ => Ok 0%Z
  | S754_finite s m e =>
      let a := match e with
               | Zneg k => Z.shiftr (Zpos m) (Zpos k)
               | _ => Z.shiftl (Zpos m) e
               end in
      Ok (if s then Z.opp a else a)
  end.

(** [float(s)] for a string made of decimal digits and dots, which is all
    [validate_price] passes to it: [None] stands for [ValueError] (no digit,
    or more than one dot, or another character); otherwise the digits [n]
    with [k] of them after the dot denote [n / 10^k], rounded to the nearest
    double (an overlong number gives an infinity, as in Python). *)
Definition float_of_decimal (s : pystr) : option pyfloat :=
  let ds := filter is_digit s in
  if negb (forallb (fun c => is_digit c || Ascii.eqb c ".") s) then None
  else if (1 <? count_char "." s)%nat then None
  else match ds with
       | [] => None
       | _ :: _ =>
           let k := List.length (filter is_digit (skipn 1 (lstrip_by is_digit s))) in
           match int_of_digits ds with
           | Zpos n =>
               Some (SFdiv dbl_prec dbl_emax
                       (S754_finite false n 0)
                       (S754_finite false (Z.to_pos (10 ^ Z.of_nat k)) 0))
           | _ => Some float_zero
           end
       end.

(** ** Objects *)

(** The values a raw record may hold.  A [dict] keeps its items in insertion
    order; its keys are strings. *)
Inductive pyval : Type :=
  | VNone
  | VBool (b : bool)
  | VInt (z : Z)
  | VFloat (x : pyfloat)
  | VStr (s : pystr)
  | VList (l : list pyval)
  | VDict (d : list (pystr * pyval)).

Definition pydict := list (pystr * pyval).

Fixpoint lookup (k : pystr) (d : pydict) : option pyval :=
  match d with
  | [] => None
  | (k', v) :: t => if str_eqb k k' then Some v else lookup k t
  end.

(** [k in d]. *)
Definition has_key (k : pystr) (d : pydict) : bool :=
  match lookup k d with Some _ => true | None => false end.

(** [d.get(k)]. *)
Definition get (d : pydict) (k : pystr) : pyval :=
  match lookup k d with Some v => v | None => VNone end.

(** [d.get(k, dflt)]. *)
Definition get_default (d : pydict) (k : pystr) (dflt : pyval) : pyval :=
  match lookup k d with Some v => v | None => dflt end.

(** [d[k] = v]. *)
Fixpoint dict_set (d : pydict) (k : pystr) (v : pyval) : pydict :=
  match d with
  | [] => [(k, v)]
  | (k', v') :: t => if str_eqb k k' then (k', v) :: t else (k', v') :: dict_set t k v
  end.

(** [d.update(d2)]. *)
Definition dict_update (d d2 : pydict) : pydict :=
  fold_left (fun acc kv => dict_set acc (fst kv) (snd kv)) d2 d.

(** Truth value testing: [bool(v)]. *)
Definition truthy (v : pyval) : bool :=
  match v with
  | VNone => false
  | VBool b => b
  | VInt z => negb (z =? 0)%Z
  | VFloat x => match x with S754_zero _ => false | _ => true end
  | VStr s => nonempty s
  | VList l => match l with [] => false | _ => true end
  | VDict d => match d with [] => false | _ => true end
  end.

Definition of_opt_str (o : option pystr) : pyval :=
  match o with Some s => VStr s | None => VNone end.

Definition of_opt_int (o : option Z) : pyval :=
  match o with Some z => VInt z | None => VNone end.

Definition of_opt_float (o : option pyfloat) : pyval :=
  match o with Some x => VFloat x | None => VNone end.

(* ================================================================== *)
(** * Part II.  Regular expressions *)
(* ================================================================== *)

(** The patterns of [validators.py] use no group reference and no
    look-around, so [re.match] succeeds exactly when the text belongs to the
    pattern's language; membership is decided with derivatives. *)

Inductive regex : Type :=
  | Void
  | Eps
  | Cls (p : ascii -> bool)
  | Cat (a b : regex)
  | Alt (a b : regex)
  | Star (a : regex).

Fixpoint nullable (r : regex) : bool :=
  match r with
  | Void => false
  | Eps => true
  | Cls _ => false
  | Cat a b => nullable a && nullable b
  | Alt a b => nullable a || nullable b
  | Star _ => true
  end.

Definition cat (a b : regex) : regex :=
  match a, b with
  | Void, _ => Void
  | _, Void => Void
  | Eps, _ => b
  | _, _ => Cat a b
  end.

Definition alt (a b : regex) : regex :=
  match a, b with
  | Void, _ => b
  | _, Void => a
  | _, _ => Alt a b
  end.

Fixpoint deriv (c : ascii) (r : regex) : regex :=
  match r with
  | Void => Void
  | Eps => Void
  | Cls p => if p c then Eps else Void
  | Cat a b =>
      if nullable a then alt (cat (deriv c a) b) (deriv c b)
      else cat (deriv c a) b
  | Alt a b => alt (deriv c a) (deriv c b)
  | Star a => cat (deriv c a) (Star a)
  end.

Fixpoint fullmatch (r : regex) (s : pystr) : bool :=
  match s with
  | [] => nullable r
  | c :: t => fullmatch (deriv c r) t
  end.

(** [r?], [r+], [r{n}], [r{0,n}], [r{m,n}]. *)
Definition opt (r : regex) : regex := Alt r Eps.
Definition plus (r : regex) : regex := Cat r (Star r).

Fixpoint exactly (n : nat) (r : regex) : regex :=
  match n with
  | O => Eps
  | S k => Cat r (exactly k r)
  end.

Fixpoint upto (n : nat) (r : regex) : regex :=
  match n with
  | O => Eps
  | S k => opt (Cat r (upto k r))
  end.

Definition between (m n : nat) (r : regex) : regex :=
  Cat (exactly m r) (upto (n - m) r).

(** A literal character, and one under [re.IGNORECASE]. *)
Definition chr (c : ascii) : regex := Cls (Ascii.eqb c).
Definition chr_ci (c : ascii) : regex := Cls (char_eqb_ci c).

Definition word_ci (s : pystr) : regex :=
  fold_right (fun c r => Cat (chr_ci c) r) Eps s.

Definition word (s : pystr) : regex :=
  fold_right (fun c r => Cat (chr c) r) Eps s.

(** [$] without [re.MULTILINE] holds at the end of the text and just before
    a newline that ends it: [re.compile('^r$').match(s)]. *)
Definition match_anchored (r : regex) (s : pystr) : bool :=
  fullmatch r s ||
  match rev s with
  | c :: t => Ascii.eqb c "010" && fullmatch r (rev t)
  | [] => false
  end.

(* ================================================================== *)
(** * Part III.  [src/validators.py] *)
(* ================================================================== *)

(** The character classes of [url_pattern], compiled with [re.IGNORECASE]. *)
Definition cls_alnum (c : ascii) : bool :=
  in_range 65 90 c || in_range 97 122 c || is_digit c.
Definition cls_alnum_dash (c : ascii) : bool := cls_alnum c || Ascii.eqb c "-".
Definition cls_alpha (c : ascii) : bool := in_range 65 90 c || in_range 97 122 c.
Definition cls_slash_query (c : ascii) : bool := Ascii.eqb c "/" || Ascii.eqb c "?".
Definition cls_nonspace (c : ascii) : bool := negb (is_space c).

(** [(?:[A-Z0-9](?:[A-Z0-9-]{0,61}[A-Z0-9])?\.)+[A-Z]{2,6}\.?] *)
Definition re_domain : regex :=
  Cat (plus (Cat (Cls cls_alnum)
              (Cat (opt (Cat (upto 61 (Cls cls_alnum_dash)) (Cls cls_alnum)))
                   (chr "."))))
      (Cat (between 2 6 (Cls cls_alpha)) (opt (chr "."))).

(** [\d{1,3}\.\d{1,3}\.\d{1,3}\.\d{1,3}] *)
Definition re_ip : regex :=
  let octet := between 1 3 (Cls is_digit) in
  Cat octet (Cat (chr ".") (Cat octet (Cat (chr ".") (Cat octet (Cat (chr ".") octet))))).

(** [^https?://(?:domain|localhost|ip)(?::\d+)?(?:/?|[/?]\S+)$] *)
Definition url_regex : regex :=
  Cat (word_ci (lit "http"))
  (Cat (opt (chr_ci "s"))
  (Cat (word (lit "://"))
  (Cat (Alt re_domain (Alt (word_ci (lit "localhost")) re_ip))
  (Cat (opt (Cat (chr ":") (plus (Cls is_digit))))
       (Alt (opt (chr "/")) (Cat (Cls cls_slash_query) (plus (Cls cls_nonspace)))))))).

(** [url_pattern.match(url)]. *)
Definition url_pattern_match (url : pystr) : bool := match_anchored url_regex url.

Definition site_origin : pystr := lit "https://www.vivareal.com.br".

(** The examples at the end never print a float, a list or a dictionary;
    there [no_repr] stands for the interpreter's [repr]. *)
Definition no_repr : pyval -> pystr := fun _ => [].

Section Program.

(** [str(v)] of a float, a list or a dict is the interpreter's [repr];
    the cleaner only ever looks at the characters of the result, and what
    follows holds whatever that text is. *)
Variable repr_object : pyval -> pystr.

(** [str(v)]. *)
Definition py_str (v : pyval) : pystr :=
  match v with
  | VStr s => s
  | VNone => lit "None"
  | VBool true => lit "True"
  | VBool false => lit "False"
  | VInt z => str_of_int z
  | VFloat _ | VList _ | VDict _ => repr_object v
  end.

(** [normalize_text]: [None] for a falsy value; otherwise the words of
    [str(text)] joined by single spaces, or [None] when there is none. *)
Definition normalize_text (text : pyval) : option pystr :=
  if negb (truthy text) then None
  else
    let text := py_str text in
    let text := join (lit " ") (split_ws text) in
    let text := strip text in
    if negb (nonempty text) then None else Some text.

(** [normalize_zipcode]. *)
Definition normalize_zipcode (zipcode : pyval) : option pystr :=
  if negb (truthy zipcode) then None
  else
    let digits := filter is_digit (py_str zipcode) in
    if (List.length digits =? 8)%nat then
      Some (firstn 5 digits ++ lit "-" ++ skipn 5 digits)
    else if (List.length digits =? 7)%nat then
      Some (firstn 4 digits ++ lit "-" ++ skipn 4 digits)
    else None.

(** The characters [re.sub(r'[^\d.,]', '', price)] keeps. *)
Definition price_char (c : ascii) : bool :=
  is_digit c || Ascii.eqb c "." || Ascii.eqb c ",".

(** The [str] branch of [validate_price], up to the call of [float]. *)
Definition price_clean (price : pystr) : pystr :=
  let price_clean := filter price_char price in
  let price_clean := replace_char "," (lit ".") price_clean in
  if (1 <? count_char "." price_clean)%nat
  then replace_char "." [] price_clean
  else price_clean.

(** [validate_price].  A [bool] is an [int] for [isinstance]. *)
Definition validate_price (price : pyval) : result (option pyfloat) :=
  match price with
  | VNone => Ok None
  | VBool b =>
      x <- float_of_int (if b then 1 else 0) ;; Ok (Some x)
  | VInt z =>
      if (0 <=? z)%Z then x <- float_of_int z ;; Ok (Some x)
      else Ok None
  | VFloat x =>
      if float_ge0 x then Ok (Some x) else Ok None
  | VStr s =>
      match float_of_decimal (price_clean s) with
      | Some price_float =>
          if float_ge0 price_float then Ok (Some price_float) else Ok None
      | None => Ok None
      end
  | VList _ | VDict _ => Ok None
  end.

(** The bounds test shared by the two branches of [validate_int_value]. *)
Definition in_bounds (int_val min_val : Z) (max_val : option Z) : option Z :=
  if (min_val <=? int_val)%Z then
    match max_val with
    | None => Some int_val
    | Some m => if (int_val <=? m)%Z then Some int_val else None
    end
  else None.

(** [validate_int_value]: the numeric branch calls [int(value)] outside
    any [try]; the [str] branch keeps the digits of the text. *)
Definition validate_int_value (value : pyval) (min_val : Z) (max_val : option Z)
  : result (option Z) :=
  match value with
  | VNone => Ok None
  | VBool b => Ok (in_bounds (if b then 1 else 0) min_val max_val)
  | VInt z => Ok (in_bounds z min_val max_val)
  | VFloat x => int_val <- int_of_float x ;; Ok (in_bounds int_val min_val max_val)
  | VStr s =>
      let digits := filter is_digit s in
      if nonempty digits then Ok (in_bounds (int_of_digits digits) min_val max_val)
      else Ok None
  | VList _ | VDict _ => Ok None
  end.

(** [validate_url]. *)
Definition validate_url (url : pyval) : option pystr :=
  if negb (truthy url) then None
  else
    let url := strip (py_str url) in
    if url_pattern_match url then Some url
    else if startswith (lit "//") url then Some (lit "https:" ++ url)
    else if startswith (lit "/") url then Some (site_origin ++ url)
    else None.

(** [clean_location]. *)
Definition clean_location (location : pydict) : pydict :=
  [ (lit "city", of_opt_str (normalize_text (get location (lit "city"))));
    (lit "neighborhood", of_opt_str (normalize_text (get location (lit "neighborhood"))));
    (lit "street", of_opt_str (normalize_text (get location (lit "street"))));
    (lit "number", of_opt_str (normalize_text (get location (lit "number"))));
    (lit "zipcode", of_opt_str (normalize_zipcode (get location (lit "zipcode"))));
    (lit "complement", of_opt_str (normalize_text (get location (lit "complement"))));
    (lit "map_link", of_opt_str (validate_url (get location (lit "map_link")))) ].

(** The location [clean_data] writes when the raw record has none. *)
Definition empty_location : pydict :=
  [ (lit "city", VNone); (lit "neighborhood", VNone); (lit "street", VNone);
    (lit "number", VNone); (lit "zipcode", VNone); (lit "complement", VNone);
    (lit "map_link", VNone) ].

(** The loop of [clean_data] over [images], before the cut at 15. *)
Definition validated_images (images : list pyval) : list pystr :=
  flat_map (fun img_url =>
              match validate_url img_url with
              | Some validated_url => if nonempty validated_url then [validated_url] else []
              | None => []
              end) images.

(** [clean_data].  The numeric validators may raise; the first exception
    leaves the function. *)
Definition clean_data (data : pydict) : result pydict :=
  let url := validate_url (get data (lit "url")) in
  let scraped_at := get data (lit "scraped_at") in
  let property_type := normalize_text (get data (lit "property_type")) in
  let category :=
    if truthy (get data (lit "category"))
    then normalize_text (get data (lit "category")) else None in
  let modality := normalize_text (get data (lit "modality")) in
  price <- validate_price (get data (lit "price")) ;;
  size_m2 <- validate_int_value (get data (lit "size_m2")) 1 None ;;
  bedrooms <- validate_int_value (get data (lit "bedrooms")) 0 None ;;
  suites <- validate_int_value (get data (lit "suites")) 0 None ;;
  bathrooms <- validate_int_value (get data (lit "bathrooms")) 0 None ;;
  garage <- validate_int_value (get data (lit "garage")) 0 None ;;
  let location :=
    match lookup (lit "location") data with
    | Some (VDict location) => clean_location location
    | _ => empty_location
    end in
  let description := normalize_text (get data (lit "description")) in
  let advertiser_code := normalize_text (get data (lit "advertiser_code")) in
  let vivareal_code := normalize_text (get data (lit "vivareal_code")) in
  let images :=
    match get_default data (lit "images") (VList []) with
    | VList images => firstn 15 (validated_images images)
    | _ => []
    end in
  Ok [ (lit "url", of_opt_str url);
       (lit "scraped_at", scraped_at);
       (lit "property_type", of_opt_str property_type);
       (lit "category", of_opt_str category);
       (lit "modality", of_opt_str modality);
       (lit "price", of_opt_float price);
       (lit "size_m2", of_opt_int size_m2);
       (lit "bedrooms", of_opt_int bedrooms);
       (lit "suites", of_opt_int suites);
       (lit "bathrooms", of_opt_int bathrooms);
       (lit "garage", of_opt_int garage);
       (lit "location", VDict location);
       (lit "description", of_opt_str description);
       (lit "advertiser_code", of_opt_str advertiser_code);
       (lit "vivareal_code", of_opt_str vivareal_code);
       (lit "images", VList (map VStr images)) ].


(* ================================================================== *)
(** * Part IV.  [src/extractors.py] *)
(* ================================================================== *)

(** ** The image resolver, [extract_images] *)

Inductive strategy : Set :=
  | NetworkInterception
  | PageInteraction
  | ScriptMining
  | AiOracle.

(** What each strategy returns when it is called.  The first three catch
    their own exceptions; the fourth is called inside a [try], and [Raise]
    stands for an exception there ([driver.current_url], the import). *)
Record image_sources : Type := {
  network_images : list pystr;
  interaction_images : list pystr;
  script_images : list pystr;
  ai_images : result (list pystr)
}.

(** The two variables of the function: [images] and [seen_urls]. *)
Record image_state : Type := {
  images : list pystr;
  seen_urls : list pystr
}.

(** [if img not in seen_urls: images.append(img); seen_urls.add(img)] *)
Definition add_image (st : image_state) (img : pystr) : image_state :=
  if negb (mem img (seen_urls st))
  then {| images := images st ++ [img]; seen_urls := img :: seen_urls st |}
  else st.

(** The loop over the AI answer also stops filling at [max_images]. *)
Definition add_ai_image (max_images : Z) (st : image_state) (ai_img : pystr) : image_state :=
  if negb (mem ai_img (seen_urls st)) && (Z.of_nat (List.length (images st)) <? max_images)%Z
  then {| images := images st ++ [ai_img]; seen_urls := ai_img :: seen_urls st |}
  else st.

(** [l[:n]], also for a negative [n]. *)
Definition slice_to (n : Z) (l : list pystr) : list pystr :=
  if (0 <=? n)%Z then firstn (Z.to_nat n) l
  else firstn (List.length l - Z.to_nat (- n)) l.

(** A run of the resolver: its state and the strategies called so far. *)
Definition image_run := (image_state * list strategy)%type.

Definition call_strategy (s : strategy) (found : list pystr) (run : image_run) : image_run :=
  (fold_left add_image found (fst run), snd run ++ [s]).

Definition after_network (src : image_sources) : image_run :=
  call_strategy NetworkInterception (network_images src)
    ({| images := []; seen_urls := [] |}, []).

Definition after_interaction (src : image_sources) : image_run :=
  let run := after_network src in
  if (List.length (images (fst run)) <? 3)%nat
  then call_strategy PageInteraction (interaction_images src) run
  else run.

Definition after_scripts (src : image_sources) : image_run :=
  let run := after_interaction src in
  if (List.length (images (fst run)) <? 3)%nat
  then call_strategy ScriptMining (script_images src) run
  else run.

Definition after_ai (src : image_sources) (max_images : Z) (use_ai : bool) : image_run :=
  let run := after_scripts src in
  if (List.length (images (fst run)) <? 1)%nat && use_ai
  then match ai_images src with
       | Ok found => (fold_left (add_ai_image max_images) found (fst run), snd run ++ [AiOracle])
       | Raise _ => (fst run, snd run ++ [AiOracle])
       end
  else run.

(** [extract_images]: the list it returns and the strategies it called. *)
Definition extract_images (src : image_sources) (max_images : Z) (use_ai : bool)
  : list pystr * list strategy :=
  let run := after_ai src max_images use_ai in
  (slice_to max_images (images (fst run)), snd run).

(** ** The location resolver, [extract_location] *)

(** The [location] dictionary of the function: always the same seven keys. *)
Record location : Type := {
  city : option pystr;
  neighborhood : option pystr;
  street : option pystr;
  number : option pystr;
  zipcode : option pystr;
  complement : option pystr;
  map_link : option pystr
}.

Definition no_location : location :=
  {| city := None; neighborhood := None; street := None; number := None;
     zipcode := None; complement := None; map_link := None |}.

Definition set_city (l : location) (v : option pystr) : location :=
  {| city := v; neighborhood := neighborhood l; street := street l; number := number l;
     zipcode := zipcode l; complement := complement l; map_link := map_link l |}.
Definition set_neighborhood (l : location) (v : option pystr) : location :=
  {| city := city l; neighborhood := v; street := street l; number := number l;
     zipcode := zipcode l; complement := complement l; map_link := map_link l |}.
Definition set_street (l : location) (v : option pystr) : location :=
  {| city := city l; neighborhood := neighborhood l; street := v; number := number l;
     zipcode := zipcode l; complement := complement l; map_link := map_link l |}.
Definition set_number (l : location) (v : option pystr) : location :=
  {| city := city l; neighborhood := neighborhood l; street := street l; number := v;
     zipcode := zipcode l; complement := complement l; map_link := map_link l |}.
Definition set_zipcode (l : location) (v : option pystr) : location :=
  {| city := city l; neighborhood := neighborhood l; street := street l; number := number l;
     zipcode := v; complement := complement l; map_link := map_link l |}.
Definition set_map_link (l : location) (v : option pystr) : location :=
  {| city := city l; neighborhood := neighborhood l; street := street l; number := number l;
     zipcode := zipcode l; complement := complement l; map_link := v |}.

(** The dictionary the function returns. *)
Definition dict_of_location (l : location) : pydict :=
  [ (lit "city", of_opt_str (city l));
    (lit "neighborhood", of_opt_str (neighborhood l));
    (lit "street", of_opt_str (street l));
    (lit "number", of_opt_str (number l));
    (lit "zipcode", of_opt_str (zipcode l));
    (lit "complement", of_opt_str (complement l));
    (lit "map_link", of_opt_str (map_link l)) ].

(** Truth value of an optional string: [None] and [''] are falsy. *)
Definition present (o : option pystr) : bool :=
  match o with
  | Some s => nonempty s
  | None => false
  end.

(** An element found on the page, by the attributes the search reads;
    [get_attribute] may raise (a stale element). *)
Record element : Type := {
  href : result (option pystr);
  data_href : result (option pystr);
  data_url : result (option pystr)
}.

(** The partial location of the AI adapter, [Dict[str, Optional[str]]]:
    [None] is a missing key or a null. *)
Record ai_location : Type := {
  ai_city : option pystr;
  ai_neighborhood : option pystr;
  ai_street : option pystr;
  ai_number : option pystr;
  ai_zipcode : option pystr;
  ai_map_link : option pystr
}.

(** What the title regexes and the search for a city among the page elements
    leave in [location] before the map link is looked for. *)
Record title_parts : Type := {
  title_city : option pystr;
  title_neighborhood : option pystr;
  title_street : option pystr;
  title_number : option pystr
}.

(** What the page and the oracle answer during one call:
    - [title_fields]: the parts read from the title, or [Raise] when parsing
      the markup raised, which leaves the function at once;
    - [find_css]: [driver.find_elements(By.CSS_SELECTOR, selector)];
    - [map_text_links]: the elements whose text mentions the map, each by
      the [href] of its nearest link, [Raise] when there is none;
    - [ai_answer]: the adapter's answer, [Raise] when the [try] block fails
      before the merge. *)
Record location_sources : Type := {
  title_fields : result title_parts;
  find_css : pystr -> result (list element);
  map_text_links : result (list (result (option pystr)));
  ai_answer : result ai_location
}.

Definition map_selectors : list pystr :=
  [ lit "a[href*='maps']"; lit "a[href*='google']"; lit "a[href*='mapa']";
    lit "a[href*='location']"; lit "a[href*='coordinates']";
    lit "[class*='map'] a"; lit "[class*='Map'] a";
    lit "[class*='location'] a"; lit "[class*='Location'] a";
    lit "[data-testid*='map'] a"; lit "[data-testid*='location'] a";
    lit "button[onclick*='map']"; lit "button[onclick*='location']" ].

(** ['mapa-do-site' in map_url_lower or 'sitemap' in map_url_lower] *)
Definition sitemap_marked (map_url_lower : pystr) : bool :=
  contains (lit "mapa-do-site") map_url_lower || contains (lit "sitemap") map_url_lower.

(** The test [is_valid_map] of the selector loop. *)
Definition is_valid_map (map_url_lower : pystr) : bool :=
  contains (lit "google.com/maps") map_url_lower
  || contains (lit "maps.google") map_url_lower
  || (contains (lit "/maps/") map_url_lower && contains (lit "google") map_url_lower)
  || (contains (lit "lat=") map_url_lower && contains (lit "lng=") map_url_lower).

(** [href], or else [data-href or data-url]. *)
Definition candidate_url (e : element) : result (option pystr) :=
  map_url <- href e ;;
  if present map_url then Ok map_url
  else
    a <- data_href e ;;
    if present a then Ok a else data_url e.

(** What the selector loop does with a candidate: the link it keeps. *)
Definition accept_selector_url (map_url : pystr) : option pystr :=
  let map_url_lower := lower map_url in
  if sitemap_marked map_url_lower then None
  else if is_valid_map map_url_lower then
    if startswith (lit "//") map_url then Some (lit "https:" ++ map_url)
    else if startswith (lit "/") map_url then None
    else Some map_url
  else None.

(** The loop over the elements of one selector: the link it stops at. *)
Fixpoint scan_elements (elements : list element) : result (option pystr) :=
  match elements with
  | [] => Ok None
  | e :: rest =>
      map_url <- candidate_url e ;;
      match (if present map_url
             then match map_url with Some u => accept_selector_url u | None => None end
             else None) with
      | Some found => Ok (Some found)
      | None => scan_elements rest
      end
  end.

(** The loop over the selectors; an exception moves on to the next one. *)
Fixpoint scan_selectors (find : pystr -> result (list element)) (selectors : list pystr)
  : option pystr :=
  match selectors with
  | [] => None
  | selector :: rest =>
      match (elements <- find selector ;; scan_elements elements) with
      | Ok (Some found) => Some found
      | Ok None | Raise _ => scan_selectors find rest
      end
  end.

(** What the text search does with the link of an element. *)
Definition accept_text_url (map_url : pystr) : option pystr :=
  let map_url_lower := lower map_url in
  if sitemap_marked map_url_lower then None
  else if contains (lit "google.com/maps") map_url_lower
          || contains (lit "maps.google") map_url_lower then
    Some (if startswith (lit "//") map_url then lit "https:" ++ map_url else map_url)
  else None.

Fixpoint scan_text_links (links : list (result (option pystr))) : option pystr :=
  match links with
  | [] => None
  | Ok (Some map_url) :: rest =>
      if nonempty map_url then
        match accept_text_url map_url with
        | Some found => Some found
        | None => scan_text_links rest
        end
      else scan_text_links rest
  | _ :: rest => scan_text_links rest
  end.

(** The link found among the page elements, by selector or by text. *)
Definition page_map_link (src : location_sources) : option pystr :=
  match scan_selectors (find_css src) map_selectors with
  | Some found => Some found
  | None =>
      match map_text_links src with
      | Ok links => scan_text_links links
      | Raise _ => None
      end
  end.

(** [if part: address_parts.append(part)] *)
Definition append_part (part : option pystr) (address_parts : list pystr) : list pystr :=
  match part with
  | Some p => if nonempty p then address_parts ++ [p] else address_parts
  | None => address_parts
  end.

(** The Google Maps search link written from the address parts. *)
Definition google_maps_url (address_parts : list pystr) : pystr :=
  let full_address := join (lit ", ") (filter nonempty address_parts) in
  lit "https://www.google.com/maps/search/?api=1&query="
  ++ replace_char " " (lit "+") full_address.

(** The city the title regex may cut short: ['São']. *)
Definition Sao : pystr := ["S"; ascii_of_nat 227; "o"]%char.

(** First construction, when no link was found on the page:
    [not map_link and street and city]. *)
Definition build_link_first (l : location) : location :=
  if negb (present (map_link l)) && present (street l) && present (city l) then
    let address_parts := append_part (street l) [] in
    let address_parts := append_part (number l) address_parts in
    let address_parts := append_part (neighborhood l) address_parts in
    let address_parts := append_part (city l) address_parts in
    match address_parts with
    | [] => l
    | _ :: _ => set_map_link l (Some (google_maps_url address_parts))
    end
  else l.

(** ['mapa-do-site' in location.get('map_link', '')], reached only when the
    link is a non-empty string. *)
Definition points_at_sitemap (l : location) : bool :=
  match map_link l with
  | Some m => contains (lit "mapa-do-site") m
  | None => false
  end.

(** The condition under which the oracle is asked. *)
Definition wants_ai (l : location) (use_ai : bool) : bool :=
  (negb (present (city l))
   || match city l with Some c => str_eqb c Sao | None => false end
   || negb (present (map_link l))
   || points_at_sitemap l)
  && use_ai.

(** The statements of the merge, in order.  [len(location.get('city', ''))]
    reads the key [city], which is always there: on [None] it raises
    [TypeError]. *)
Definition merge_city (ai : ai_location) (l : location) : result location :=
  if present (ai_city ai) then
    match ai_city ai, city l with
    | Some a, Some c =>
        if (List.length c <? List.length a)%nat then Ok (set_city l (ai_city ai)) else Ok l
    | _, None => Raise TypeError
    | None, _ => Ok l
    end
  else Ok l.

Definition merge_neighborhood (ai : ai_location) (l : location) : result location :=
  if present (ai_neighborhood ai) && negb (present (neighborhood l))
  then Ok (set_neighborhood l (ai_neighborhood ai)) else Ok l.

Definition merge_street (ai : ai_location) (l : location) : result location :=
  if present (ai_street ai) && negb (present (street l))
  then Ok (set_street l (ai_street ai)) else Ok l.

Definition merge_number (ai : ai_location) (l : location) : result location :=
  if present (ai_number ai) && negb (present (number l))
  then Ok (set_number l (ai_number ai)) else Ok l.

Definition merge_zipcode (ai : ai_location) (l : location) : result location :=
  if present (ai_zipcode ai) && negb (present (zipcode l))
  then Ok (set_zipcode l (ai_zipcode ai)) else Ok l.

Definition merge_map_link (ai : ai_location) (l : location) : result location :=
  if present (ai_map_link ai)
     && match ai_map_link ai with
        | Some m => contains (lit "google.com/maps") m
        | None => false
        end
  then Ok (set_map_link l (ai_map_link ai)) else Ok l.

(** Statements that update [location] in place inside a [try]: an exception
    ends the block and keeps what was written before it. *)
Fixpoint run_block (block : list (location -> result location)) (l : location) : location :=
  match block with
  | [] => l
  | statement :: rest =>
      match statement l with
      | Ok l' => run_block rest l'
      | Raise _ => l
      end
  end.

(** The merge of the oracle's answer into the location. *)
Definition ai_merge (ai : ai_location) (l : location) : location :=
  run_block [ merge_city ai; merge_neighborhood ai; merge_street ai;
              merge_number ai; merge_zipcode ai; merge_map_link ai ] l.

(** The AI fallback of [extract_location]. *)
Definition ai_fallback (src : location_sources) (use_ai : bool) (l : location) : location :=
  if wants_ai l use_ai then
    match ai_answer src with
    | Ok ai => ai_merge ai l
    | Raise _ => l
    end
  else l.

(** The final fallback: a missing link, or one that holds ['mapa-do-site'],
    is written from the address when two parts at least are known. *)
Definition build_link_last (l : location) : location :=
  if negb (present (map_link l)) || points_at_sitemap l then
    let address_parts := append_part (street l) [] in
    let address_parts := append_part (number l) address_parts in
    let address_parts := append_part (neighborhood l) address_parts in
    let address_parts :=
      if present (city l) && negb (match city l with Some c => str_eqb c Sao | None => false end)
      then append_part (city l) address_parts else address_parts in
    if (2 <=? List.length address_parts)%nat
    then set_map_link l (Some (google_maps_url address_parts))
    else l
  else l.

(** [extract_location], from the search of the map link onwards. *)
Definition extract_location (src : location_sources) (use_ai : bool) : location :=
  match title_fields src with
  | Raise _ => no_location
  | Ok parts =>
      let l := {| city := title_city parts; neighborhood := title_neighborhood parts;
                  street := title_street parts; number := title_number parts;
                  zipcode := None; complement := None; map_link := None |} in
      let l := match page_map_link src with
               | Some found => set_map_link l (Some found)
               | None => l
               end in
      let l := build_link_first l in
      let l := ai_fallback src use_ai l in
      build_link_last l
  end.

(* ================================================================== *)
(** * Part V.  [src/scraper.py] *)
(* ================================================================== *)

(** The dictionary [extract_characteristics] returns: always its five keys. *)
Record characteristics : Type := {
  c_size_m2 : option Z;
  c_bedrooms : option Z;
  c_bathrooms : option Z;
  c_suites : option Z;
  c_garage : option Z
}.

Definition dict_of_characteristics (c : characteristics) : pydict :=
  [ (lit "size_m2", of_opt_int (c_size_m2 c));
    (lit "bedrooms", of_opt_int (c_bedrooms c));
    (lit "bathrooms", of_opt_int (c_bathrooms c));
    (lit "suites", of_opt_int (c_suites c));
    (lit "garage", of_opt_int (c_garage c)) ].

(** What the extractors read off the page at one reading of the markup.
    None of them raises: each catches its own exceptions. *)
Record page_view : Type := {
  markup : pystr;
  found_property_type : option pystr;
  found_modality : option pystr;
  found_price : option pyfloat;
  location_of_page : location_sources;
  found_description : option pystr;
  images_of_page : image_sources;
  found_characteristics : characteristics;
  found_advertiser_code : option pystr;
  found_vivareal_code : option pystr
}.

(** One [scrape] call seen from the driver: what each of its requests
    answers, in the order the method makes them. *)
Record session : Type := {
  driver_initialised : bool;
  get_first : result unit;
  current_url_first : result pystr;
  get_second : result unit;
  current_url_second : result pystr;
  wait_for_page_load : result unit;
  clock : pystr;
  first_page : result page_view;
  second_page : result page_view
}.

Inductive extractor : Set :=
  | XPropertyType
  | XModality
  | XPrice
  | XLocation
  | XDescription
  | XImages
  | XCharacteristics
  | XCodes.

(** What a call does, in order. *)
Inductive event : Set :=
  | EvCleanDriverState
  | EvGet
  | EvCurrentUrl
  | EvSleep (seconds : nat)
  | EvRateLimit
  | EvWaitForPageLoad
  | EvPageSource
  | EvExtract (x : extractor)
  | EvCleanData.

(** A computation that logs events and may raise. *)
Definition logged (A : Type) : Type := (list event * result A)%type.

Definition ret {A : Type} (a : A) : logged A := ([], Ok a).

Definition raise {A : Type} (e : exn) : logged A := ([], Raise e).

(** One request: its event and its answer. *)
Definition request {A : Type} (ev : event) (answer : result A) : logged A := ([ev], answer).

Definition step (ev : event) : logged unit := ([ev], Ok tt).

Definition then_ {A B : Type} (m : logged A) (k : A -> logged B) : logged B :=
  match snd m with
  | Ok a => (fst m ++ fst (k a), snd (k a))
  | Raise e => (fst m, Raise e)
  end.

Notation "x <~ m ;; k" := (then_ m (fun x => k))
  (at level 61, m at next level, right associativity).

Definition is_none (v : pyval) : bool :=
  match v with VNone => true | _ => false end.

Definition essential_fields : list pystr :=
  [ lit "property_type"; lit "price"; lit "location" ].

(** The test of the completeness count for one field:
    [data.get(field) is not None and (not isinstance(data.get(field), dict)
     or data.get(field).get('city') is not None)]. *)
Definition essential_found (data : pydict) (field : pystr) : bool :=
  negb (is_none (get data field))
  && match get data field with
     | VDict d => negb (is_none (get d (lit "city")))
     | _ => true
     end.

Definition extracted_count (data : pydict) : nat :=
  List.length (filter (essential_found data) essential_fields).

(** The requested address and the driver's, as the method compares them. *)
Definition same_page (url current_url : pystr) : bool :=
  let url_normalized := strip_slash (before "?" url) in
  let current_normalized := strip_slash (before "?" current_url) in
  contains url_normalized current_normalized || contains current_normalized url_normalized.

(** Navigation, with one more attempt when the driver is elsewhere. *)
Definition navigate (s : session) (url : pystr) : logged unit :=
  _ <~ step EvCleanDriverState ;;
  _ <~ request EvGet (get_first s) ;;
  _ <~ step (EvSleep 1) ;;
  current_url <~ request EvCurrentUrl (current_url_first s) ;;
  if negb (same_page url current_url) then
    _ <~ step (EvSleep 1) ;;
    _ <~ request EvGet (get_second s) ;;
    _ <~ step (EvSleep 1) ;;
    _ <~ request EvCurrentUrl (current_url_second s) ;;
    ret tt
  else ret tt.

(** The raw record [data] the first extraction assembles: the dictionary
    of the extractors' results, updated with the characteristics, then
    given the two codes. *)
Definition assemble (url scraped_at : pystr) (page : page_view) : pydict :=
  let data : pydict :=
    [ (lit "url", VStr url);
      (lit "scraped_at", VStr scraped_at);
      (lit "property_type", of_opt_str (found_property_type page));
      (lit "category", VNone);
      (lit "modality", of_opt_str (found_modality page));
      (lit "price", of_opt_float (found_price page));
      (lit "size_m2", VNone); (lit "bedrooms", VNone); (lit "suites", VNone);
      (lit "bathrooms", VNone); (lit "garage", VNone);
      (lit "location",
        VDict (dict_of_location (extract_location (location_of_page page) true)));
      (lit "description", of_opt_str (found_description page));
      (lit "images",
        VList (map VStr (fst (extract_images (images_of_page page) 15 true)))) ] in
  let data := dict_update data (dict_of_characteristics (found_characteristics page)) in
  let data := dict_set data (lit "advertiser_code") (of_opt_str (found_advertiser_code page)) in
  dict_set data (lit "vivareal_code") (of_opt_str (found_vivareal_code page)).

(** The calls of the first extraction, in the order the method makes them. *)
Definition first_calls : list event :=
  [ EvExtract XPropertyType; EvExtract XModality; EvExtract XPrice;
    EvExtract XLocation; EvExtract XDescription; EvExtract XImages;
    EvExtract XCharacteristics; EvExtract XCodes ].

(** The first extraction, up to the completeness check. *)
Definition initial_extraction (s : session) (url : pystr) : logged pydict :=
  if negb (driver_initialised s) then raise RuntimeError
  else
    _ <~ navigate s url ;;
    _ <~ step EvRateLimit ;;
    _ <~ request EvWaitForPageLoad (wait_for_page_load s) ;;
    page <~ request EvPageSource (first_page s) ;;
    if (List.length (markup page) <? 1000)%nat then raise ValueError
    else (first_calls, Ok (assemble url (clock s ++ lit "Z") page)).

(** [not data.get('location') or not data.get('location', {}).get('city')] *)
Definition location_missing (data : pydict) : result bool :=
  if negb (truthy (get data (lit "location"))) then Ok true
  else
    match get_default data (lit "location") (VDict []) with
    | VDict d => Ok (negb (truthy (get d (lit "city"))))
    | _ => Raise AttributeError
    end.

(** The re-extraction pass: wait, read the markup again, and call again
    the extractor of each essential field that is still falsy. *)
Definition reextraction (s : session) (data : pydict) : logged pydict :=
  _ <~ step (EvSleep 5) ;;
  page <~ request EvPageSource (second_page s) ;;
  data <~ (if negb (truthy (get data (lit "property_type"))) then
             _ <~ step (EvExtract XPropertyType) ;;
             ret (dict_set data (lit "property_type") (of_opt_str (found_property_type page)))
           else ret data) ;;
  data <~ (if negb (truthy (get data (lit "price"))) then
             _ <~ step (EvExtract XPrice) ;;
             ret (dict_set data (lit "price") (of_opt_float (found_price page)))
           else ret data) ;;
  missing <~ ([], location_missing data) ;;
  if (missing : bool) then
    _ <~ step (EvExtract XLocation) ;;
    ret (dict_set data (lit "location")
           (VDict (dict_of_location (extract_location (location_of_page page) true))))
  else ret data.

(** [VivaRealScraper.scrape]. *)
Definition scrape (s : session) (url : pystr) : logged pydict :=
  data <~ initial_extraction s url ;;
  data <~ (if (extracted_count data =? 0)%nat then reextraction s data else ret data) ;;
  request EvCleanData (clean_data data).

(** ** Example pages *)

(** The record [scrape] returns, and the events of the call. *)
Definition record_of (s : session) (url : pystr) : pydict :=
  match snd (scrape s url) with
  | Ok r => r
  | Raise _ => []
  end.

Definition trace_of (s : session) (url : pystr) : list event := fst (scrape s url).

Definition listing_url : pystr :=
  lit "https://www.vivareal.com.br/imovel/apartamento-2-quartos-centro-sao-luis-id-2700000001/".

(** An address the browser can load whose top-level domain has more than
    six letters. *)
Definition long_domain_url : pystr := lit "https://vivareal.properties/imovel/2700000001/".

(** One photograph as the network log holds it, fetched in two sizes. *)
Definition photo_small : pystr :=
  lit "https://resizedimgs.vivareal.com/img/vr-listing/0a1b2c/foto-sala.jpg?w=400".

Definition photo_large : pystr :=
  lit "https://resizedimgs.vivareal.com/img/vr-listing/0a1b2c/foto-sala.jpg?w=1080".

Definition Sao_Luis : pystr := Sao ++ lit " Lu" ++ [ascii_of_nat 237] ++ lit "s".

Definition no_title : title_parts :=
  {| title_city := None; title_neighborhood := None; title_street := None;
     title_number := None |}.

Definition no_answer : ai_location :=
  {| ai_city := None; ai_neighborhood := None; ai_street := None; ai_number := None;
     ai_zipcode := None; ai_map_link := None |}.

(** A page without any map element, read by an oracle that answers [ai]. *)
Definition location_from (parts : title_parts) (ai : ai_location) : location_sources :=
  {| title_fields := Ok parts;
     find_css := fun _ => Ok [];
     map_text_links := Ok [];
     ai_answer := Ok ai |}.

Definition no_images : image_sources :=
  {| network_images := []; interaction_images := []; script_images := [];
     ai_images := Ok [] |}.

Definition no_characteristics : characteristics :=
  {| c_size_m2 := None; c_bedrooms := None; c_bathrooms := None; c_suites := None;
     c_garage := None |}.

(** A page on which no extractor finds anything. *)
Definition blank_page : page_view :=
  {| markup := repeat "x"%char 1000;
     found_property_type := None;
     found_modality := None;
     found_price := None;
     location_of_page := location_from no_title no_answer;
     found_description := None;
     images_of_page := no_images;
     found_characteristics := no_characteristics;
     found_advertiser_code := None;
     found_vivareal_code := None |}.

(** A page with a property type, the location sources [loc] and the image
    sources [imgs]. *)
Definition apartment_page (loc : location_sources) (imgs : image_sources) : page_view :=
  {| markup := repeat "x"%char 1000;
     found_property_type := Some (lit "Apartamento");
     found_modality := Some (lit "Venda");
     found_price := None;
     location_of_page := loc;
     found_description := None;
     images_of_page := imgs;
     found_characteristics := no_characteristics;
     found_advertiser_code := None;
     found_vivareal_code := None |}.

(** A call in which the driver lands on the requested address [url] and
    shows [page] at both readings. *)
Definition session_showing (url : pystr) (page : page_view) : session :=
  {| driver_initialised := true;
     get_first := Ok tt;
     current_url_first := Ok url;
     get_second := Ok tt;
     current_url_second := Ok url;
     wait_for_page_load := Ok tt;
     clock := lit "2024-01-01T00:00:00";
     first_page := Ok page;
     second_page := Ok page |}.

Definition two_sizes : image_sources :=
  {| network_images := [photo_small; photo_large]; interaction_images := [];
     script_images := []; ai_images := Ok [] |}.

Definition two_sizes_session : session :=
  session_showing listing_url (apartment_page (location_from no_title no_answer) two_sizes).

Definition long_domain_session : session :=
  session_showing long_domain_url (apartment_page (location_from no_title no_answer) no_images).

Definition blank_session : session := session_showing listing_url blank_page.

(** An oracle whose map link is a Google Maps address with [sitemap] in it. *)
Definition sitemap_answer : ai_location :=
  {| ai_city := None; ai_neighborhood := None; ai_street := None; ai_number := None;
     ai_zipcode := None; ai_map_link := Some (lit "https://www.google.com/maps/sitemap") |}.

Definition sitemap_session : session :=
  session_showing listing_url (apartment_page (location_from no_title sitemap_answer) no_images).

(** A location whose city the title cut short and whose map link was found
    on the page, and an oracle that knows the city and another link. *)
Definition short_city_location : location :=
  {| city := Some Sao; neighborhood := Some (lit "Centro"); street := None; number := None;
     zipcode := None; complement := None;
     map_link := Some (lit "https://maps.google.com/?q=-2.5297,-44.3028") |}.

Definition full_city_answer : ai_location :=
  {| ai_city := Some Sao_Luis; ai_neighborhood := Some (lit "Renascen" ++ [ascii_of_nat 231] ++ lit "a");
     ai_street := None; ai_number := None; ai_zipcode := None;
     ai_map_link := Some (lit "https://www.google.com/maps/place/Centro") |}.

(** A raw record whose address is a path with a space in it. *)
Definition relative_url_record : pydict := [ (lit "url", VStr (lit "/imovel/casa 2")) ].

(** A raw record as the extractors might leave it. *)
Definition raw_listing : pydict :=
  [ (lit "url", VStr listing_url);
    (lit "scraped_at", VStr (lit "2024-01-01T00:00:00Z"));
    (lit "property_type", VStr (lit "  Apartamento "));
    (lit "modality", VStr (lit "Venda"));
    (lit "price", VStr (lit "R$ 450.000"));
    (lit "size_m2", VStr (lit "72 m2"));
    (lit "bedrooms", VInt 2);
    (lit "location", VDict [ (lit "city", VStr Sao_Luis);
                             (lit "zipcode", VStr (lit "65010-000")) ]);
    (lit "images", VList [VStr photo_small; VStr (lit "foto.jpg")]) ].

Definition cleaned_of (d : pydict) : pydict :=
  match clean_data d with
  | Ok r => r
  | Raise _ => []
  end.

(* ================================================================== *)
(** * Part V (continued).  [src/scraper.py]: retries and the wait for the page *)
(* ================================================================== *)

(** ** The decorator [retry_on_failure] *)

(** What a decorated call does, in order: calls of the function and sleeps. *)
Inductive retry_event : Type :=
  | RCall
  | RSleep (seconds : pyfloat).

(** The function under the decorator and the clock: what the [attempt]-th
    call returns or raises (the function may depend on the state of the
    world), and what [time.sleep] does with a delay. *)
Record retried (A : Type) : Type := {
  call : nat -> result A;
  sleep : pyfloat -> result unit
}.

(** The float [1.5]. *)
Definition one_and_a_half : pyfloat := binary_normalize dbl_prec dbl_emax 3 (-1) false.

(** [current_delay *= 1.5] *)
Definition next_delay (current_delay : pyfloat) : pyfloat :=
  SFmul dbl_prec dbl_emax current_delay one_and_a_half.

(** The loop [for attempt in range(max_retries)], with [todo] iterations
    left, and the [raise last_exception] after it; raising [None] is a
    [TypeError]. *)
Fixpoint retry_loop {A : Type} (f : retried A) (max_retries : Z) (todo attempt : nat)
    (current_delay : pyfloat) (last_exception : option exn)
  : list retry_event * result A :=
  match todo with
  | O => ([], Raise match last_exception with Some e => e | None => TypeError end)
  | S todo' =>
      match call f attempt with
      | Ok a => ([RCall], Ok a)
      | Raise e =>
          if (Z.of_nat attempt <? max_retries - 1)%Z then
            match sleep f current_delay with
            | Ok _ =>
                let rest := retry_loop f max_retries todo' (S attempt)
                              (next_delay current_delay) (Some e) in
                (RCall :: RSleep current_delay :: fst rest, snd rest)
            | Raise e' => ([RCall; RSleep current_delay], Raise e')
            end
          else
            let rest := retry_loop f max_retries todo' (S attempt) current_delay (Some e) in
            (RCall :: fst rest, snd rest)
      end
  end.

(** [retry_on_failure(max_retries, delay)(func)(...)]. *)
Definition retry_on_failure {A : Type} (max_retries : Z) (delay : pyfloat) (f : retried A)
  : list retry_event * result A :=
  retry_loop f max_retries (Z.to_nat max_retries) 0 delay None.

(** ** [_wait_for_page_load], under the decorator *)

(** How a [WebDriverWait(...).until(...)] ends: the condition held, or
    [TimeoutException], or another exception. *)
Inductive wait_outcome : Type :=
  | Appeared
  | TimedOut
  | Broke (e : exn).

(** What the driver answers during one run of the method. *)
Record page_load : Type := {
  body_wait : wait_outcome;
  ready_wait : wait_outcome;
  enable_performance : result unit;
  enable_network : result unit;
  key_wait : pystr -> wait_outcome
}.

Inductive load_event : Type :=
  | LBody
  | LReady
  | LPerformance
  | LNetwork
  | LKey (selector : pystr)
  | LSleep3.

Definition key_selectors : list pystr :=
  [ lit "h1"; lit "[class*='price']"; lit "[class*='Price']";
    lit "[data-testid*='price']"; lit "title" ].

(** The loop over the key selectors: a timeout moves on to the next one,
    the first element found ends the loop, another exception leaves the
    method. *)
Fixpoint wait_for_key (p : page_load) (selectors : list pystr)
  : list load_event * result unit :=
  match selectors with
  | [] => ([], Ok tt)
  | selector :: rest =>
      match key_wait p selector with
      | Appeared => ([LKey selector], Ok tt)
      | TimedOut => (LKey selector :: fst (wait_for_key p rest), snd (wait_for_key p rest))
      | Broke e => ([LKey selector], Raise e)
      end
  end.

(** The two CDP commands, inside one [try]: the second is skipped when the
    first raises. *)
Definition enable_interception (p : page_load) : list load_event :=
  match enable_performance p with
  | Ok _ => [LPerformance; LNetwork]
  | Raise _ => [LPerformance]
  end.

(** The body of [_wait_for_page_load]: the outer [try] catches
    [TimeoutException] only.  The final [time.sleep(3)] is taken to return. *)
Definition wait_for_page_load_once (p : page_load) : list load_event * result unit :=
  match body_wait p with
  | TimedOut => ([LBody], Ok tt)
  | Broke e => ([LBody], Raise e)
  | Appeared =>
      match ready_wait p with
      | Broke e => ([LBody; LReady], Raise e)
      | Appeared | TimedOut =>
          let keys := wait_for_key p key_selectors in
          match snd keys with
          | Ok _ => ([LBody; LReady] ++ enable_interception p ++ fst keys ++ [LSleep3], Ok tt)
          | Raise e => ([LBody; LReady] ++ enable_interception p ++ fst keys, Raise e)
          end
      end
  end.

(** The floats [2.0] and [3.0]. *)
Definition float_two : pyfloat := binary_normalize dbl_prec dbl_emax 2 0 false.
Definition float_three : pyfloat := binary_normalize dbl_prec dbl_emax 3 0 false.

(** The decorated method, [@retry_on_failure(max_retries=3, delay=2.0)]:
    [runs k] is what the driver answers during the [k]-th run. *)
Definition wait_for_page_load_retried (runs : nat -> page_load)
    (time_sleep : pyfloat -> result unit) : list retry_event * result unit :=
  retry_on_failure 3 float_two
    {| call := fun attempt => snd (wait_for_page_load_once (runs attempt));
       sleep := time_sleep |}.

(* ================================================================== *)
(** * Part V (continued).  [src/extractors.py]: type, modality and description *)
(* ================================================================== *)

(** What [extract_property_type] and [extract_modality] read of the page:
    - [page_source]: the markup handed over;
    - [title_text]: the text of the [title] element the parser finds,
      [Ok None] when there is none, [Raise] when parsing raised;
    - [breadcrumb]: the texts of the breadcrumb links, each one [Raise]
      when reading it raised; [Raise] when the search itself raised;
    - [current_url]: [driver.current_url]. *)
Record heading_sources : Type := {
  page_source : pystr;
  title_text : result (option pystr);
  breadcrumb : result (list (result pystr));
  current_url : result pystr
}.

(** [not page_source or len(page_source) < 100] *)
Definition too_small (page_source : pystr) : bool :=
  negb (nonempty page_source) || (List.length page_source <? 100)%nat.

Definition property_types : list pystr :=
  [ lit "Apartamento"; lit "Casa"; lit "Cobertura"; lit "Terreno";
    lit "Sobrado"; lit "Kitnet"; lit "Studio"; lit "Loft"; lit "Sala" ].

(** [for prop_type in property_types:
       if prop_type.lower() in text.lower(): return prop_type] *)
Definition type_named (types : list pystr) (text : pystr) : option pystr :=
  find (fun prop_type => contains (lower prop_type) (lower text)) types.

(** The loop over the breadcrumb links.  It stands in a [try] of its own
    whose handler only logs, after which the function returns [None]; so
    [None] is the result both when no type is found and when something
    raised.  [property_types] is assigned under [if title:]: without a
    title the name is unbound ([types = None]) and the first link met
    raises [UnboundLocalError]. *)
Fixpoint breadcrumb_type (types : option (list pystr)) (items : list (result pystr))
    : option pystr :=
  match items with
  | [] => None
  | Raise _ :: _ => None
  | Ok item_text :: rest =>
      let text := strip item_text in
      match types with
      | None => None
      | Some property_types =>
          match type_named property_types text with
          | Some prop_type => Some prop_type
          | None => breadcrumb_type types rest
          end
      end
  end.

(** [extract_property_type] *)
Definition extract_property_type (src : heading_sources) : option pystr :=
  if too_small (page_source src) then None
  else
    match title_text src with
    | Raise _ => None
    | Ok title =>
        match match title with
              | Some title_text => type_named property_types title_text
              | None => None
              end with
        | Some prop_type => Some prop_type
        | None =>
            match breadcrumb src with
            | Raise _ => None
            | Ok breadcrumb_items =>
                breadcrumb_type (match title with
                                 | Some _ => Some property_types
                                 | None => None
                                 end) breadcrumb_items
            end
        end
    end.

Definition Venda : pystr := lit "Venda".
Definition Aluguel : pystr := lit "Aluguel".

(** The test on the title:
    ['venda' in t or 'por r$' in t], else ['aluguel' in t or 'alugar' in t],
    with [t = title_text.lower()]. *)
Definition title_modality (title_text : pystr) : option pystr :=
  let t := lower title_text in
  if contains (lit "venda") t || contains (lit "por r$") t then Some Venda
  else if contains (lit "aluguel") t || contains (lit "alugar") t then Some Aluguel
  else None.

(** The test on the address: ['/venda/'], else ['/aluguel/']. *)
Definition url_modality (current_url : pystr) : option pystr :=
  let u := lower current_url in
  if contains (lit "/venda/") u then Some Venda
  else if contains (lit "/aluguel/") u then Some Aluguel
  else None.

(** [extract_modality] *)
Definition extract_modality (src : heading_sources) : option pystr :=
  if too_small (page_source src) then None
  else
    match title_text src with
    | Raise _ => None
    | Ok title =>
        match match title with
              | Some title_text => title_modality title_text
              | None => None
              end with
        | Some modality => Some modality
        | None =>
            match current_url src with
            | Raise _ => None
            | Ok current_url => url_modality current_url
            end
        end
    end.

(** [s.split(c)] for a one-character [c]: the pieces between the
    occurrences of [c], empty pieces included. *)
Fixpoint split_char (c : ascii) (s : pystr) : list pystr :=
  match s with
  | [] => [[]]
  | x :: t =>
      if Ascii.eqb x c then [] :: split_char c t
      else match split_char c t with
           | w :: ws => (x :: w) :: ws
           | [] => [[x]]
           end
  end.

Definition newline : ascii := ascii_of_nat 10.

(** ['descrição'] and ['características']. *)
Definition headers : list pystr :=
  [ lit "descri" ++ [ascii_of_nat 231; ascii_of_nat 227] ++ lit "o";
    lit "caracter" ++ [ascii_of_nat 237] ++ lit "sticas" ].

Definition description_selectors : list pystr :=
  [ lit "[class*='description']"; lit "[class*='Description']";
    lit "[data-testid*='description']" ].

(** What [extract_description] reads:
    - [description_soup]: the parse of the markup, which may raise;
    - [description_elements]: the texts of the elements a selector finds,
      each one [Raise] when reading it raised; [Raise] when the search
      raised. *)
Record description_sources : Type := {
  description_soup : result unit;
  description_elements : pystr -> result (list (result pystr))
}.

(** The lines kept of a text: stripped, not empty, without a header word. *)
Definition description_lines (text : pystr) : list pystr :=
  filter (fun line =>
            nonempty line
            && negb (existsb (fun header => contains header (lower line)) headers))
         (map strip (split_char newline text)).

(** The loop over the elements of one selector.  [None]: the loop ended, or
    raised, and the next selector is tried. *)
Fixpoint description_among (elements : list (result pystr)) : option pystr :=
  match elements with
  | [] => None
  | Raise _ :: _ => None
  | Ok element_text :: rest =>
      let text := strip element_text in
      if (50 <? List.length text)%nat then
        match description_lines text with
        | [] => description_among rest
        | line :: lines => Some (join [newline] (line :: lines))
        end
      else description_among rest
  end.

Fixpoint first_description (find_elements : pystr -> result (list (result pystr)))
    (selectors : list pystr) : option pystr :=
  match selectors with
  | [] => None
  | selector :: rest =>
      match find_elements selector with
      | Raise _ => first_description find_elements rest
      | Ok elements =>
          match description_among elements with
          | Some description => Some description
          | None => first_description find_elements rest
          end
      end
  end.

(** [extract_description] *)
Definition extract_description (src : description_sources) : option pystr :=
  match description_soup src with
  | Raise _ => None
  | Ok _ => first_description (description_elements src) description_selectors
  end.

(* ================================================================== *)
(** * Part V (continued).  [src/app.py]: one address of the list *)
(* ================================================================== *)

(** [app.py]'s own [validate_url], the test an address passes before it is
    scraped. *)
Definition app_validate_url (url : pystr) : bool :=
  if negb (nonempty url) then false
  else contains (lit "vivareal.com.br") (lower url) && contains (lit "/imovel/") (lower url).

(** [s.split(sep)] for a separator that is not empty: the pieces between
    the occurrences of [sep], found from the left and not overlapping.
    [skip] counts the characters still to pass of an occurrence just met. *)
Fixpoint split_skipping (sep : pystr) (skip : nat) (s : pystr) : list pystr :=
  match s with
  | [] => [[]]
  | x :: t =>
      match skip with
      | S k => split_skipping sep k t
      | O =>
          if startswith sep s then [] :: split_skipping sep (List.length sep - 1) t
          else match split_skipping sep 0 t with
               | w :: ws => (x :: w) :: ws
               | [] => [[x]]
               end
      end
  end.

Definition split_str (sep s : pystr) : list pystr := split_skipping sep 0 s.






(** [v != url] is false only for the string [url] itself. *)
Definition is_str (v : pyval) (s : pystr) : bool :=
  match v with
  | VStr x => str_eqb x s
  | _ => false
  end.



(* ================================================================== *)
(** * Part V (continued).  [src/extractors.py], [src/ai_helper.py]: the four image strategies *)
(* ================================================================== *)

(** [any(word in text for word in words)] *)
Definition mentions (words : list pystr) (text : pystr) : bool :=
  existsb (fun word => contains word text) words.

Definition nothing_yet : image_state := {| images := []; seen_urls := [] |}.

(** [images.append(url); seen_urls.add(url)] *)
Definition append_image (st : image_state) (url : pystr) : image_state :=
  {| images := images st ++ [url]; seen_urls := url :: seen_urls st |}.

(** [len(images) >= max_images] *)
Definition enough (max_images : Z) (st : image_state) : bool :=
  (max_images <=? Z.of_nat (List.length (images st)))%Z.

(** ** Strategy 1, [extract_images_with_network_interception] *)

(** What reading an entry of the performance log gives:
    - [Unreadable]: a [KeyError], a [JSONDecodeError] or a [ValueError],
      after which the loop goes on;
    - [Faulty]: any other exception, which leaves the loop;
    - [Message]: the method of the message and, for a response, its address
      and its MIME type. *)
Inductive log_entry : Type :=
  | Unreadable
  | Faulty (e : exn)
  | Message (method url mime_type : pystr).

(** What the strategy reads: the scrolling with its waits (enabling the
    two domains before it cannot fail: its exceptions are dropped), and
    [driver.get_log('performance')]. *)
Record network_sources : Type := {
  scroll_page : result unit;
  performance_log : result (list log_entry)
}.

Definition image_domains : list pystr :=
  [ lit "resizedimgs.vivareal.com"; lit "vivareal.com.br/img" ].

Definition network_exclude_keywords : list pystr :=
  [ lit "logo"; lit "banner"; lit "icon"; lit "avatar"; lit "profile"; lit "corretor";
    lit "agent"; lit "mota-fonseca"; lit "thumbnail"; lit "placeholder" ].

(** The nested tests of the loop, the one on [seen_urls] apart. *)
Definition network_image (method url mime_type : pystr) : bool :=
  str_eqb method (lit "Network.responseReceived")
  && startswith (lit "image/") mime_type
  && mentions image_domains (lower url)
  && negb (mentions network_exclude_keywords (lower url))
  && (contains (lit "vr-listing") (lower url) || contains (lit "/img/vr-listing/") (lower url)).

Fixpoint network_loop (max_images : Z) (logs : list log_entry) (st : image_state)
    : image_state :=
  match logs with
  | [] => st
  | Unreadable :: rest => network_loop max_images rest st
  | Faulty _ :: _ => st
  | Message method url mime_type :: rest =>
      if network_image method url mime_type && negb (mem url (seen_urls st)) then
        let st := append_image st url in
        if enough max_images st then st else network_loop max_images rest st
      else network_loop max_images rest st
  end.

(** [all_logs[-200:] if len(all_logs) > 200 else all_logs] *)
Definition recent_logs (all_logs : list log_entry) : list log_entry :=
  if (200 <? List.length all_logs)%nat
  then skipn (List.length all_logs - 200) all_logs
  else all_logs.

Definition extract_images_with_network_interception (src : network_sources)
    (max_images : Z) : list pystr :=
  match scroll_page src with
  | Raise _ => slice_to max_images []
  | Ok _ =>
      let logs := match performance_log src with
                  | Ok all_logs => recent_logs all_logs
                  | Raise _ => []
                  end in
      slice_to max_images (images (network_loop max_images logs nothing_yet))
  end.

(** ** Strategy 2, [extract_images_with_page_interaction] *)

(** An image element, by the three attributes read; [get_attribute] may
    raise. *)
Record img_element : Type := {
  img_src : result (option pystr);
  img_data_src : result (option pystr);
  img_data_lazy_src : result (option pystr)
}.

(** What the strategy reads: the scrolling, the click on a button for more
    photos and the waits (only the last wait stands outside a [try] of its
    own), then [driver.find_elements(By.CSS_SELECTOR, selector)]. *)
Record interaction_sources : Type := {
  interact : result unit;
  find_images : pystr -> result (list img_element)
}.

Definition image_selectors : list pystr :=
  [ lit "img[src*='resizedimgs.vivareal.com']";
    lit "img[data-src*='resizedimgs.vivareal.com']";
    lit "img[src*='vivareal.com.br/img']";
    lit "[class*='gallery'] img";
    lit "[class*='photo'] img" ].

Definition interaction_exclude_keywords : list pystr :=
  [ lit "logo"; lit "banner"; lit "icon"; lit "avatar"; lit "profile" ].

(** [src or data-src or data-lazy-src] *)
Definition image_url (element : img_element) : result (option pystr) :=
  a <- img_src element ;;
  if present a then Ok a
  else
    b <- img_data_src element ;;
    if present b then Ok b else img_data_lazy_src element.

Definition interaction_image (img_url : pystr) : bool :=
  (contains (lit "vr-listing") (lower img_url)
   || contains (lit "/img/vr-listing/") (lower img_url))
  && negb (mentions interaction_exclude_keywords (lower img_url)).

(** The loop over the elements of one selector.  It ends at the first
    element met with enough images, and when reading an attribute raises:
    the [try] around it then goes on to the next selector. *)
Fixpoint interaction_loop (max_images : Z) (elements : list img_element)
    (st : image_state) : image_state :=
  match elements with
  | [] => st
  | element :: rest =>
      if enough max_images st then st
      else
        match image_url element with
        | Raise _ => st
        | Ok img_url =>
            match img_url with
            | Some url =>
                if nonempty url && negb (mem url (seen_urls st)) && interaction_image url
                then interaction_loop max_images rest (append_image st url)
                else interaction_loop max_images rest st
            | None => interaction_loop max_images rest st
            end
        end
  end.

Definition interaction_selector (src : interaction_sources) (max_images : Z)
    (st : image_state) (selector : pystr) : image_state :=
  match find_images src selector with
  | Raise _ => st
  | Ok elements => interaction_loop max_images elements st
  end.

Definition extract_images_with_page_interaction (src : interaction_sources)
    (max_images : Z) : list pystr :=
  match interact src with
  | Raise _ => slice_to max_images []
  | Ok _ =>
      slice_to max_images
        (images (fold_left (interaction_selector src max_images) image_selectors nothing_yet))
  end.

(** ** Strategy 3, [extract_images_from_scripts] *)

(** What [json.loads(script.string)] gives for a JSON-LD script:
    - [LdUnreadable]: a [JSONDecodeError] or an [AttributeError], after
      which the loop goes on;
    - [LdFaulty]: any other exception (a script without text is one: a
      [TypeError]), which leaves the function's [try];
    - [LdData]: the value read. *)
Inductive ld_script : Type :=
  | LdUnreadable
  | LdFaulty (e : exn)
  | LdData (data : pyval).

(** What the strategy reads: the parse of the markup, the JSON-LD scripts,
    and for each script that has text the matches of the image pattern
    in it, in order. *)
Record script_sources : Type := {
  script_soup : result unit;
  json_ld_scripts : list ld_script;
  script_matches : list (list pystr)
}.

Definition ld_image (value : pystr) : bool :=
  contains (lit "vivareal.com") (lower value) && contains (lit "vr-listing") (lower value).

(** [find_images_in_dict(obj, depth)], with [levels = 11 - depth]: the
    calls at depths 0 to 10 look at [obj], the one at depth 11 returns. *)
Fixpoint find_images_in_dict (levels : nat) (obj : pyval) (st : image_state)
    : image_state :=
  match levels with
  | O => st
  | S deeper =>
      match obj with
      | VDict d =>
          fold_left
            (fun st item =>
               match snd item with
               | VStr value =>
                   if contains (lit "image") (lower (fst item)) then
                     if ld_image value && negb (mem value (seen_urls st))
                     then append_image st value else st
                   else find_images_in_dict deeper (VStr value) st
               | value => find_images_in_dict deeper value st
               end)
            d st
      | VList l => fold_left (fun st item => find_images_in_dict deeper item st) l st
      | _ => st
      end
  end.

(** The loop over the JSON-LD scripts: the state, and whether the loop was
    left by an exception. *)
Fixpoint json_ld_loop (scripts : list ld_script) (st : image_state)
    : image_state * bool :=
  match scripts with
  | [] => (st, false)
  | LdUnreadable :: rest => json_ld_loop rest st
  | LdFaulty _ :: _ => (st, true)
  | LdData data :: rest => json_ld_loop rest (find_images_in_dict 11 data st)
  end.

(** [match.split('?')[0] if '?' in match else match] *)
Definition clean_query (url : pystr) : pystr :=
  if contains (lit "?") url then before "?" url else url.

(** The loop over the matches of one script; [break] leaves this loop
    only. *)
Fixpoint matches_loop (max_images : Z) (matches : list pystr) (st : image_state)
    : image_state :=
  match matches with
  | [] => st
  | found :: rest =>
      let clean_url := clean_query found in
      if negb (mem clean_url (seen_urls st)) then
        let st := append_image st clean_url in
        if enough max_images st then st else matches_loop max_images rest st
      else matches_loop max_images rest st
  end.

Definition extract_images_from_scripts (src : script_sources) (max_images : Z)
    : list pystr :=
  match script_soup src with
  | Raise _ => slice_to max_images []
  | Ok _ =>
      let (st, aborted) := json_ld_loop (json_ld_scripts src) nothing_yet in
      if aborted then slice_to max_images (images st)
      else
        slice_to max_images
          (images (fold_left (fun st matches => matches_loop max_images matches st)
                             (script_matches src) st))
  end.

(** ** Strategy 4, [extract_images_with_ai] *)

(** What the function reads:
    - [ai_ready]: [OPENAI_AVAILABLE and OPENAI_API_KEY];
    - [ai_client]: the construction of the client, which may raise;
    - [pattern_urls]: the matches of the three patterns in the markup, in
      the order they are collected;
    - [general_urls]: the matches of the general pattern;
    - [parsed_reply]: for the addresses listed in the prompt, the value
      [json.loads] reads from the answer once its code fences are removed;
      [Raise] when the request or the reading raised. *)
Record ai_image_sources : Type := {
  ai_ready : bool;
  ai_client : result unit;
  pattern_urls : list pystr;
  general_urls : list pystr;
  parsed_reply : list pystr -> result pyval
}.

(** The two loops that collect the candidates. *)
Definition collect_candidate (keep : pystr -> bool) (st : image_state) (url : pystr)
    : image_state :=
  let clean_url := clean_query url in
  if negb (mem clean_url (seen_urls st)) && keep clean_url
  then append_image st clean_url else st.

Definition listing_candidate (clean_url : pystr) : bool :=
  contains (lit "vr-listing") (lower clean_url).

Definition general_candidate (clean_url : pystr) : bool :=
  contains (lit "vr-listing") (lower clean_url) || contains (lit "/img/") (lower clean_url).

Definition vivareal_urls (src : ai_image_sources) : list pystr :=
  let st := fold_left (collect_candidate listing_candidate) (pattern_urls src) nothing_yet in
  let st := match images st with
            | [] => fold_left (collect_candidate general_candidate) (general_urls src) st
            | _ :: _ => st
            end in
  images st.

(** The filter on the answer: strings that start with ['http'], and those
    that start with ['//'] behind ['https:']. *)
Definition valid_image (img : pyval) : list pystr :=
  match img with
  | VStr s =>
      if startswith (lit "http") s then [s]
      else if startswith (lit "//") s then [lit "https:" ++ s]
      else []
  | _ => []
  end.

Definition extract_images_with_ai (src : ai_image_sources) : list pystr :=
  if negb (ai_ready src) then []
  else
    match ai_client src with
    | Raise _ => []
    | Ok _ =>
        match vivareal_urls src with
        | [] => []
        | _ :: _ =>
            let listed := firstn 25 (firstn 30 (vivareal_urls src)) in
            match parsed_reply src listed with
            | Ok (VList replied) => firstn 15 (flat_map valid_image replied)
            | Ok _ => []
            | Raise _ => []
            end
        end
    end.

(** ** [extract_location_with_ai] *)

(** [needle in v] for a string [needle]: a part of a string, an item of a
    list, a key of a dictionary; a [TypeError] on the other values. *)
Definition str_in (needle : pystr) (v : pyval) : result bool :=
  match v with
  | VStr s => Ok (contains needle s)
  | VList l => Ok (existsb (fun item => is_str item needle) l)
  | VDict d => Ok (existsb (fun entry => str_eqb (fst entry) needle) d)
  | VNone | VBool _ | VInt _ | VFloat _ => Raise TypeError
  end.

(** [if location.get(key): address_parts.append(location[key])] *)
Definition append_value (location : pydict) (key : pystr) (address_parts : list pyval)
    : list pyval :=
  if truthy (get location key) then address_parts ++ [get location key] else address_parts.

(** The items [', '.join] is given: a [TypeError] unless all are strings. *)
Fixpoint joinable (parts : list pyval) : result (list pystr) :=
  match parts with
  | [] => Ok []
  | VStr s :: rest => strings <- joinable rest ;; Ok (s :: strings)
  | _ :: _ => Raise TypeError
  end.

(** The statements after [isinstance(location, dict)]: a link that is there
    and does not hold ['google.com/maps'] is written anew from the address,
    when street and city are there. *)
Definition repair_map_link (location : pydict) : result pydict :=
  if truthy (get location (lit "map_link")) then
    found <- str_in (lit "google.com/maps")
                    (get_default location (lit "map_link") (VStr [])) ;;
    if negb found then
      if truthy (get location (lit "street")) && truthy (get location (lit "city")) then
        let address_parts := append_value location (lit "street") [] in
        let address_parts := append_value location (lit "number") address_parts in
        let address_parts := append_value location (lit "neighborhood") address_parts in
        let address_parts := append_value location (lit "city") address_parts in
        if (2 <=? List.length address_parts)%nat then
          parts <- joinable (filter truthy address_parts) ;;
          Ok (dict_set location (lit "map_link") (VStr (google_maps_url parts)))
        else Ok location
      else Ok location
    else Ok location
  else Ok location.

(** What the function reads: whether the adapter is ready, the construction
    of the client, and the value [json.loads] reads from the answer once
    its code fences are removed; [Raise] when the request or the reading
    raised. *)
Record ai_location_sources : Type := {
  ai_location_ready : bool;
  ai_location_client : result unit;
  parsed_location : result pyval
}.

(** [extract_location_with_ai]; every exception gives [{}]. *)
Definition extract_location_with_ai (src : ai_location_sources) : pydict :=
  if negb (ai_location_ready src) then []
  else
    match ai_location_client src with
    | Raise _ => []
    | Ok _ =>
        match parsed_location src with
        | Ok (VDict location) =>
            match repair_map_link location with
            | Ok location => location
            | Raise _ => []
            end
        | Ok _ => []
        | Raise _ => []
        end
    end.

(** ** Further example inputs *)

(** A page whose markup is one character short of the 1000 [scrape] asks for. *)
Definition short_page : page_view :=
  {| markup := repeat "x"%char 999;
     found_property_type := None;
     found_modality := None;
     found_price := None;
     location_of_page := location_from no_title no_answer;
     found_description := None;
     images_of_page := no_images;
     found_characteristics := no_characteristics;
     found_advertiser_code := None;
     found_vivareal_code := None |}.

Definition short_session : session := session_showing listing_url short_page.

(** A function that raises at its first call and returns 7 afterwards, and
    one that always raises. *)
Definition fails_once : retried Z :=
  {| call := fun attempt => match attempt with O => Raise ValueError | S _ => Ok 7%Z end;
     sleep := fun _ => Ok tt |}.

Definition always_fails : retried Z :=
  {| call := fun _ => Raise WebDriverException;
     sleep := fun _ => Ok tt |}.

(** A page whose [body] does not appear in time. *)
Definition slow_load : page_load :=
  {| body_wait := TimedOut;
     ready_wait := TimedOut;
     enable_performance := Ok tt;
     enable_network := Ok tt;
     key_wait := fun _ => TimedOut |}.

(** A title that gives the whole address, and a page with a link to the map. *)
Definition full_title : title_parts :=
  {| title_city := Some Sao_Luis; title_neighborhood := Some (lit "Centro");
     title_street := Some (lit "Rua Grande"); title_number := Some (lit "120") |}.

Definition centro_map : pystr := lit "https://www.google.com/maps/place/Centro".

Definition mapped_location : location_sources :=
  {| title_fields := Ok full_title;
     find_css := fun _ => Ok [ {| href := Ok (Some centro_map);
                                  data_href := Ok None; data_url := Ok None |} ];
     map_text_links := Ok [];
     ai_answer := Ok full_city_answer |}.

(** The title of a rental that gives its price, on a page of 100 characters. *)
Definition rental_heading : heading_sources :=
  {| page_source := repeat "x"%char 100;
     title_text := Ok (Some (lit "Apartamento para alugar no Centro por R$ 2.000"));
     breadcrumb := Ok [];
     current_url := Ok (lit "https://www.vivareal.com.br/imovel/aluguel/apartamento-id-1/") |}.

(** An element whose text has a header line and an empty line. *)
Definition described : description_sources :=
  {| description_soup := Ok tt;
     description_elements := fun _ =>
       Ok [ Ok (lit "Caracter" ++ [ascii_of_nat 205] ++ lit "STICAS do im" ++ [ascii_of_nat 243]
                ++ lit "vel" ++ [newline]
                ++ lit "  Apartamento amplo com varanda.  " ++ [newline; newline]
                ++ lit "Perto do centro, com duas vagas.") ] |}.

Definition described_lines : list pystr :=
  [ lit "Apartamento amplo com varanda."; lit "Perto do centro, com duas vagas." ].


(* ================================================================== *)
(** * Part VI.  The vocabulary of the statements *)
(* ================================================================== *)

(** [s] does not start with a character of [p]. *)
Definition clean_head (p : ascii -> bool) (s : pystr) : bool :=
  match s with
  | [] => true
  | c :: _ => negb (p c)
  end.

(** A string with nothing to strip at either end. *)
Definition trimmed (p : ascii -> bool) (s : pystr) : Prop :=
  clean_head p s = true /\ clean_head p (rev s) = true.

Definition spaceless (w : pystr) : bool := forallb (fun c => negb (is_space c)) w.

(** A word of [str.split()]: not empty, no whitespace. *)
Definition is_word (w : pystr) : Prop := nonempty w = true /\ spaceless w = true.

(** The texts [normalize_text] returns: words joined by single spaces. *)
Definition normal_text (t : pystr) : Prop :=
  exists ws, ws <> [] /\ Forall is_word ws /\ t = join (lit " ") ws.

(** The sign a rounding is given is the sign of its result. *)
Definition has_sign (sx : bool) (x : spec_float) : Prop :=
  match x with
  | S754_zero s | S754_infinity s | S754_finite s _ _ => s = sx
  | S754_nan => False
  end.

Definition all_digits (s : pystr) : bool := forallb is_digit s.

(** The pattern [DDDDD-DDD]: five digits, a hyphen, three digits. *)
Definition zip_pattern (z : pystr) : bool :=
  match z with
  | [a; b; c; d; e; h; f; g; i] =>
      all_digits [a; b; c; d; e] && Ascii.eqb h "-" && all_digits [f; g; i]
  | _ => false
  end.

(** A value that is no URL, or a URL that matches [url_pattern]. *)
Definition url_ok (v : pyval) : Prop :=
  match v with
  | VStr u => url_pattern_match u = true
  | _ => True
  end.

(** Every URL of a cleaned record matches [url_pattern]: its [url], the
    [map_link] of its location and each of its [images]. *)
Definition urls_match (r : pydict) : Prop :=
  url_ok (get r (lit "url"))
  /\ match get r (lit "location") with
     | VDict l => url_ok (get l (lit "map_link"))
     | _ => True
     end
  /\ match get r (lit "images") with
     | VList l => Forall url_ok l
     | _ => True
     end.

(** A value that is no integer; a value that is no float. *)
Definition no_int (v : pyval) : Prop :=
  match v with VInt _ => False | _ => True end.

Definition no_float (v : pyval) : Prop :=
  match v with VFloat _ => False | _ => True end.

(** [l] without the occurrences of [x]. *)
Definition without (x : pystr) (l : list pystr) : list pystr :=
  filter (fun y => negb (str_eqb x y)) l.

(** [l] with the first occurrence of each string only, in the order of [l]. *)
Fixpoint dedup (l : list pystr) : list pystr :=
  match l with
  | [] => []
  | x :: t => x :: without x (dedup t)
  end.

(** The strings of [l] that are not in [a]. *)
Definition outside (a l : list pystr) : list pystr :=
  filter (fun y => negb (mem y a)) l.

(** The list holds no string twice and the set holds the strings of the list. *)
Definition consistent (st : image_state) : Prop :=
  NoDup (images st) /\ seen_urls st = rev (images st).

(** What a strategy contributes when it is called, and nothing otherwise. *)
Definition when (ran : bool) (found : list pystr) : list pystr :=
  if ran then found else [].

Definition logged_when (ran : bool) (s : strategy) : list strategy :=
  if ran then [s] else [].

(** The answer of the oracle, empty when its call raised. *)
Definition ai_found (src : image_sources) : list pystr :=
  match ai_images src with
  | Ok found => found
  | Raise _ => []
  end.

(** The example of the specification: [a.jpg, b.jpg] then [b.jpg, c.jpg]. *)
Definition two_strategies : image_sources :=
  {| network_images := [lit "a.jpg"; lit "b.jpg"];
     interaction_images := [lit "b.jpg"; lit "c.jpg"];
     script_images := [];
     ai_images := Ok [] |}.

(** The merge, field by field, when no statement raises. *)
Definition merged (ai : ai_location) (l : location) : location :=
  {| city :=
       match ai_city ai, city l with
       | Some a, Some c =>
           if nonempty a && (List.length c <? List.length a)%nat then Some a else Some c
       | _, c => c
       end;
     neighborhood :=
       if present (ai_neighborhood ai) && negb (present (neighborhood l))
       then ai_neighborhood ai else neighborhood l;
     street :=
       if present (ai_street ai) && negb (present (street l))
       then ai_street ai else street l;
     number :=
       if present (ai_number ai) && negb (present (number l))
       then ai_number ai else number l;
     zipcode :=
       if present (ai_zipcode ai) && negb (present (zipcode l))
       then ai_zipcode ai else zipcode l;
     complement := complement l;
     map_link :=
       match ai_map_link ai with
       | Some m => if nonempty m && contains (lit "google.com/maps") m
                   then Some m else map_link l
       | None => map_link l
       end |}.

(** A text with no whitespace at either end, and not empty. *)
Definition solid (n : pystr) : Prop :=
  n <> [] /\ clean_head is_space n = true /\ clean_head is_space (rev n) = true.

(** A Google-Maps or coordinates link that holds no sitemap marker. *)
Definition page_link_ok (m : pystr) : Prop :=
  is_valid_map (lower m) = true /\ sitemap_marked (lower m) = false.

(** The four origins of the link [extract_location] returns: none; found on
    the page; written from address parts; given by the oracle, which then
    contains [google.com/maps]. *)
Inductive link_origin (src : location_sources) : option pystr -> Prop :=
  | NoLink : link_origin src None
  | PageLink (m : pystr) :
      page_map_link src = Some m -> link_origin src (Some m)
  | BuiltLink (parts : list pystr) :
      link_origin src (Some (google_maps_url parts))
  | OracleLink (ai : ai_location) (m : pystr) :
      ai_answer src = Ok ai -> ai_map_link ai = Some m ->
      contains (lit "google.com/maps") m = true ->
      link_origin src (Some m).

(** The results of the extractors are well typed: the price is no integer
    and the size and counts are no floats. *)
Definition numbers_typed (data : pydict) : Prop :=
  no_int (get data (lit "price"))
  /\ no_float (get data (lit "size_m2"))
  /\ no_float (get data (lit "bedrooms"))
  /\ no_float (get data (lit "suites"))
  /\ no_float (get data (lit "bathrooms"))
  /\ no_float (get data (lit "garage")).

(** The record after the pass, given what the second reading finds. *)
Definition reextracted (data : pydict) (page : page_view) (missing : bool) : pydict :=
  let data1 :=
    if negb (truthy (get data (lit "property_type")))
    then dict_set data (lit "property_type") (of_opt_str (found_property_type page))
    else data in
  let data2 :=
    if negb (truthy (get data1 (lit "price")))
    then dict_set data1 (lit "price") (of_opt_float (found_price page))
    else data1 in
  if missing
  then dict_set data2 (lit "location")
         (VDict (dict_of_location (extract_location (location_of_page page) true)))
  else data2.

(** The events of the pass, after the wait and the reading of the markup. *)
Definition reextraction_calls (data : pydict) (missing : bool) : list event :=
  (if negb (truthy (get data (lit "property_type"))) then [EvExtract XPropertyType] else [])
  ++ (if negb (truthy (get data (lit "price"))) then [EvExtract XPrice] else [])
  ++ (if missing then [EvExtract XLocation] else []).

(** The completeness check finds none of the essential fields. *)
Definition essentials_absent (data : pydict) : bool :=
  forallb (fun field => negb (essential_found data field)) essential_fields.

(** The events of a navigation: no wait of five seconds, no cleaning. *)
Definition navigation_event (ev : event) : Prop :=
  ev = EvCleanDriverState \/ ev = EvGet \/ ev = EvSleep 1 \/ ev = EvCurrentUrl.

(** The entries of [l] that [validate_url] keeps. *)
Definition kept (l : list pystr) : list pystr :=
  filter (fun x => match validate_url (VStr x) with Some _ => true | None => false end) l.

(** The three essential fields of a raw record are absent. *)
Definition all_essentials_none (data : pydict) : Prop :=
  get data (lit "property_type") = VNone
  /\ get data (lit "price") = VNone
  /\ exists location, get data (lit "location") = VDict location
                      /\ get location (lit "city") = VNone.












(** Every request the call makes to the driver is answered. *)
Definition responsive (s : session) : Prop :=
  driver_initialised s = true
  /\ get_first s = Ok tt
  /\ (exists current_url, current_url_first s = Ok current_url)
  /\ get_second s = Ok tt
  /\ (exists current_url, current_url_second s = Ok current_url)
  /\ wait_for_page_load s = Ok tt
  /\ (exists page, first_page s = Ok page)
  /\ (exists page, second_page s = Ok page).

(** How many events of a trace are of a kind. *)
Definition times (kind : event -> bool) (tr : list event) : nat :=
  List.length (filter kind tr).

Definition is_get (ev : event) : bool :=
  match ev with EvGet => true | _ => false end.

Definition is_page_source (ev : event) : bool :=
  match ev with EvPageSource => true | _ => false end.

Definition is_clean_data (ev : event) : bool :=
  match ev with EvCleanData => true | _ => false end.

Definition extractor_eqb (x y : extractor) : bool :=
  match x, y with
  | XPropertyType, XPropertyType | XModality, XModality | XPrice, XPrice
  | XLocation, XLocation | XDescription, XDescription | XImages, XImages
  | XCharacteristics, XCharacteristics | XCodes, XCodes => true
  | _, _ => false
  end.

Definition is_extract (x : extractor) (ev : event) : bool :=
  match ev with EvExtract y => extractor_eqb x y | _ => false end.

(** The extractors of the three essential fields. *)
Definition essential (x : extractor) : bool :=
  match x with XPropertyType | XPrice | XLocation => true | _ => false end.

(** [k] failed calls, each followed by a sleep: the first of [delay]
    seconds, each of the next 1.5 times longer. *)
Fixpoint failed_attempts (k : nat) (delay : pyfloat) : list retry_event :=
  match k with
  | O => []
  | S k' => RCall :: RSleep delay :: failed_attempts k' (next_delay delay)
  end.

Definition is_call (ev : retry_event) : bool :=
  match ev with RCall => true | RSleep _ => false end.

Definition is_sleep (ev : retry_event) : bool :=
  match ev with RSleep _ => true | RCall => false end.

(** No wait of the run ends with an exception other than a timeout. *)
Definition unbroken (p : page_load) : Prop :=
  (forall e, body_wait p <> Broke e)
  /\ (forall e, ready_wait p <> Broke e)
  /\ (forall selector e, key_wait p selector <> Broke e).




(** A line of a description: not empty, nothing to strip, on one line, and
    without a header word. *)
Definition description_line (line : pystr) : Prop :=
  nonempty line = true
  /\ strip line = line
  /\ ~ In newline line
  /\ Forall (fun header => contains header (lower line) = false) headers.

(** The state of a strategy's loop: no string twice, the set holds the
    strings of the list, and every string gathered has the property [P]. *)
Definition gathered (P : pystr -> Prop) (st : image_state) : Prop :=
  consistent st /\ Forall P (images st).

(** None of the words occurs in the text. *)
Definition without_words (words : list pystr) (text : pystr) : Prop :=
  Forall (fun word => contains word text = false) words.

(** An address the network strategy keeps: it names a listing, on one of
    the two image hosts, and none of the ten excluded words. *)
Definition network_photo (url : pystr) : Prop :=
  contains (lit "vr-listing") (lower url) = true
  /\ mentions image_domains (lower url) = true
  /\ without_words network_exclude_keywords (lower url).

(** An address the interaction strategy keeps. *)
Definition interaction_photo (url : pystr) : Prop :=
  nonempty url = true
  /\ contains (lit "vr-listing") (lower url) = true
  /\ without_words interaction_exclude_keywords (lower url).

(** Where an address the script strategy returns comes from: a string of a
    JSON-LD script that names the site and a listing, kept as it is; or a
    match of the pattern, cut at its first question mark. *)
Definition script_photo (src : script_sources) (url : pystr) : Prop :=
  ld_image url = true
  \/ (~ In "?"%char url
      /\ exists matches found,
           In matches (script_matches src) /\ In found matches /\ url = clean_query found).

(** Where an address the fourth strategy returns comes from: a string of
    the answer, or one that began with two slashes behind ['https:']. *)
Definition replied_photo (replied : list pyval) (url : pystr) : Prop :=
  exists s, In (VStr s) replied /\ (url = s \/ url = lit "https:" ++ s).

(* ================================================================== *)
(** * Part VII.  Facts about strings *)
(* ================================================================== *)

Lemma Ok_inj (A : Type) (a b : A) : Ok a = Ok b -> a = b.
Proof. intro H. now injection H. Qed.

Lemma Some_inj (A : Type) (a b : A) : Some a = Some b -> a = b.
Proof. intro H. now injection H. Qed.

Lemma str_eqb_eq (a b : pystr) : str_eqb a b = true <-> a = b.
Proof.
  revert b; induction a as [|x a IH]; intros [|y b]; simpl; split; intro H;
    try reflexivity; try discriminate.
  - apply andb_true_iff in H as [Hx Hab].
    apply Ascii.eqb_eq in Hx. apply IH in Hab. now subst.
  - injection H as -> ->. rewrite Ascii.eqb_refl. simpl. now apply IH.
Qed.

Lemma str_eqb_refl (a : pystr) : str_eqb a a = true.
Proof. now apply str_eqb_eq. Qed.

Lemma str_eqb_neq (a b : pystr) : str_eqb a b = false <-> a <> b.
Proof.
  split.
  - intros H E. apply str_eqb_eq in E. congruence.
  - intro H. destruct (str_eqb a b) eqn:E; [|reflexivity].
    apply str_eqb_eq in E. contradiction.
Qed.

Lemma mem_In (x : pystr) (l : list pystr) : mem x l = true <-> In x l.
Proof.
  induction l as [|y l IH]; simpl.
  - split; [discriminate | tauto].
  - rewrite orb_true_iff, IH, str_eqb_eq. split; intros [H|H]; auto.
Qed.

Lemma mem_not_In (x : pystr) (l : list pystr) : mem x l = false <-> ~ In x l.
Proof.
  rewrite <- mem_In. destruct (mem x l); split; intro H; congruence.
Qed.

(** ** Stripping *)

Lemma lstrip_by_clean p s : clean_head p (lstrip_by p s) = true.
Proof.
  induction s as [|c s IH]; simpl; [reflexivity|].
  destruct (p c) eqn:E; [exact IH|]. simpl. now rewrite E.
Qed.

Lemma lstrip_by_fixed p s : clean_head p s = true -> lstrip_by p s = s.
Proof.
  destruct s as [|c s]; simpl; [reflexivity|].
  intro H. apply negb_true_iff in H. now rewrite H.
Qed.

Lemma lstrip_by_snoc p s c :
  p c = false -> lstrip_by p (s ++ [c]) = lstrip_by p s ++ [c].
Proof.
  intro Hc. induction s as [|x s IH]; simpl.
  - now rewrite Hc.
  - destruct (p x); [exact IH | reflexivity].
Qed.

Lemma rstrip_by_clean p s : clean_head p (rev (rstrip_by p s)) = true.
Proof.
  unfold rstrip_by. rewrite rev_involutive. apply lstrip_by_clean.
Qed.

Lemma rstrip_by_fixed p s : clean_head p (rev s) = true -> rstrip_by p s = s.
Proof.
  intro H. unfold rstrip_by. rewrite lstrip_by_fixed by exact H. apply rev_involutive.
Qed.

Lemma rstrip_by_head p s :
  clean_head p s = true -> clean_head p (rstrip_by p s) = true.
Proof.
  destruct s as [|c s]; [reflexivity|]. simpl. intro H.
  apply negb_true_iff in H. unfold rstrip_by. simpl.
  rewrite lstrip_by_snoc by exact H. rewrite rev_app_distr. simpl. now rewrite H.
Qed.

Lemma strip_by_trimmed p s : trimmed p (strip_by p s).
Proof.
  split; unfold strip_by.
  - apply rstrip_by_head, lstrip_by_clean.
  - apply rstrip_by_clean.
Qed.

Lemma strip_by_fixed p s : trimmed p s -> strip_by p s = s.
Proof.
  intros [H1 H2]. unfold strip_by.
  rewrite lstrip_by_fixed by exact H1. now apply rstrip_by_fixed.
Qed.

Lemma strip_idempotent s : strip (strip s) = strip s.
Proof. apply strip_by_fixed, strip_by_trimmed. Qed.

(** ** Words *)

Lemma pieces_not_nil s : pieces s <> [].
Proof.
  destruct s as [|c s]; simpl; [discriminate|].
  destruct (is_space c); [discriminate|]. destruct (pieces s); discriminate.
Qed.

Lemma pieces_spaceless s : Forall (fun w => spaceless w = true) (pieces s).
Proof.
  induction s as [|c s IH]; simpl.
  - repeat constructor.
  - destruct (is_space c) eqn:E.
    + constructor; [reflexivity | exact IH].
    + destruct (pieces s) as [|w ws].
      * repeat constructor. simpl. now rewrite E.
      * inversion IH as [|? ? Hw Hws]; subst. constructor; [|exact Hws].
        simpl. now rewrite E, Hw.
Qed.

Lemma split_ws_words s : Forall is_word (split_ws s).
Proof.
  unfold split_ws. pose proof (pieces_spaceless s) as H.
  induction H as [|w ws Hw Hws IH]; simpl; [constructor|].
  destruct (nonempty w) eqn:E; [|exact IH].
  constructor; [split; assumption | exact IH].
Qed.

Lemma pieces_word_app w s :
  spaceless w = true ->
  pieces (w ++ s) = match pieces s with
                    | p :: ps => (w ++ p) :: ps
                    | [] => [w]
                    end.
Proof.
  intro Hw. induction w as [|c w IH]; simpl.
  - destruct (pieces s) eqn:E; [now apply pieces_not_nil in E | reflexivity].
  - simpl in Hw. apply andb_true_iff in Hw as [Hc Hw].
    apply negb_true_iff in Hc. rewrite Hc, (IH Hw).
    destruct (pieces s); reflexivity.
Qed.

Lemma pieces_word w : spaceless w = true -> pieces w = [w].
Proof.
  intro Hw. rewrite <- (app_nil_r w) at 1. rewrite pieces_word_app by exact Hw.
  simpl. now rewrite app_nil_r.
Qed.

Lemma pieces_join ws :
  ws <> [] -> Forall is_word ws -> pieces (join (lit " ") ws) = ws.
Proof.
  induction ws as [|w ws IH]; [congruence|]. intros _ H.
  inversion H as [|? ? [_ Hw] Hws]; subst.
  destruct ws as [|w2 ws].
  - now apply pieces_word.
  - change (join (lit " ") (w :: w2 :: ws))
      with (w ++ lit " " ++ join (lit " ") (w2 :: ws)).
    rewrite pieces_word_app by exact Hw.
    change (pieces (lit " " ++ join (lit " ") (w2 :: ws)))
      with ([] :: pieces (join (lit " ") (w2 :: ws))).
    rewrite (IH ltac:(discriminate) Hws). now rewrite app_nil_r.
Qed.

Lemma filter_nonempty_words ws : Forall is_word ws -> filter nonempty ws = ws.
Proof.
  induction 1 as [|w ws [Hn _] _ IH]; simpl; [reflexivity|]. now rewrite Hn, IH.
Qed.

Lemma split_ws_join ws : Forall is_word ws -> split_ws (join (lit " ") ws) = ws.
Proof.
  intro H. destruct ws as [|w ws]; [reflexivity|].
  unfold split_ws. rewrite pieces_join by (congruence || exact H).
  now apply filter_nonempty_words.
Qed.

Lemma word_clean_head w : is_word w -> clean_head is_space w = true.
Proof.
  intros [_ H]. destruct w as [|c w]; [reflexivity|]. simpl in *.
  now apply andb_true_iff in H as [H _].
Qed.

Lemma spaceless_rev w : spaceless (rev w) = spaceless w.
Proof.
  unfold spaceless. induction w as [|c w IH]; [reflexivity|]. simpl.
  rewrite forallb_app, IH. simpl. rewrite andb_true_r. apply andb_comm.
Qed.

Lemma word_clean_last w : is_word w -> clean_head is_space (rev w) = true.
Proof.
  intros [_ H]. rewrite <- spaceless_rev in H.
  destruct (rev w) as [|c r]; [reflexivity|]. simpl in *.
  now apply andb_true_iff in H as [H _].
Qed.

Lemma clean_head_app p a b :
  a <> [] -> clean_head p (a ++ b) = clean_head p a.
Proof. destruct a; [congruence | reflexivity]. Qed.

Lemma join_words_nonempty ws :
  ws <> [] -> Forall is_word ws -> nonempty (join (lit " ") ws) = true.
Proof.
  intros Hne H. destruct H as [|w ws [Hn _] _]; [congruence|].
  destruct w; [discriminate|]. destruct ws; reflexivity.
Qed.

Lemma join_words_trimmed ws : Forall is_word ws -> trimmed is_space (join (lit " ") ws).
Proof.
  intro H. split.
  - destruct H as [|w ws Hw Hws]; [reflexivity|].
    destruct ws as [|w2 ws]; simpl; [now apply word_clean_head|].
    rewrite clean_head_app; [now apply word_clean_head|].
    destruct Hw as [Hn _]. destruct w; discriminate.
  - induction H as [|w ws Hw Hws IH]; [reflexivity|].
    destruct ws as [|w2 ws]; [now apply word_clean_last|].
    change (join (lit " ") (w :: w2 :: ws)) with (w ++ lit " " ++ join (lit " ") (w2 :: ws)).
    rewrite !rev_app_distr, <- app_assoc. rewrite clean_head_app; [exact IH|].
    intro E. apply (f_equal (@rev ascii)) in E. rewrite rev_involutive in E.
    pose proof (@join_words_nonempty (w2 :: ws) ltac:(discriminate) Hws) as N.
    rewrite E in N. discriminate.
Qed.

Lemma normalize_text_normal v t :
  normalize_text v = Some t -> normal_text t.
Proof.
  unfold normalize_text. destruct (truthy v); cbn [negb]; [|discriminate].
  cbv zeta. set (ws := split_ws (py_str v)).
  assert (Hws : Forall is_word ws) by apply split_ws_words.
  rewrite (strip_by_fixed (join_words_trimmed Hws) : strip _ = _).
  destruct (nonempty (join (lit " ") ws)) eqn:E; cbn [negb]; [|discriminate].
  intro H. injection H as <-. exists ws. repeat split; [|exact Hws].
  intro E'. now rewrite E' in E.
Qed.

Lemma normalize_text_of_normal t :
  normal_text t -> normalize_text (VStr t) = Some t.
Proof.
  intros (ws & Hne & Hws & ->). unfold normalize_text.
  cbn [truthy py_str]. rewrite (join_words_nonempty Hne Hws). cbn [negb]. cbv zeta.
  rewrite split_ws_join by exact Hws.
  rewrite (strip_by_fixed (join_words_trimmed Hws) : strip _ = _).
  now rewrite (join_words_nonempty Hne Hws).
Qed.

(** [normalize_text] leaves its own results unchanged. *)
Lemma normalize_text_fixed v :
  normalize_text (of_opt_str (normalize_text v))
  = normalize_text v.
Proof.
  destruct (normalize_text v) as [t|] eqn:E; [|reflexivity].
  simpl. now apply normalize_text_of_normal, (normalize_text_normal v).
Qed.

(** ** Floats *)

Lemma iter_pos_invariant (A : Type) (P : A -> Prop) (f : A -> A) :
  (forall x, P x -> P (f x)) -> forall n x, P x -> P (iter_pos f n x).
Proof.
  intros Hf. induction n as [n IH|n IH|]; intros x Hx; simpl; auto.
Qed.

Lemma shr_1_nonneg mrs : (0 <= shr_m mrs)%Z -> (0 <= shr_m (shr_1 mrs))%Z.
Proof.
  destruct mrs as [m r s]. simpl. destruct m as [|[p|p|]|p]; simpl; lia.
Qed.

Lemma shr_nonneg mrs e n : (0 <= shr_m mrs)%Z -> (0 <= shr_m (fst (shr mrs e n)))%Z.
Proof.
  intro H. unfold shr. destruct n; simpl; try exact H.
  apply iter_pos_invariant with (P := fun x => (0 <= shr_m x)%Z); [apply shr_1_nonneg | exact H].
Qed.

Lemma shr_fexp_nonneg prec emax m e l :
  (0 <= m)%Z -> (0 <= shr_m (fst (shr_fexp prec emax m e l)))%Z.
Proof.
  intro H. unfold shr_fexp. apply shr_nonneg.
  destruct l as [|[]]; exact H.
Qed.

Lemma round_nearest_even_nonneg m l : (0 <= m)%Z -> (0 <= round_nearest_even m l)%Z.
Proof.
  intro H. unfold round_nearest_even. destruct l as [|[]]; try lia.
  destruct (Z.even m); lia.
Qed.

Lemma binary_round_aux_sign prec emax sx mx ex lx :
  (0 <= mx)%Z -> has_sign sx (binary_round_aux prec emax sx mx ex lx).
Proof.
  intro H. unfold binary_round_aux.
  pose proof (shr_fexp_nonneg prec emax ex lx H) as H1.
  destruct (shr_fexp prec emax mx ex lx) as [mrs' e']. simpl in H1.
  pose proof (@shr_fexp_nonneg prec emax
                (round_nearest_even (shr_m mrs') (loc_of_shr_record mrs')) e' loc_Exact
                (round_nearest_even_nonneg _ H1)) as H2.
  destruct (shr_fexp prec emax _ e' loc_Exact) as [mrs'' e'']. simpl in H2.
  destruct (shr_m mrs'') as [|p|p]; simpl; [reflexivity| |lia].
  destruct (e'' <=? emax - prec)%Z; reflexivity.
Qed.

Lemma float_of_int_ge0 z x :
  (0 <= z)%Z -> float_of_int z = Ok x -> float_ge0 x = true.
Proof.
  intros Hz. unfold float_of_int, binary_normalize.
  destruct z as [|m|m]; [| |lia].
  - intro H. injection H as <-. reflexivity.
  - unfold binary_round.
    destruct (shl_align m 0 _) as [mz ez].
    pose proof (@binary_round_aux_sign dbl_prec dbl_emax false (Zpos mz) ez loc_Exact
                  ltac:(lia)) as Hs.
    destruct (binary_round_aux dbl_prec dbl_emax false (Z.pos mz) ez loc_Exact)
      as [s|s| |s mm ee]; simpl in Hs; try contradiction; subst; intro H;
      try discriminate; injection H as <-; reflexivity.
Qed.

(** ** [validate_price] and [validate_int_value] on their own results *)

Lemma validate_price_ge0 v x :
  validate_price v = Ok (Some x) -> float_ge0 x = true.
Proof.
  destruct v as [|b|z|y|s|l|d]; simpl; try discriminate.
  - destruct (float_of_int (if b then 1 else 0)%Z) as [y|e] eqn:E; simpl; [|discriminate].
    intro H. injection H as <-. apply (@float_of_int_ge0 (if b then 1 else 0)%Z); [|exact E].
    destruct b; lia.
  - destruct (0 <=? z)%Z eqn:Ez; [|discriminate].
    destruct (float_of_int z) as [y|e] eqn:E; simpl; [|discriminate].
    intro H. injection H as <-. apply (@float_of_int_ge0 z); [lia | exact E].
  - destruct (float_ge0 y) eqn:E; [|discriminate]. intro H. now injection H as <-.
  - destruct (float_of_decimal (price_clean s)) as [y|]; [|discriminate].
    destruct (float_ge0 y) eqn:E; [|discriminate]. intro H. now injection H as <-.
Qed.

Lemma validate_price_fixed v o :
  validate_price v = Ok o -> validate_price (of_opt_float o) = Ok o.
Proof.
  destruct o as [x|]; [|reflexivity]. intro H. simpl.
  now rewrite (validate_price_ge0 _ H).
Qed.

Lemma in_bounds_fixed z lo hi r :
  in_bounds z lo hi = Some r -> in_bounds r lo hi = Some r.
Proof.
  unfold in_bounds. destruct (lo <=? z)%Z eqn:E1; [|discriminate].
  destruct hi as [m|].
  - destruct (z <=? m)%Z eqn:E2; [|discriminate]. intro H. injection H as <-.
    now rewrite E1, E2.
  - intro H. injection H as <-. now rewrite E1.
Qed.

Lemma validate_int_value_fixed v lo hi o :
  validate_int_value v lo hi = Ok o -> validate_int_value (of_opt_int o) lo hi = Ok o.
Proof.
  destruct o as [r|]; [|reflexivity]. simpl.
  assert (K : forall z, Ok (in_bounds z lo hi) = Ok (Some r) ->
                        Ok (in_bounds r lo hi) = Ok (Some r)).
  { intros z H. injection H as H. now rewrite (in_bounds_fixed _ _ _ H). }
  destruct v as [|b|z|y|s|l|d]; simpl; try discriminate; try apply K.
  - destruct (int_of_float y) as [z|e]; simpl; [apply K | discriminate].
  - destruct (nonempty (filter is_digit s)); [apply K | discriminate].
Qed.

(** ** Zip codes *)

Lemma filter_all (A : Type) (f : A -> bool) (l : list A) :
  forallb f l = true -> filter f l = l.
Proof.
  induction l as [|x l IH]; simpl; [reflexivity|].
  intro H. apply andb_true_iff in H as [Hx Hl]. now rewrite Hx, IH.
Qed.

Lemma filter_forallb (A : Type) (f : A -> bool) (l : list A) :
  forallb f (filter f l) = true.
Proof.
  induction l as [|x l IH]; simpl; [reflexivity|].
  destruct (f x) eqn:E; simpl; [now rewrite E|exact IH].
Qed.

Lemma filter_idem (A : Type) (f : A -> bool) (l : list A) :
  filter f (filter f l) = filter f l.
Proof. apply filter_all, filter_forallb. Qed.

(** Putting a hyphen inside a run of digits does not change its digits. *)
Lemma digits_of_hyphenated k ds :
  all_digits ds = true ->
  filter is_digit (firstn k ds ++ lit "-" ++ skipn k ds) = ds.
Proof.
  intro H. rewrite !filter_app. simpl.
  rewrite <- filter_app, firstn_skipn. now apply filter_all.
Qed.

(** What [normalize_zipcode] returns, by the number of digits of the text. *)
Lemma normalize_zipcode_cases v z :
  normalize_zipcode v = Some z ->
  let ds := filter is_digit (py_str v) in
  (List.length ds = 8 /\ z = firstn 5 ds ++ lit "-" ++ skipn 5 ds /\ zip_pattern z = true)
  \/ (List.length ds = 7 /\ z = firstn 4 ds ++ lit "-" ++ skipn 4 ds /\ zip_pattern z = false).
Proof.
  unfold normalize_zipcode. destruct (truthy v); cbn [negb]; [|discriminate].
  cbv zeta. set (ds := filter is_digit (py_str v)).
  assert (Hd : all_digits ds = true) by apply filter_forallb.
  destruct (List.length ds =? 8) eqn:E8.
  - intro H. injection H as <-. left. apply Nat.eqb_eq in E8.
    split; [exact E8 | split; [reflexivity|]].
    destruct ds as [|a [|b [|c [|d [|e [|f [|g [|h [|i ds]]]]]]]]]; try discriminate.
    cbn [all_digits forallb] in Hd. repeat (apply andb_true_iff in Hd as [? Hd]).
    cbn -[is_digit].
    repeat match goal with K : is_digit _ = true |- _ => rewrite K; clear K end.
    reflexivity.
  - destruct (List.length ds =? 7) eqn:E7; [|discriminate].
    intro H. injection H as <-. right. apply Nat.eqb_eq in E7.
    split; [exact E7 | split; [reflexivity|]].
    destruct ds as [|a [|b [|c [|d [|e [|f [|g [|h ds]]]]]]]]; try discriminate.
    reflexivity.
Qed.

Lemma normalize_zipcode_fixed v :
  normalize_zipcode (of_opt_str (normalize_zipcode v))
  = normalize_zipcode v.
Proof.
  destruct (normalize_zipcode v) as [z|] eqn:E; [|reflexivity].
  pose proof (normalize_zipcode_cases v E) as H. cbv zeta in H.
  set (ds := filter is_digit (py_str v)) in H.
  assert (Hd : all_digits ds = true) by apply filter_forallb.
  unfold normalize_zipcode. cbn [of_opt_str py_str truthy].
  destruct H as [(L & -> & _)|(L & -> & _)].
  - rewrite (digits_of_hyphenated 5 _ Hd), L.
    destruct (firstn 5 ds) eqn:F; [|reflexivity].
    destruct ds as [|a ds]; discriminate.
  - rewrite (digits_of_hyphenated 4 _ Hd), L.
    destruct (firstn 4 ds) eqn:F; [|reflexivity].
    destruct ds as [|a ds]; discriminate.
Qed.

(** ** URLs *)

Lemma url_pattern_nonempty u : url_pattern_match u = true -> nonempty u = true.
Proof. destruct u; [discriminate | reflexivity]. Qed.

Lemma trimmed_prefix (p u : pystr) :
  clean_head is_space p = true -> p <> [] -> u <> [] ->
  trimmed is_space u -> trimmed is_space (p ++ u).
Proof.
  intros Hp Np Nu [_ H2]. split.
  - now rewrite clean_head_app.
  - rewrite rev_app_distr, clean_head_app; [exact H2|].
    intro E. apply (f_equal (@rev ascii)) in E. rewrite rev_involutive in E. now subst.
Qed.

Lemma startswith_nonempty p s : startswith p s = true -> p <> [] -> s <> [].
Proof. destruct p, s; simpl; congruence. Qed.

(** The three ways [validate_url] answers with a URL. *)
Lemma validate_url_cases v u :
  validate_url v = Some u ->
  let x := strip (py_str v) in
  (u = x /\ url_pattern_match x = true)
  \/ (u = lit "https:" ++ x /\ startswith (lit "//") x = true)
  \/ (u = site_origin ++ x /\ startswith (lit "/") x = true).
Proof.
  unfold validate_url. destruct (truthy v); cbn [negb]; [|discriminate].
  cbv zeta. set (x := strip (py_str v)).
  destruct (url_pattern_match x) eqn:E1.
  - intro H. injection H as <-. now left.
  - destruct (startswith (lit "//") x) eqn:E2.
    + intro H. injection H as <-. right. now left.
    + destruct (startswith (lit "/") x) eqn:E3; [|discriminate].
      intro H. injection H as <-. right. now right.
Qed.

Lemma validate_url_trimmed v u :
  validate_url v = Some u -> trimmed is_space u /\ nonempty u = true.
Proof.
  intro H. apply validate_url_cases in H. cbv zeta in H.
  pose proof (strip_by_trimmed is_space (py_str v)) as T.
  fold (strip (py_str v)) in T.
  destruct H as [[-> M]|[[-> S]|[-> S]]].
  - split; [exact T | now apply url_pattern_nonempty].
  - split; [|reflexivity].
    apply trimmed_prefix; [reflexivity|discriminate| |exact T].
    apply (startswith_nonempty S). discriminate.
  - split; [|reflexivity].
    apply trimmed_prefix; [reflexivity|discriminate| |exact T].
    apply (startswith_nonempty S). discriminate.
Qed.

(** A result of [validate_url] that matches the pattern is kept as it is. *)
Lemma validate_url_fixed v u :
  validate_url v = Some u ->
  url_pattern_match u = true ->
  validate_url (VStr u) = Some u.
Proof.
  intros H M. destruct (validate_url_trimmed v H) as [T N].
  unfold validate_url. cbn [truthy py_str]. rewrite N. cbn [negb]. cbv zeta.
  rewrite (strip_by_fixed T : strip u = u). now rewrite M.
Qed.

Lemma validated_images_In l e :
  In e (validated_images l) ->
  exists x, In x l /\ validate_url x = Some e.
Proof.
  unfold validated_images. rewrite in_flat_map. intros (x & Hx & He).
  exists x. split; [exact Hx|].
  destruct (validate_url x) as [u|]; [|contradiction].
  destruct (nonempty u); [|contradiction]. destruct He as [->|[]]. reflexivity.
Qed.

Lemma validated_images_fixed imgs :
  Forall (fun e => validate_url (VStr e) = Some e) imgs ->
  validated_images (map VStr imgs) = imgs.
Proof.
  induction 1 as [|e imgs He _ IH]; [reflexivity|].
  unfold validated_images in *. simpl. rewrite He, IH.
  destruct (validate_url_trimmed _ He) as [_ N]. now rewrite N.
Qed.

(** ** The cleaner on a cleaned record *)

Lemma validate_url_fixed_opt v :
  url_ok (of_opt_str (validate_url v)) ->
  validate_url (of_opt_str (validate_url v)) = validate_url v.
Proof.
  destruct (validate_url v) as [u|] eqn:E; [|reflexivity].
  simpl. intro M. now apply (validate_url_fixed v).
Qed.

(** [clean_location] on a dictionary with the seven keys. *)
Lemma clean_location_on c n s k z m l :
  clean_location
    [ (lit "city", c); (lit "neighborhood", n); (lit "street", s); (lit "number", k);
      (lit "zipcode", z); (lit "complement", m); (lit "map_link", l) ]
  = [ (lit "city", of_opt_str (normalize_text c));
      (lit "neighborhood", of_opt_str (normalize_text n));
      (lit "street", of_opt_str (normalize_text s));
      (lit "number", of_opt_str (normalize_text k));
      (lit "zipcode", of_opt_str (normalize_zipcode z));
      (lit "complement", of_opt_str (normalize_text m));
      (lit "map_link", of_opt_str (validate_url l)) ].
Proof. reflexivity. Qed.

Lemma clean_location_fixed loc :
  url_ok (get (clean_location loc) (lit "map_link")) ->
  clean_location (clean_location loc) = clean_location loc.
Proof.
  intro M. unfold clean_location at 2 3.
  rewrite clean_location_on.
  change (get (clean_location loc) (lit "map_link"))
    with (of_opt_str (validate_url (get loc (lit "map_link")))) in M.
  now rewrite !normalize_text_fixed, normalize_zipcode_fixed, (validate_url_fixed_opt _ M).
Qed.

Lemma clean_location_empty : clean_location (empty_location) = empty_location.
Proof. reflexivity. Qed.

(** [clean_data] on a dictionary with the sixteen keys of a record. *)
Lemma clean_data_on u sa pt ca mo pr sz be su ba ga lo de ad vi im :
  clean_data
    [ (lit "url", u); (lit "scraped_at", sa); (lit "property_type", pt);
      (lit "category", ca); (lit "modality", mo); (lit "price", pr);
      (lit "size_m2", sz); (lit "bedrooms", be); (lit "suites", su);
      (lit "bathrooms", ba); (lit "garage", ga); (lit "location", lo);
      (lit "description", de); (lit "advertiser_code", ad);
      (lit "vivareal_code", vi); (lit "images", im) ]
  = (price <- validate_price pr ;;
     size_m2 <- validate_int_value sz 1 None ;;
     bedrooms <- validate_int_value be 0 None ;;
     suites <- validate_int_value su 0 None ;;
     bathrooms <- validate_int_value ba 0 None ;;
     garage <- validate_int_value ga 0 None ;;
     Ok [ (lit "url", of_opt_str (validate_url u));
          (lit "scraped_at", sa);
          (lit "property_type", of_opt_str (normalize_text pt));
          (lit "category", of_opt_str (if truthy ca then normalize_text ca else None));
          (lit "modality", of_opt_str (normalize_text mo));
          (lit "price", of_opt_float price);
          (lit "size_m2", of_opt_int size_m2);
          (lit "bedrooms", of_opt_int bedrooms);
          (lit "suites", of_opt_int suites);
          (lit "bathrooms", of_opt_int bathrooms);
          (lit "garage", of_opt_int garage);
          (lit "location",
            VDict match lo with
                  | VDict location => clean_location location
                  | _ => empty_location
                  end);
          (lit "description", of_opt_str (normalize_text de));
          (lit "advertiser_code", of_opt_str (normalize_text ad));
          (lit "vivareal_code", of_opt_str (normalize_text vi));
          (lit "images",
            VList (map VStr match im with
                            | VList images => firstn 15 (validated_images images)
                            | _ => []
                            end)) ]).
Proof. reflexivity. Qed.

Lemma category_fixed ca :
  let c := if truthy ca then normalize_text ca else None in
  (if truthy (of_opt_str c) then normalize_text (of_opt_str c) else None) = c.
Proof.
  cbv zeta. destruct (truthy ca); [|reflexivity].
  destruct (normalize_text ca) as [t|] eqn:E; [|reflexivity].
  pose proof (normalize_text_fixed ca) as F. rewrite E in F.
  simpl of_opt_str in *. rewrite F.
  destruct (truthy (VStr t)) eqn:T; [reflexivity|].
  unfold normalize_text in F. rewrite T in F. discriminate.
Qed.

Lemma In_firstn (A : Type) (n : nat) (l : list A) (x : A) :
  In x (firstn n l) -> In x l.
Proof.
  revert l; induction n as [|n IH]; intros [|y l]; simpl; try tauto.
  intros [H|H]; [now left | right; now apply IH].
Qed.

Lemma images_fixed l :
  Forall url_ok (map VStr (firstn 15 (validated_images l))) ->
  firstn 15 (validated_images
               (map VStr (firstn 15 (validated_images l))))
  = firstn 15 (validated_images l).
Proof.
  intro M. rewrite validated_images_fixed.
  - rewrite firstn_firstn. reflexivity.
  - rewrite Forall_forall in M |- *. intros e He.
    assert (Hm : url_ok (VStr e)) by (apply M, in_map, He).
    apply In_firstn, validated_images_In in He as (x & _ & Hx).
    now apply (validate_url_fixed x).
Qed.

(* ================================================================== *)
(** * Part VIII.  The claims *)
(* ================================================================== *)

(** ** C3: the cleaner on its own output *)

(** C3, as amended.  Cleaning a cleaned record again gives the same record,
    field for field, whenever every URL of the cleaned record (its [url],
    the [map_link] of its location, each of its [images]) matches the URL
    pattern.  (A URL the cleaner repaired from a text starting with [/] need
    not match the pattern; the second cleaning then changes or drops it.) *)
Theorem clean_data_idempotent_on_matching_urls (d r : pydict) :
  clean_data d = Ok r ->
  urls_match r ->
  clean_data r = Ok r.
Proof.
  unfold clean_data at 1.
  destruct (validate_price (get d (lit "price"))) as [price|] eqn:Ep; [|discriminate].
  destruct (validate_int_value (get d (lit "size_m2")) 1 None) as [sz|] eqn:E1; [|discriminate].
  destruct (validate_int_value (get d (lit "bedrooms")) 0 None) as [be|] eqn:E2; [|discriminate].
  destruct (validate_int_value (get d (lit "suites")) 0 None) as [su|] eqn:E3; [|discriminate].
  destruct (validate_int_value (get d (lit "bathrooms")) 0 None) as [ba|] eqn:E4; [|discriminate].
  destruct (validate_int_value (get d (lit "garage")) 0 None) as [ga|] eqn:E5; [|discriminate].
  cbn [bind]. cbv zeta. intro H. apply Ok_inj in H. subst r.
  intros (Mu & Ml & Mi).
  rewrite clean_data_on.
  rewrite (validate_price_fixed _ Ep), (validate_int_value_fixed _ _ _ E1),
    (validate_int_value_fixed _ _ _ E2), (validate_int_value_fixed _ _ _ E3),
    (validate_int_value_fixed _ _ _ E4), (validate_int_value_fixed _ _ _ E5).
  cbn [bind].
  change (get _ (lit "url")) with (of_opt_str (validate_url (get d (lit "url")))) in Mu.
  rewrite (validate_url_fixed_opt _ Mu), !normalize_text_fixed, category_fixed.
  change (get _ (lit "images")) with
    (VList (map VStr match get_default d (lit "images") (VList []) with
                     | VList images => firstn 15 (validated_images images)
                     | _ => []
                     end)) in Mi.
  change (get _ (lit "location")) with
    (VDict match lookup (lit "location") d with
           | Some (VDict location) => clean_location location
           | _ => empty_location
           end) in Ml.
  cbv beta iota in Ml, Mi.
  f_equal. repeat (f_equal; try reflexivity).
  - destruct (lookup (lit "location") d) as [[| | | | | |location]|];
      try apply clean_location_empty.
    now apply clean_location_fixed.
  - destruct (get_default d (lit "images") (VList [])); try reflexivity.
    now apply images_fixed.
Qed.

(** ** C1: zip codes *)

(** A text with exactly seven digits is given back as [DDDD-DDD], which is
    not of the form [DDDDD-DDD]. *)
Lemma normalize_zipcode_seven v :
  truthy v = true ->
  List.length (filter is_digit (py_str v)) = 7 ->
  exists z, normalize_zipcode v = Some z /\ zip_pattern z = false.
Proof.
  intros T L. unfold normalize_zipcode. rewrite T, L. cbn [negb Nat.eqb]. cbv zeta.
  eexists. split; [reflexivity|].
  destruct (filter is_digit (py_str v)) as [|a [|b [|c [|d [|e [|f [|g [|h ds]]]]]]]];
    try discriminate. reflexivity.
Qed.

(** A text with exactly eight digits is given back as [DDDDD-DDD]. *)
Lemma normalize_zipcode_eight v :
  truthy v = true ->
  List.length (filter is_digit (py_str v)) = 8 ->
  exists z, normalize_zipcode v = Some z /\ zip_pattern z = true.
Proof.
  intros T L.
  destruct (normalize_zipcode v) as [z|] eqn:E.
  - exists z. split; [reflexivity|].
    destruct (normalize_zipcode_cases v E) as [(_ & _ & H)|(L7 & _)]; [exact H|].
    cbv zeta in L7. rewrite L in L7. discriminate.
  - unfold normalize_zipcode in E. rewrite T, L in E. discriminate.
Qed.

(** With any other number of digits the zip code is absent. *)
Lemma normalize_zipcode_other v :
  List.length (filter is_digit (py_str v)) <> 8 ->
  List.length (filter is_digit (py_str v)) <> 7 ->
  normalize_zipcode v = None.
Proof.
  intros L8 L7. unfold normalize_zipcode. destruct (truthy v); [|reflexivity].
  apply Nat.eqb_neq in L8, L7. cbn [negb]. cbv zeta. now rewrite L8, L7.
Qed.

(** C1, at the failing input.  The two examples of the claim hold
    (["01310100"] gives ["01310-100"], ["123"] gives nothing), but the raw
    zip code ["1310100"], seven digits, is cleaned to ["1310-100"]: neither
    absent nor of the form [DDDDD-DDD]. *)
Theorem normalize_zipcode_seven_digits_partial :
  normalize_zipcode (VStr (lit "01310100")) = Some (lit "01310-100")
  /\ normalize_zipcode (VStr (lit "123")) = None
  /\ normalize_zipcode (VStr (lit "1310100")) = Some (lit "1310-100")
  /\ zip_pattern (lit "1310-100") = false
  /\ (exists r location,
        clean_data [ (lit "location", VDict [ (lit "zipcode", VStr (lit "1310100")) ]) ] = Ok r
        /\ get r (lit "location") = VDict location
        /\ get location (lit "zipcode") = VStr (lit "1310-100")).
Proof.
  repeat split; try reflexivity.
  eexists. eexists. repeat split; reflexivity.
Qed.

(** ** C9: the cleaner may raise *)

(** C9, at the failing inputs.  [validate_int_value] calls [int(value)] on a
    float outside any [try]: a NaN raises [ValueError] and an infinity
    [OverflowError]; [validate_price] calls [float(price)] on an integer
    outside any [try]: an integer beyond the doubles raises [OverflowError].
    [clean_data] lets each of them through. *)
Theorem clean_data_raises_on_non_finite_numbers :
  clean_data [ (lit "bedrooms", VFloat S754_nan) ] = Raise ValueError
  /\ clean_data [ (lit "size_m2", VFloat (S754_infinity false)) ] = Raise OverflowError
  /\ clean_data [ (lit "price", VInt (2 ^ 1024)) ] = Raise OverflowError.
Proof. repeat split; vm_compute; reflexivity. Qed.

Lemma validate_price_total v : no_int v -> exists o, validate_price v = Ok o.
Proof.
  destruct v as [|b|z|y|s|l|d]; simpl; try contradiction; intros _; eauto.
  - destruct b; vm_compute; eauto.
  - destruct (float_ge0 y); eauto.
  - destruct (float_of_decimal (price_clean s)) as [y|]; [destruct (float_ge0 y)|]; eauto.
Qed.

Lemma validate_int_value_total v lo hi :
  no_float v -> exists o, validate_int_value v lo hi = Ok o.
Proof.
  destruct v as [|b|z|y|s|l|d]; simpl; try contradiction; intros _; eauto.
  destruct (nonempty (filter is_digit s)); eauto.
Qed.

(** The cleaner returns a record whenever the price is no integer and the
    size and the four counts are no floats; that is so of every raw record
    the scraper assembles. *)
Lemma clean_data_total d :
  no_int (get d (lit "price")) ->
  no_float (get d (lit "size_m2")) ->
  no_float (get d (lit "bedrooms")) ->
  no_float (get d (lit "suites")) ->
  no_float (get d (lit "bathrooms")) ->
  no_float (get d (lit "garage")) ->
  exists r, clean_data d = Ok r.
Proof.
  intros Hp H1 H2 H3 H4 H5. unfold clean_data.
  destruct (validate_price_total _ Hp) as [? ->].
  destruct (validate_int_value_total _ 1 None H1) as [? ->].
  destruct (validate_int_value_total _ 0 None H2) as [? ->].
  destruct (validate_int_value_total _ 0 None H3) as [? ->].
  destruct (validate_int_value_total _ 0 None H4) as [? ->].
  destruct (validate_int_value_total _ 0 None H5) as [? ->].
  cbn [bind]. eauto.
Qed.

(** ** C10: integers read from text *)



(** The five fields of [clean_data] that go through [validate_int_value]:
    ["-3"] is cleaned to [3]. *)
Example clean_data_minus_three :
  exists r,
    clean_data [ (lit "size_m2", VStr (lit "-3")); (lit "bedrooms", VStr (lit "-3"));
                 (lit "suites", VStr (lit "-3")); (lit "bathrooms", VStr (lit "-3"));
                 (lit "garage", VStr (lit "-3")) ] = Ok r
    /\ get r (lit "size_m2") = VInt 3 /\ get r (lit "bedrooms") = VInt 3
    /\ get r (lit "suites") = VInt 3 /\ get r (lit "bathrooms") = VInt 3
    /\ get r (lit "garage") = VInt 3.
Proof. eexists. repeat split; reflexivity. Qed.

(** ** De-duplication in first-seen order *)

Lemma str_eqb_sym (a b : pystr) : str_eqb a b = str_eqb b a.
Proof.
  destruct (str_eqb a b) eqn:E.
  - apply str_eqb_eq in E. subst. symmetry. apply str_eqb_refl.
  - symmetry. apply str_eqb_neq. apply str_eqb_neq in E. congruence.
Qed.

Lemma mem_app x a b : mem x (a ++ b) = mem x a || mem x b.
Proof.
  induction a as [|y a IH]; simpl; [reflexivity|]. now rewrite IH, orb_assoc.
Qed.

Lemma mem_rev x l : mem x (rev l) = mem x l.
Proof.
  induction l as [|y l IH]; simpl; [reflexivity|].
  rewrite mem_app, IH. simpl. rewrite orb_false_r. apply orb_comm.
Qed.

Lemma mem_filter x f l : mem x (filter f l) = mem x l && f x.
Proof.
  induction l as [|y l IH]; simpl; [reflexivity|].
  destruct (str_eqb x y) eqn:E.
  - apply str_eqb_eq in E. subst y. destruct (f x) eqn:F; simpl.
    + now rewrite str_eqb_refl.
    + rewrite IH. apply andb_false_r.
  - destruct (f y); simpl; [rewrite E|]; exact IH.
Qed.

Lemma mem_dedup x l : mem x (dedup l) = mem x l.
Proof.
  induction l as [|y l IH]; simpl; [reflexivity|].
  unfold without. rewrite mem_filter, IH.
  destruct (str_eqb x y) eqn:E; [reflexivity|].
  rewrite str_eqb_sym in E. rewrite E. simpl. apply andb_true_r.
Qed.

Lemma In_dedup x l : In x (dedup l) <-> In x l.
Proof. rewrite <- !mem_In. now rewrite mem_dedup. Qed.

Lemma NoDup_filter (f : pystr -> bool) l : NoDup l -> NoDup (filter f l).
Proof.
  induction 1 as [|x l Hx _ IH]; simpl; [constructor|].
  destruct (f x); [|exact IH]. constructor; [|exact IH].
  rewrite filter_In. tauto.
Qed.

Lemma NoDup_dedup l : NoDup (dedup l).
Proof.
  induction l as [|x l IH]; simpl; constructor.
  - unfold without. rewrite filter_In, str_eqb_refl. intros [_ H]. discriminate.
  - now apply NoDup_filter.
Qed.

Lemma without_absent x l : ~ In x l -> without x l = l.
Proof.
  intro H. apply filter_all. apply forallb_forall. intros y Hy.
  apply negb_true_iff, str_eqb_neq. intros ->. contradiction.
Qed.

Lemma dedup_NoDup l : NoDup l -> dedup l = l.
Proof.
  induction 1 as [|x l Hx _ IH]; simpl; [reflexivity|].
  now rewrite IH, without_absent.
Qed.

Lemma filter_filter_and (A : Type) (f g : A -> bool) (l : list A) :
  filter f (filter g l) = filter (fun x => g x && f x) l.
Proof.
  induction l as [|x l IH]; simpl; [reflexivity|].
  destruct (g x); simpl; [destruct (f x)|]; now rewrite IH.
Qed.

Lemma without_outside y a l : without y (outside a l) = outside (y :: a) l.
Proof.
  unfold without, outside. rewrite filter_filter_and. apply filter_ext.
  intro z. simpl. rewrite (str_eqb_sym z y), negb_orb. apply andb_comm.
Qed.

Lemma without_app x a b : without x (a ++ b) = without x a ++ without x b.
Proof. apply filter_app. Qed.

Lemma dedup_app a l : dedup (a ++ l) = dedup a ++ outside a (dedup l).
Proof.
  induction a as [|y a IH]; simpl.
  - unfold outside. simpl. symmetry. apply filter_all, forallb_forall. reflexivity.
  - now rewrite IH, without_app, without_outside.
Qed.

Lemma outside_without x a l : In x a -> outside a (without x l) = outside a l.
Proof.
  intro H. unfold outside, without. rewrite filter_filter_and. apply filter_ext.
  intro z. destruct (str_eqb x z) eqn:E; simpl; [|reflexivity].
  apply str_eqb_eq in E. subst z. apply mem_In in H. now rewrite H.
Qed.

Lemma dedup_seen x a t : In x a -> dedup (a ++ x :: t) = dedup (a ++ t).
Proof.
  intro H. rewrite !dedup_app. f_equal. simpl. unfold outside at 1. simpl.
  apply mem_In in H. rewrite H. simpl. apply outside_without. now apply mem_In.
Qed.

(** ** The loop of the image resolver *)

Lemma NoDup_snoc (x : pystr) l : NoDup l -> ~ In x l -> NoDup (l ++ [x]).
Proof.
  intros Hl Hx. apply NoDup_rev in Hl. rewrite <- (rev_involutive l).
  change (rev (rev l) ++ [x]) with (rev (x :: rev l)). apply NoDup_rev.
  constructor; [|exact Hl]. now rewrite <- in_rev.
Qed.

Lemma add_image_cases st x :
  consistent st ->
  (In x (images st) /\ add_image st x = st)
  \/ (~ In x (images st)
      /\ add_image st x = {| images := images st ++ [x]; seen_urls := x :: seen_urls st |}
      /\ consistent {| images := images st ++ [x]; seen_urls := x :: seen_urls st |}).
Proof.
  intros [N S]. unfold add_image. rewrite S, mem_rev.
  destruct (mem x (images st)) eqn:E.
  - left. split; [now apply mem_In | reflexivity].
  - right. apply mem_not_In in E. split; [exact E|]. split; [reflexivity|].
    split; simpl.
    + now apply NoDup_snoc.
    + rewrite rev_app_distr. reflexivity.
Qed.

Lemma fold_add_image found st :
  consistent st ->
  consistent (fold_left add_image found st)
  /\ images (fold_left add_image found st) = dedup (images st ++ found).
Proof.
  revert st. induction found as [|x t IH]; intros st C; simpl.
  - split; [exact C|]. rewrite app_nil_r. symmetry. apply dedup_NoDup, C.
  - destruct (add_image_cases x C) as [[Hx ->]|(Hx & -> & C')].
    + destruct (IH st C) as [C2 ->]. split; [exact C2|].
      symmetry. now apply dedup_seen.
    + destruct (IH _ C') as [C2 ->]. split; [exact C2|].
      simpl. now rewrite <- app_assoc.
Qed.

Lemma firstn_full (a b : list pystr) n :
  List.length a = n -> firstn n (a ++ b) = a.
Proof.
  intros <-. rewrite firstn_app, Nat.sub_diag, firstn_all. simpl. apply app_nil_r.
Qed.

Lemma fold_add_ai_image_full max_images found st :
  (max_images <= Z.of_nat (List.length (images st)))%Z ->
  fold_left (add_ai_image max_images) found st = st.
Proof.
  intro H. induction found as [|x t IH]; simpl; [reflexivity|].
  unfold add_ai_image at 2.
  apply Z.ltb_ge in H. rewrite H, andb_false_r. exact IH.
Qed.

Lemma fold_add_ai_image max_images found st :
  consistent st ->
  (Z.of_nat (List.length (images st)) <= max_images)%Z ->
  images (fold_left (add_ai_image max_images) found st)
  = firstn (Z.to_nat max_images) (dedup (images st ++ found)).
Proof.
  revert st. induction found as [|x t IH]; intros st C L; simpl.
  - rewrite app_nil_r, (dedup_NoDup (proj1 C)). symmetry. apply firstn_all2. lia.
  - unfold add_ai_image at 2. destruct C as [N S]. rewrite S, mem_rev.
    destruct (mem x (images st)) eqn:E; simpl.
    + rewrite IH by (try split; assumption).
      apply mem_In in E. now rewrite dedup_seen.
    + destruct (Z.of_nat (List.length (images st)) <? max_images)%Z eqn:F.
      * apply Z.ltb_lt in F. apply mem_not_In in E. rewrite IH; simpl.
        -- now rewrite <- app_assoc.
        -- split; simpl; [now apply NoDup_snoc|].
           rewrite rev_app_distr. reflexivity.
        -- rewrite length_app. simpl. lia.
      * apply Z.ltb_ge in F. rewrite fold_add_ai_image_full by exact F.
        rewrite dedup_app, (dedup_NoDup N). symmetry. apply firstn_full. lia.
Qed.

(** ** C7: the order of the image strategies *)

Lemma after_network_spec src :
  consistent (fst (after_network src))
  /\ images (fst (after_network src)) = dedup (network_images src)
  /\ snd (after_network src) = [NetworkInterception].
Proof.
  unfold after_network, call_strategy. cbn [fst snd].
  destruct (@fold_add_image (network_images src) {| images := []; seen_urls := [] |})
    as [C E]; [split; [constructor | reflexivity]|].
  repeat split; [apply C | apply C | exact E].
Qed.

Lemma outside_dedup a l : outside (dedup a) l = outside a l.
Proof. unfold outside. apply filter_ext. intro z. now rewrite mem_dedup. Qed.

Lemma dedup_dedup_app a l : dedup (dedup a ++ l) = dedup (a ++ l).
Proof.
  rewrite !dedup_app, (dedup_NoDup (NoDup_dedup _)). f_equal. apply outside_dedup.
Qed.

Lemma after_interaction_spec src :
  let ran2 := (List.length (dedup (network_images src)) <? 3)%nat in
  consistent (fst (after_interaction src))
  /\ images (fst (after_interaction src))
     = dedup (network_images src ++ when ran2 (interaction_images src))
  /\ snd (after_interaction src) = [NetworkInterception] ++ logged_when ran2 PageInteraction.
Proof.
  cbv zeta. unfold after_interaction.
  destruct (after_network_spec src) as (C & E & T). rewrite E.
  destruct (List.length (dedup (network_images src)) <? 3)%nat; cbn [when logged_when].
  - unfold call_strategy. cbn [fst snd].
    destruct (@fold_add_image (interaction_images src) _ C) as [C2 E2].
    rewrite E2, E, T, dedup_dedup_app. repeat split; apply C2.
  - rewrite app_nil_r. repeat split; try apply C; assumption.
Qed.

Lemma after_scripts_spec src :
  let ran2 := (List.length (dedup (network_images src)) <? 3)%nat in
  let found2 := network_images src ++ when ran2 (interaction_images src) in
  let ran3 := (List.length (dedup found2) <? 3)%nat in
  consistent (fst (after_scripts src))
  /\ images (fst (after_scripts src)) = dedup (found2 ++ when ran3 (script_images src))
  /\ snd (after_scripts src)
     = [NetworkInterception] ++ logged_when ran2 PageInteraction
       ++ logged_when ran3 ScriptMining.
Proof.
  cbv zeta. unfold after_scripts.
  destruct (after_interaction_spec src) as (C & E & T). cbv zeta in E, T. rewrite E.
  set (found2 := network_images src ++ _) in *.
  destruct (List.length (dedup found2) <? 3)%nat; cbn [when logged_when].
  - unfold call_strategy. cbn [fst snd].
    destruct (@fold_add_image (script_images src) _ C) as [C2 E2].
    rewrite E2, E, T, dedup_dedup_app. repeat split; apply C2.
  - rewrite !app_nil_r. repeat split; try apply C; assumption.
Qed.

Lemma length_zero_nil (A : Type) (l : list A) : (List.length l <? 1)%nat = true <-> l = [].
Proof.
  destruct l; simpl; split; intro H; try reflexivity; try discriminate.
Qed.

Lemma slice_to_firstn n l : (0 <= n)%Z -> slice_to n l = firstn (Z.to_nat n) l.
Proof. intro H. unfold slice_to. apply Z.leb_le in H. now rewrite H. Qed.

Lemma NoDup_firstn (n : nat) (l : list pystr) : NoDup l -> NoDup (firstn n l).
Proof.
  revert l; induction n as [|n IH]; intros [|x l] H; simpl; try constructor.
  - inversion H as [|? ? Hx Hl]; subst. intro K. apply Hx. now apply In_firstn in K.
  - inversion H; subst. now apply IH.
Qed.

(** The resolver's result written out: which strategies ran, and the list. *)
Lemma extract_images_result (src : image_sources) (max_images : Z) (use_ai : bool) :
  (0 <= max_images)%Z ->
  let ran2 := (List.length (dedup (network_images src)) <? 3)%nat in
  let found2 := network_images src ++ when ran2 (interaction_images src) in
  let ran3 := (List.length (dedup found2) <? 3)%nat in
  let found3 := found2 ++ when ran3 (script_images src) in
  let ran4 := (List.length (dedup found3) <? 1)%nat && use_ai in
  extract_images src max_images use_ai
  = (firstn (Z.to_nat max_images) (dedup (found3 ++ when ran4 (ai_found src))),
     [NetworkInterception] ++ logged_when ran2 PageInteraction
     ++ logged_when ran3 ScriptMining ++ logged_when ran4 AiOracle).
Proof.
  intro Hmax.
  destruct (after_scripts_spec src) as (C & E & T). cbv zeta in E, T.
  intros ran2 found2 ran3 found3 ran4.
  fold ran2 in E, T. fold found2 in E, T. fold ran3 in E, T. fold found3 in E.
  unfold extract_images, after_ai. rewrite E.
  change ((List.length (dedup found3) <? 1)%nat && use_ai) with ran4.
  rewrite (slice_to_firstn _ Hmax).
  destruct ran4 eqn:R4; cbn [when logged_when].
  - apply andb_true_iff in R4 as [Z0 _]. apply length_zero_nil in Z0.
    assert (I0 : images (fst (after_scripts src)) = []) by now rewrite E.
    unfold ai_found. destruct (ai_images src) as [found|e]; cbn [fst snd].
    + rewrite fold_add_ai_image; [|exact C|rewrite I0; simpl; lia].
      rewrite firstn_firstn, Nat.min_id, I0, T.
      rewrite <- (dedup_dedup_app found3), Z0, <- !app_assoc. reflexivity.
    + rewrite E, T, app_nil_r, <- !app_assoc. reflexivity.
  - cbn [fst snd]. rewrite E, T, !app_nil_r. reflexivity.
Qed.

(** The list the resolver returns holds no URL twice and at most
    [max_images] of them. *)
Lemma extract_images_distinct (src : image_sources) (max_images : Z) (use_ai : bool) :
  (0 <= max_images)%Z ->
  NoDup (fst (extract_images src max_images use_ai))
  /\ (Z.of_nat (List.length (fst (extract_images src max_images use_ai))) <= max_images)%Z.
Proof.
  intro Hmax. pose proof (extract_images_result src use_ai Hmax) as R.
  cbv zeta in R. rewrite R. cbn [fst].
  split; [apply NoDup_firstn, NoDup_dedup|].
  match goal with |- context [firstn ?n ?l] => pose proof (firstn_le_length n l) as L end.
  lia.
Qed.

(** C7.  The resolver calls network interception first; page interaction
    exactly when the first left fewer than 3 images, script mining exactly
    when fewer than 3 are held then, the oracle exactly when none is held
    then and AI is enabled, in that order.  What it returns is the outputs of
    the strategies it called, one after the other, with the first occurrence
    of each URL only, cut at [max_images]. *)
Theorem extract_images_priority (src : image_sources) (max_images : Z) (use_ai : bool) :
  (0 <= max_images)%Z ->
  exists ran2 ran3 ran4 : bool,
    let found2 := network_images src ++ when ran2 (interaction_images src) in
    let found3 := found2 ++ when ran3 (script_images src) in
    let found4 := found3 ++ when ran4 (ai_found src) in
    snd (extract_images src max_images use_ai)
    = [NetworkInterception] ++ logged_when ran2 PageInteraction
      ++ logged_when ran3 ScriptMining ++ logged_when ran4 AiOracle
    /\ (ran2 = true <-> List.length (dedup (network_images src)) < 3)
    /\ (NoDup (network_images src) ->
        (ran2 = true <-> List.length (network_images src) < 3))
    /\ (ran3 = true <-> List.length (dedup found2) < 3)
    /\ (ran4 = true <-> List.length (dedup found3) = 0 /\ use_ai = true)
    /\ fst (extract_images src max_images use_ai)
       = firstn (Z.to_nat max_images) (dedup found4)
    /\ NoDup (fst (extract_images src max_images use_ai))
    /\ (Z.of_nat (List.length (fst (extract_images src max_images use_ai))) <= max_images)%Z.
Proof.
  intro Hmax.
  pose proof (extract_images_distinct src use_ai Hmax) as [N L].
  pose proof (extract_images_result src use_ai Hmax) as R. cbv zeta in R.
  set (ran2 := (List.length (dedup (network_images src)) <? 3)%nat) in *.
  set (found2 := network_images src ++ when ran2 (interaction_images src)) in *.
  set (ran3 := (List.length (dedup found2) <? 3)%nat) in *.
  set (found3 := found2 ++ when ran3 (script_images src)) in *.
  set (ran4 := (List.length (dedup found3) <? 1)%nat && use_ai) in *.
  exists ran2, ran3, ran4. cbv zeta. fold found2 found3.
  split; [now rewrite R|].
  split; [apply Nat.ltb_lt|].
  split; [intro D; rewrite <- (dedup_NoDup D); apply Nat.ltb_lt|].
  split; [apply Nat.ltb_lt|].
  split.
  { unfold ran4. rewrite andb_true_iff, length_zero_nil.
    split; intros [H1 H2]; split; try exact H2.
    - now rewrite H1.
    - now apply length_zero_iff_nil. }
  split; [now rewrite R|].
  split; assumption.
Qed.

Example extract_images_merges_two_strategies :
  extract_images two_strategies 15 true
  = ([lit "a.jpg"; lit "b.jpg"; lit "c.jpg"], [NetworkInterception; PageInteraction]).
Proof. reflexivity. Qed.

(** ** C5: the merge of the oracle's answer *)

Lemma location_eta (l : location) :
  l = {| city := city l; neighborhood := neighborhood l; street := street l;
         number := number l; zipcode := zipcode l; complement := complement l;
         map_link := map_link l |}.
Proof. now destruct l. Qed.

Lemma merge_city_ok ai l :
  (city l = None -> present (ai_city ai) = false) ->
  merge_city ai l = Ok (set_city l (city (merged ai l))).
Proof.
  intro H. unfold merge_city, merged. cbn [city].
  destruct (ai_city ai) as [a|]; cbn [present] in *.
  - destruct (city l) as [c|] eqn:Ec.
    + destruct (nonempty a); cbn [andb].
      * destruct (List.length c <? List.length a)%nat; [reflexivity|].
        destruct l; cbn in Ec; now subst.
      * destruct l; cbn in Ec; now subst.
    + rewrite (H eq_refl). destruct l; cbn in Ec; now subst.
  - destruct l; reflexivity.
Qed.

Lemma merge_neighborhood_ok ai l :
  merge_neighborhood ai l = Ok (set_neighborhood l (neighborhood (merged ai l))).
Proof.
  unfold merge_neighborhood, merged. cbn [neighborhood].
  destruct (present (ai_neighborhood ai) && negb (present (neighborhood l)));
    [reflexivity | now destruct l].
Qed.

Lemma merge_street_ok ai l :
  merge_street ai l = Ok (set_street l (street (merged ai l))).
Proof.
  unfold merge_street, merged. cbn [street].
  destruct (present (ai_street ai) && negb (present (street l)));
    [reflexivity | now destruct l].
Qed.

Lemma merge_number_ok ai l :
  merge_number ai l = Ok (set_number l (number (merged ai l))).
Proof.
  unfold merge_number, merged. cbn [number].
  destruct (present (ai_number ai) && negb (present (number l)));
    [reflexivity | now destruct l].
Qed.

Lemma merge_zipcode_ok ai l :
  merge_zipcode ai l = Ok (set_zipcode l (zipcode (merged ai l))).
Proof.
  unfold merge_zipcode, merged. cbn [zipcode].
  destruct (present (ai_zipcode ai) && negb (present (zipcode l)));
    [reflexivity | now destruct l].
Qed.

Lemma merge_map_link_ok ai l :
  merge_map_link ai l = Ok (set_map_link l (map_link (merged ai l))).
Proof.
  unfold merge_map_link, merged. cbn [map_link].
  destruct (ai_map_link ai) as [m|]; cbn [present andb]; [|now destruct l].
  destruct (nonempty m && contains (lit "google.com/maps") m);
    [reflexivity | now destruct l].
Qed.

(** The slip of the first statement: when the location has no city and the
    oracle gives one, [len(None)] raises [TypeError] and the whole merge is
    skipped. *)
Lemma ai_merge_without_city ai l :
  city l = None -> present (ai_city ai) = true -> ai_merge ai l = l.
Proof.
  intros Hc Ha. unfold ai_merge. cbn [run_block]. unfold merge_city.
  rewrite Ha, Hc. destruct (ai_city ai); reflexivity.
Qed.

(** C5, as amended.  When the merge does not stop on a missing city (the
    location has a city, or the oracle gives none):
    - the oracle's city replaces the city exactly when it is not empty and
      strictly longer;
    - the oracle's neighborhood, street, number and zipcode each replace the
      existing value exactly when they are not empty and the existing value
      is absent or empty;
    - the oracle's map link replaces the existing one exactly when it is not
      empty and contains [google.com/maps], whether or not the location
      already has a map link;
    - [complement] is never touched. *)
Theorem ai_merge_rule (ai : ai_location) (l : location) :
  (city l = None -> present (ai_city ai) = false) ->
  ai_merge ai l = merged ai l
  /\ (city (ai_merge ai l) <> city l ->
      exists a c, ai_city ai = Some a /\ city l = Some c
                  /\ List.length c < List.length a /\ city (ai_merge ai l) = Some a)
  /\ (neighborhood (ai_merge ai l) <> neighborhood l ->
      present (neighborhood l) = false
      /\ neighborhood (ai_merge ai l) = ai_neighborhood ai)
  /\ (street (ai_merge ai l) <> street l ->
      present (street l) = false /\ street (ai_merge ai l) = ai_street ai)
  /\ (number (ai_merge ai l) <> number l ->
      present (number l) = false /\ number (ai_merge ai l) = ai_number ai)
  /\ (zipcode (ai_merge ai l) <> zipcode l ->
      present (zipcode l) = false /\ zipcode (ai_merge ai l) = ai_zipcode ai)
  /\ (map_link (ai_merge ai l) <> map_link l ->
      exists m, ai_map_link ai = Some m /\ contains (lit "google.com/maps") m = true
                /\ map_link (ai_merge ai l) = Some m).
Proof.
  intro H.
  assert (E : ai_merge ai l = merged ai l).
  { unfold ai_merge. cbn [run_block].
    rewrite (merge_city_ok ai l H), merge_neighborhood_ok, merge_street_ok,
      merge_number_ok, merge_zipcode_ok, merge_map_link_ok.
    destruct l. reflexivity. }
  split; [exact E|]. rewrite E. clear E. unfold merged.
  cbn [city neighborhood street number zipcode complement map_link].
  repeat split.
  - destruct (ai_city ai) as [a|], (city l) as [c|]; try congruence.
    destruct (nonempty a && (List.length c <? List.length a)%nat) eqn:B; [|congruence].
    apply andb_true_iff in B as [_ B]. apply Nat.ltb_lt in B.
    intros _. exists a, c. repeat split; assumption.
  - destruct (present (ai_neighborhood ai) && negb (present (neighborhood l))) eqn:B;
      [|congruence]. apply andb_true_iff in B as [_ B]. now apply negb_true_iff in B.
  - destruct (present (ai_neighborhood ai) && negb (present (neighborhood l)));
      congruence.
  - destruct (present (ai_street ai) && negb (present (street l))) eqn:B;
      [|congruence]. apply andb_true_iff in B as [_ B]. now apply negb_true_iff in B.
  - destruct (present (ai_street ai) && negb (present (street l))); congruence.
  - destruct (present (ai_number ai) && negb (present (number l))) eqn:B;
      [|congruence]. apply andb_true_iff in B as [_ B]. now apply negb_true_iff in B.
  - destruct (present (ai_number ai) && negb (present (number l))); congruence.
  - destruct (present (ai_zipcode ai) && negb (present (zipcode l))) eqn:B;
      [|congruence]. apply andb_true_iff in B as [_ B]. now apply negb_true_iff in B.
  - destruct (present (ai_zipcode ai) && negb (present (zipcode l))); congruence.
  - destruct (ai_map_link ai) as [m|]; [|congruence].
    destruct (nonempty m && contains (lit "google.com/maps") m) eqn:B; [|congruence].
    apply andb_true_iff in B as [_ B]. intros _. exists m. repeat split; assumption.
Qed.

(** ** Substrings *)

Lemma startswith_app p s : startswith p (p ++ s) = true.
Proof. induction p as [|c p IH]; simpl; [reflexivity|]. now rewrite Ascii.eqb_refl. Qed.

Lemma startswith_split p s : startswith p s = true -> exists b, s = p ++ b.
Proof.
  revert s; induction p as [|c p IH]; intros s H; simpl in *.
  - now exists s.
  - destruct s as [|d s]; [discriminate|].
    apply andb_true_iff in H as [E H]. apply Ascii.eqb_eq in E. subst d.
    destruct (IH s H) as [b ->]. now exists b.
Qed.

Lemma contains_startswith needle hay :
  startswith needle hay = true -> contains needle hay = true.
Proof. intro H. destruct hay; simpl; rewrite H; reflexivity. Qed.

(** [needle in hay] holds exactly when [hay] is some text, [needle], some text. *)
Lemma contains_split needle hay :
  contains needle hay = true <-> exists a b, hay = a ++ needle ++ b.
Proof.
  split.
  - induction hay as [|c hay IH]; simpl; intro H.
    + rewrite orb_false_r in H. destruct needle; [|discriminate]. now exists [], [].
    + apply orb_true_iff in H as [H|H].
      * destruct (startswith_split needle (c :: hay) H) as [b E]. exists [], b. exact E.
      * destruct (IH H) as (a & b & ->). now exists (c :: a), b.
  - intros (a & b & ->). induction a as [|c a IH]; simpl.
    + apply contains_startswith, startswith_app.
    + rewrite IH. apply orb_true_r.
Qed.

Lemma contains_app_r needle a s : contains needle s = true -> contains needle (a ++ s) = true.
Proof.
  rewrite !contains_split. intros (x & y & ->). exists (a ++ x), y. now rewrite app_assoc.
Qed.

Lemma contains_app_l needle a s : contains needle a = true -> contains needle (a ++ s) = true.
Proof.
  rewrite !contains_split. intros (x & y & ->). exists x, (y ++ s).
  now rewrite <- !app_assoc.
Qed.

Lemma startswith_map (f : ascii -> ascii) p s :
  startswith p s = true -> startswith (map f p) (map f s) = true.
Proof.
  revert s; induction p as [|c p IH]; intros [|d s] H; simpl in *; try congruence.
  apply andb_true_iff in H as [E H]. apply Ascii.eqb_eq in E. subst d.
  now rewrite Ascii.eqb_refl, IH.
Qed.

Lemma contains_lower needle s :
  contains needle s = true -> contains (lower needle) (lower s) = true.
Proof.
  rewrite !contains_split. intros (a & b & ->).
  exists (lower a), (lower b). unfold lower. now rewrite !map_app.
Qed.

(** Stripping keeps what lies between two characters that are not stripped. *)
Lemma lstrip_by_app p a r :
  clean_head p r = true -> r <> [] -> lstrip_by p (a ++ r) = lstrip_by p a ++ r.
Proof.
  intros H N. induction a as [|c a IH]; simpl.
  - now apply lstrip_by_fixed.
  - destruct (p c); [exact IH | reflexivity].
Qed.

Lemma strip_around a n b :
  solid n -> strip (a ++ n ++ b) = lstrip_by is_space a ++ n ++ rstrip_by is_space b.
Proof.
  intros (N & H1 & H2). unfold strip, strip_by.
  rewrite (@lstrip_by_app is_space a (n ++ b)).
  - unfold rstrip_by. rewrite !rev_app_distr, <- app_assoc.
    rewrite (@lstrip_by_app is_space (rev b) (rev n ++ rev (lstrip_by is_space a))).
    + rewrite !rev_app_distr, !rev_involutive, <- app_assoc. reflexivity.
    + rewrite clean_head_app; [exact H2|].
      intro E. apply (f_equal (@rev ascii)) in E. rewrite rev_involutive in E. now subst.
    + intro E. apply app_eq_nil in E as [E _].
      apply (f_equal (@rev ascii)) in E. rewrite rev_involutive in E. now subst.
  - now rewrite clean_head_app.
  - intro E. now apply app_eq_nil in E as [E _].
Qed.

Lemma contains_strip n s :
  solid n -> contains n s = true -> contains n (strip s) = true.
Proof.
  intros S H. apply contains_split in H as (a & b & ->).
  rewrite (strip_around a b S). apply contains_split.
  now exists (lstrip_by is_space a), (rstrip_by is_space b).
Qed.

Lemma lstrip_by_suffix p s : exists a, s = a ++ lstrip_by p s.
Proof.
  induction s as [|c s [a IH]]; simpl; [now exists []|].
  destruct (p c); [|now exists []]. exists (c :: a). simpl. now rewrite <- IH.
Qed.

(** A stripped text is a part of the text. *)
Lemma strip_inside s : exists a b, s = a ++ strip s ++ b.
Proof.
  unfold strip, strip_by, rstrip_by.
  destruct (lstrip_by_suffix is_space s) as [a Ea].
  destruct (lstrip_by_suffix is_space (rev (lstrip_by is_space s))) as [b Eb].
  exists a, (rev b). rewrite <- rev_app_distr, <- Eb, rev_involutive. exact Ea.
Qed.

Lemma contains_of_strip n s : contains n (strip s) = true -> contains n s = true.
Proof.
  intro H. destruct (strip_inside s) as (a & b & E). rewrite E.
  now apply contains_app_r, contains_app_l.
Qed.

Lemma is_space_lower c : is_space (lower_char c) = is_space c.
Proof. destruct c as [[] [] [] [] [] [] [] []]; reflexivity. Qed.

Lemma lstrip_lower s :
  lstrip_by is_space (map lower_char s) = map lower_char (lstrip_by is_space s).
Proof.
  induction s as [|c s IH]; simpl; [reflexivity|].
  rewrite is_space_lower. destruct (is_space c); [exact IH | reflexivity].
Qed.

Lemma strip_lower s : strip (lower s) = lower (strip s).
Proof.
  unfold strip, strip_by, rstrip_by, lower.
  now rewrite lstrip_lower, <- map_rev, lstrip_lower, <- map_rev.
Qed.

(** ** The shape of a map link *)

Ltac solid_lit := repeat split; solve [discriminate | reflexivity].

(** [is_valid_map] only asks for solid markers, so it goes from a text to
    every text that keeps the solid parts of the first. *)
Lemma is_valid_map_mono s t :
  (forall n, solid n -> contains n s = true -> contains n t = true) ->
  is_valid_map s = true -> is_valid_map t = true.
Proof.
  intros K H. unfold is_valid_map in *.
  rewrite !orb_true_iff, !andb_true_iff in *.
  destruct H as [[[H|H]|[H1 H2]]|[H1 H2]];
    [left; left; left | left; left; right | left; right; split | right; split];
    (apply K; [solid_lit | assumption]).
Qed.

Lemma is_valid_map_strip s : is_valid_map s = true -> is_valid_map (strip s) = true.
Proof. apply is_valid_map_mono. intros n S. now apply contains_strip. Qed.

Lemma is_valid_map_app a s : is_valid_map s = true -> is_valid_map (a ++ s) = true.
Proof. apply is_valid_map_mono. intros n _. apply contains_app_r. Qed.

Lemma lower_app a b : lower (a ++ b) = lower a ++ lower b.
Proof. apply map_app. Qed.

(** The same for the absence of the sitemap markers, the other way round. *)
Lemma sitemap_marked_strip s : sitemap_marked s = false -> sitemap_marked (strip s) = false.
Proof.
  unfold sitemap_marked. intro H. apply orb_false_iff in H as [H1 H2].
  apply orb_false_iff. split.
  - destruct (contains (lit "mapa-do-site") (strip s)) eqn:E; [|reflexivity].
    apply contains_of_strip in E. congruence.
  - destruct (contains (lit "sitemap") (strip s)) eqn:E; [|reflexivity].
    apply contains_of_strip in E. congruence.
Qed.

Lemma sitemap_marked_https s : sitemap_marked (lit "https:" ++ s) = sitemap_marked s.
Proof. reflexivity. Qed.

Lemma sitemap_marked_origin s : sitemap_marked (site_origin ++ s) = sitemap_marked s.
Proof. reflexivity. Qed.

(** What [validate_url] does to the text of a link keeps a valid map shape,
    and brings no sitemap marker. *)
Lemma validate_url_keeps_map_shape m u :
  validate_url (VStr m) = Some u ->
  (is_valid_map (lower m) = true -> is_valid_map (lower u) = true)
  /\ (sitemap_marked (lower m) = false -> sitemap_marked (lower u) = false).
Proof.
  intro H. apply validate_url_cases in H. cbv zeta in H. cbn [py_str] in H.
  destruct H as [[-> _]|[[-> _]|[-> _]]]; rewrite ?lower_app, <- strip_lower; split; intro K.
  - now apply is_valid_map_strip.
  - now apply sitemap_marked_strip.
  - now apply is_valid_map_app, is_valid_map_strip.
  - change (lower (lit "https:")) with (lit "https:").
    rewrite sitemap_marked_https. now apply sitemap_marked_strip.
  - now apply is_valid_map_app, is_valid_map_strip.
  - change (lower site_origin) with site_origin.
    rewrite sitemap_marked_origin. now apply sitemap_marked_strip.
Qed.

(** ** The links the page search accepts *)

Lemma accept_selector_url_ok u m : accept_selector_url u = Some m -> page_link_ok m.
Proof.
  unfold accept_selector_url. cbv zeta.
  destruct (sitemap_marked (lower u)) eqn:S; [discriminate|].
  destruct (is_valid_map (lower u)) eqn:V; [|discriminate].
  destruct (startswith (lit "//") u).
  - intro H. apply Some_inj in H. subst m. split; rewrite lower_app.
    + now apply is_valid_map_app.
    + change (lower (lit "https:")) with (lit "https:"). now rewrite sitemap_marked_https.
  - destruct (startswith (lit "/") u); [discriminate|].
    intro H. injection H as <-. now split.
Qed.

Lemma accept_text_url_ok u m : accept_text_url u = Some m -> page_link_ok m.
Proof.
  unfold accept_text_url. cbv zeta.
  destruct (sitemap_marked (lower u)) eqn:S; [discriminate|].
  destruct (contains (lit "google.com/maps") (lower u)
            || contains (lit "maps.google") (lower u)) eqn:V; [|discriminate].
  assert (V' : is_valid_map (lower u) = true).
  { unfold is_valid_map. now rewrite V. }
  intro H. apply Some_inj in H. subst m.
  destruct (startswith (lit "//") u); [|now split].
  split; rewrite lower_app.
  - now apply is_valid_map_app.
  - change (lower (lit "https:")) with (lit "https:"). now rewrite sitemap_marked_https.
Qed.

Lemma scan_elements_ok elements m :
  scan_elements elements = Ok (Some m) -> page_link_ok m.
Proof.
  induction elements as [|e rest IH]; simpl; [discriminate|].
  destruct (candidate_url e) as [u|]; simpl; [|discriminate].
  destruct (present u); [|exact IH].
  destruct u as [u|]; [|exact IH].
  destruct (accept_selector_url u) as [found|] eqn:A; [|exact IH].
  intro H. injection H as <-. now apply (accept_selector_url_ok u).
Qed.

Lemma scan_selectors_ok find selectors m :
  scan_selectors find selectors = Some m -> page_link_ok m.
Proof.
  induction selectors as [|sel rest IH]; simpl; [discriminate|].
  destruct (find sel) as [els|]; simpl; [|exact IH].
  destruct (scan_elements els) as [[found|]|] eqn:S; try exact IH.
  intro H. injection H as <-. now apply (scan_elements_ok els).
Qed.

Lemma scan_text_links_ok links m :
  scan_text_links links = Some m -> page_link_ok m.
Proof.
  induction links as [|[[u|]|] rest IH]; simpl; try exact IH; [discriminate|].
  destruct (nonempty u); [|exact IH].
  destruct (accept_text_url u) as [found|] eqn:A; [|exact IH].
  intro H. injection H as <-. now apply (accept_text_url_ok u).
Qed.

(** A link found on the page is a Google-Maps or coordinates link and holds
    no sitemap marker. *)
Lemma page_map_link_ok src m : page_map_link src = Some m -> page_link_ok m.
Proof.
  unfold page_map_link.
  destruct (scan_selectors (find_css src) map_selectors) as [found|] eqn:S.
  - intro H. injection H as <-. now apply (scan_selectors_ok _ _ S).
  - destruct (map_text_links src) as [links|]; [|discriminate].
    apply scan_text_links_ok.
Qed.

Lemma google_maps_url_valid parts : is_valid_map (lower (google_maps_url parts)) = true.
Proof.
  unfold google_maps_url. cbv zeta. rewrite lower_app.
  assert (H : contains (lit "google.com/maps")
                 (lower (lit "https://www.google.com/maps/search/?api=1&query=")) = true)
    by reflexivity.
  unfold is_valid_map. erewrite contains_app_l by exact H. reflexivity.
Qed.

(** ** Where a map link comes from *)

Lemma run_block_invariant (P : location -> Prop) block :
  Forall (fun statement => forall l l', P l -> statement l = Ok l' -> P l') block ->
  forall l, P l -> P (run_block block l).
Proof.
  induction 1 as [|f block Hf _ IH]; intros l Hl; simpl; [exact Hl|].
  destruct (f l) as [l'|] eqn:E; [|exact Hl]. apply IH. now apply (Hf l).
Qed.

Lemma ai_merge_origin src ai l :
  ai_answer src = Ok ai ->
  link_origin src (map_link l) -> link_origin src (map_link (ai_merge ai l)).
Proof.
  intros A. unfold ai_merge.
  apply (@run_block_invariant (fun l => link_origin src (map_link l))).
  repeat constructor; intros x x' Hx.
  - unfold merge_city. destruct (present (ai_city ai)); [|intro E; apply Ok_inj in E; now subst].
    destruct (ai_city ai), (city x); try discriminate;
      try destruct (_ <? _)%nat; intro E; apply Ok_inj in E; now subst.
  - unfold merge_neighborhood. destruct (_ && _); intro E; apply Ok_inj in E; now subst.
  - unfold merge_street. destruct (_ && _); intro E; apply Ok_inj in E; now subst.
  - unfold merge_number. destruct (_ && _); intro E; apply Ok_inj in E; now subst.
  - unfold merge_zipcode. destruct (_ && _); intro E; apply Ok_inj in E; now subst.
  - unfold merge_map_link. destruct (ai_map_link ai) as [m|] eqn:M; cbn [present andb].
    + destruct (nonempty m && contains (lit "google.com/maps") m) eqn:B;
        intro E; apply Ok_inj in E; subst x'; [|exact Hx].
      apply andb_true_iff in B as [_ B]. cbn [set_map_link map_link].
      apply OracleLink with (ai := ai); assumption.
    + intro E. apply Ok_inj in E. now subst.
Qed.

Lemma build_link_first_origin src l :
  link_origin src (map_link l) -> link_origin src (map_link (build_link_first l)).
Proof.
  intro H. unfold build_link_first. destruct (_ && _); [|exact H]. cbv zeta.
  destruct (append_part (city l) _); [exact H|]. apply BuiltLink.
Qed.

Lemma build_link_last_origin src l :
  link_origin src (map_link l) -> link_origin src (map_link (build_link_last l)).
Proof.
  intro H. unfold build_link_last. destruct (_ || _); [|exact H]. cbv zeta.
  destruct (2 <=? _)%nat; [apply BuiltLink | exact H].
Qed.

(** The link [extract_location] returns has one of the four origins. *)
Lemma extract_location_origin src use_ai :
  link_origin src (map_link (extract_location src use_ai)).
Proof.
  unfold extract_location. destruct (title_fields src) as [parts|]; [|apply NoLink].
  cbv zeta. apply build_link_last_origin.
  unfold ai_fallback.
  match goal with |- context [build_link_first ?x] => set (l := x) end.
  assert (H : link_origin src (map_link (build_link_first l))).
  { apply build_link_first_origin. unfold l.
    destruct (page_map_link src) as [found|] eqn:E; [now apply PageLink | apply NoLink]. }
  destruct (wants_ai _ use_ai); [|exact H].
  destruct (ai_answer src) as [ai|] eqn:A; [|exact H].
  now apply ai_merge_origin.
Qed.

Lemma link_origin_valid src m :
  link_origin src (Some m) -> is_valid_map (lower m) = true.
Proof.
  intro H. inversion H as [|? P|parts|ai ? A M C]; subst.
  - now apply (page_map_link_ok src).
  - apply google_maps_url_valid.
  - apply contains_lower in C. change (lower (lit "google.com/maps")) with (lit "google.com/maps") in C.
    unfold is_valid_map. now rewrite C.
Qed.

(** The map link of the cleaned location, from the link of the location. *)
Lemma cleaned_map_link l :
  get (clean_location (dict_of_location l)) (lit "map_link")
  = of_opt_str (validate_url (of_opt_str (map_link l))).
Proof. reflexivity. Qed.

(** The cleaned map link is absent or keeps the shape of a map link. *)
Lemma cleaned_map_link_shape src use_ai :
  let cleaned := clean_location (dict_of_location (extract_location src use_ai)) in
  get cleaned (lit "map_link") = VNone
  \/ exists m, get cleaned (lit "map_link") = VStr m /\ is_valid_map (lower m) = true.
Proof.
  cbv zeta. rewrite cleaned_map_link.
  pose proof (extract_location_origin src use_ai) as O.
  destruct (map_link (extract_location src use_ai)) as [m|]; [|now left].
  cbn [of_opt_str]. destruct (validate_url (VStr m)) as [u|] eqn:V; [|now left].
  right. exists u. split; [reflexivity|].
  apply (validate_url_keeps_map_shape m V). now apply (link_origin_valid O).
Qed.

(** A link found on the page holds no sitemap marker once cleaned. *)
Lemma cleaned_page_link_unmarked src use_ai m :
  map_link (extract_location src use_ai) = page_map_link src ->
  get (clean_location (dict_of_location (extract_location src use_ai))) (lit "map_link")
  = VStr m ->
  sitemap_marked (lower m) = false.
Proof.
  intros E. rewrite cleaned_map_link, E.
  destruct (page_map_link src) as [found|] eqn:P; [|discriminate].
  cbn [of_opt_str]. destruct (validate_url (VStr found)) as [u|] eqn:V; [|discriminate].
  intro H. injection H as <-.
  apply (validate_url_keeps_map_shape found V). now apply (page_map_link_ok src).
Qed.

(** ** Dictionaries *)

Lemma lookup_dict_set_same d k v : lookup k (dict_set d k v) = Some v.
Proof.
  induction d as [|[k' v'] d IH]; simpl.
  - now rewrite str_eqb_refl.
  - destruct (str_eqb k k') eqn:E; simpl; rewrite E; [reflexivity | exact IH].
Qed.

Lemma lookup_dict_set_other d k v k' :
  str_eqb k' k = false -> lookup k' (dict_set d k v) = lookup k' d.
Proof.
  intro N. induction d as [|[k0 v0] d IH]; simpl.
  - now rewrite N.
  - destruct (str_eqb k k0) eqn:E; simpl.
    + apply str_eqb_eq in E. subst k0. now rewrite N.
    + destruct (str_eqb k' k0); [reflexivity | exact IH].
Qed.

Lemma get_dict_set_same d k v : get (dict_set d k v) k = v.
Proof. unfold get. now rewrite lookup_dict_set_same. Qed.

Lemma get_dict_set_other d k v k' :
  str_eqb k' k = false -> get (dict_set d k v) k' = get d k'.
Proof. intro N. unfold get. now rewrite lookup_dict_set_other. Qed.

Lemma get_default_dict_set_other d k v k' dflt :
  str_eqb k' k = false -> get_default (dict_set d k v) k' dflt = get_default d k' dflt.
Proof. intro N. unfold get_default. now rewrite lookup_dict_set_other. Qed.

(** ** Logged computations *)

Lemma then_ok (A B : Type) (m : logged A) (k : A -> logged B) tr b :
  then_ m k = (tr, Ok b) ->
  exists a t1 t2, m = (t1, Ok a) /\ k a = (t2, Ok b) /\ tr = t1 ++ t2.
Proof.
  unfold then_. destruct m as [t1 [a|e]]; cbn [fst snd]; intro H; [|discriminate].
  exists a, t1, (fst (k a)). destruct (k a) as [t2 r]. cbn [fst snd] in *.
  injection H as <- <-. repeat split.
Qed.

Lemma then_value (A B : Type) (m : logged A) (k : A -> logged B) t1 a :
  m = (t1, Ok a) -> then_ m k = (t1 ++ fst (k a), snd (k a)).
Proof. intros ->. reflexivity. Qed.

Lemma then_raise (A B : Type) (m : logged A) (k : A -> logged B) t1 e :
  m = (t1, Raise e) -> then_ m k = (t1, Raise e).
Proof. intros ->. reflexivity. Qed.

Lemma request_ok (A : Type) ev (answer : result A) tr a :
  request ev answer = (tr, Ok a) -> answer = Ok a /\ tr = [ev].
Proof. unfold request. intro H. injection H as <- ->. now split. Qed.

(** ** The raw record of the first extraction *)

Lemma no_int_of_opt_float o : no_int (of_opt_float o).
Proof. now destruct o. Qed.

Lemma no_float_of_opt_int o : no_float (of_opt_int o).
Proof. now destruct o. Qed.

Lemma assemble_url url sa page : get (assemble url sa page) (lit "url") = VStr url.
Proof. reflexivity. Qed.

Lemma assemble_property_type url sa page :
  get (assemble url sa page) (lit "property_type") = of_opt_str (found_property_type page).
Proof. reflexivity. Qed.

Lemma assemble_price url sa page :
  get (assemble url sa page) (lit "price") = of_opt_float (found_price page).
Proof. reflexivity. Qed.

Lemma assemble_location url sa page :
  lookup (lit "location") (assemble url sa page)
  = Some (VDict (dict_of_location (extract_location (location_of_page page) true))).
Proof. reflexivity. Qed.

Lemma assemble_location_get url sa page :
  get (assemble url sa page) (lit "location")
  = VDict (dict_of_location (extract_location (location_of_page page) true)).
Proof. reflexivity. Qed.

Lemma assemble_images url sa page :
  lookup (lit "images") (assemble url sa page)
  = Some (VList (map VStr (fst (extract_images (images_of_page page) 15 true)))).
Proof. reflexivity. Qed.

Lemma assemble_typed url sa page : numbers_typed (assemble url sa page).
Proof.
  repeat split.
  - rewrite assemble_price. apply no_int_of_opt_float.
  - change (no_float (of_opt_int (c_size_m2 (found_characteristics page)))).
    apply no_float_of_opt_int.
  - change (no_float (of_opt_int (c_bedrooms (found_characteristics page)))).
    apply no_float_of_opt_int.
  - change (no_float (of_opt_int (c_suites (found_characteristics page)))).
    apply no_float_of_opt_int.
  - change (no_float (of_opt_int (c_bathrooms (found_characteristics page)))).
    apply no_float_of_opt_int.
  - change (no_float (of_opt_int (c_garage (found_characteristics page)))).
    apply no_float_of_opt_int.
Qed.

(** The first extraction, when it returns: the page it read, its raw record
    and its events. *)
Lemma initial_extraction_ok s url tr data :
  initial_extraction s url = (tr, Ok data) ->
  exists page nav,
    first_page s = Ok page
    /\ 1000 <= List.length (markup page)
    /\ data = assemble url (clock s ++ lit "Z") page
    /\ navigate s url = (nav, Ok tt)
    /\ tr = nav ++ [EvRateLimit; EvWaitForPageLoad; EvPageSource] ++ first_calls.
Proof.
  unfold initial_extraction. destruct (driver_initialised s); cbn [negb]; [|discriminate].
  intro H.
  apply then_ok in H as ([] & nav & t2 & N & H & ->).
  apply then_ok in H as ([] & t3 & t4 & R & H & ->).
  apply then_ok in H as ([] & t5 & t6 & W & H & ->).
  apply then_ok in H as (page & t7 & t8 & P & H & ->).
  apply request_ok in W as [_ ->]. apply request_ok in P as [P ->].
  injection R as <-.
  destruct (List.length (markup page) <? 1000) eqn:L; [discriminate|].
  apply Nat.ltb_ge in L. injection H as <- <-.
  exists page, nav. repeat split; assumption.
Qed.

(** ** The re-extraction pass *)

(** The pass when the second reading of the markup succeeds. *)
Lemma reextraction_value s data page :
  second_page s = Ok page ->
  exists missing,
    location_missing
      (let data1 :=
         if negb (truthy (get data (lit "property_type")))
         then dict_set data (lit "property_type") (of_opt_str (found_property_type page))
         else data in
       if negb (truthy (get data1 (lit "price")))
       then dict_set data1 (lit "price") (of_opt_float (found_price page))
       else data1) = missing
    /\ reextraction s data
       = match missing with
         | Ok b => (EvSleep 5 :: EvPageSource :: reextraction_calls data b,
                    Ok (reextracted data page b))
         | Raise e =>
             (EvSleep 5 :: EvPageSource :: reextraction_calls data false, Raise e)
         end.
Proof.
  intro P. eexists. split; [reflexivity|].
  unfold reextraction, reextraction_calls, reextracted. rewrite P. cbv zeta.
  unfold then_, request, step, ret. cbn [fst snd app].
  destruct (negb (truthy (get data (lit "property_type")))); cbn [fst snd app];
    rewrite ?get_dict_set_other by reflexivity;
    destruct (negb (truthy (get data (lit "price")))); cbn [fst snd app];
    match goal with
    | |- context [location_missing ?d] => destruct (location_missing d) as [[]|]
    end; reflexivity.
Qed.

(** The pass when the second reading of the markup raises. *)
Lemma reextraction_raise s data e :
  second_page s = Raise e ->
  reextraction s data = ([EvSleep 5; EvPageSource], Raise e).
Proof. intro P. unfold reextraction. rewrite P. reflexivity. Qed.

Lemma location_missing_cases data b :
  location_missing data = Ok b ->
  b = negb (truthy (get data (lit "location")))
      || match get data (lit "location") with
         | VDict d => negb (truthy (get d (lit "city")))
         | _ => false
         end.
Proof.
  unfold location_missing, get_default, get.
  destruct (lookup (lit "location") data) as [v|]; cbn [truthy negb].
  - destruct (truthy v) eqn:T; cbn [negb orb].
    + destruct v; try discriminate; intro H; now injection H.
    + intro H. now injection H.
  - intro H. now injection H.
Qed.

(** What the pass keeps and what it may write. *)
Lemma reextracted_fields data page missing :
  get (reextracted data page missing) (lit "url") = get data (lit "url")
  /\ lookup (lit "images") (reextracted data page missing) = lookup (lit "images") data
  /\ (lookup (lit "location") (reextracted data page missing)
      = if missing
        then Some (VDict (dict_of_location (extract_location (location_of_page page) true)))
        else lookup (lit "location") data)
  /\ (numbers_typed data -> numbers_typed (reextracted data page missing)).
Proof.
  unfold reextracted. cbv zeta.
  set (c1 := negb (truthy (get data (lit "property_type")))).
  set (d1 := if c1 then _ else data).
  set (c2 := negb (truthy (get d1 (lit "price")))).
  set (d2 := if c2 then _ else d1).
  assert (K1 : forall k, str_eqb k (lit "property_type") = false ->
                         lookup k d1 = lookup k data).
  { intros k N. unfold d1. destruct c1; [now apply lookup_dict_set_other | reflexivity]. }
  assert (K2 : forall k, str_eqb k (lit "price") = false ->
                         str_eqb k (lit "property_type") = false ->
                         lookup k d2 = lookup k data).
  { intros k N1 N2. unfold d2. destruct c2; [|now apply K1].
    rewrite lookup_dict_set_other by exact N1. now apply K1. }
  assert (K3 : forall k, str_eqb k (lit "location") = false ->
                         lookup k (if missing then dict_set d2 (lit "location")
                                     (VDict (dict_of_location
                                        (extract_location (location_of_page page) true)))
                                   else d2) = lookup k d2).
  { intros k N. destruct missing; [now apply lookup_dict_set_other | reflexivity]. }
  assert (G : forall k, str_eqb k (lit "location") = false ->
                        str_eqb k (lit "price") = false ->
                        str_eqb k (lit "property_type") = false ->
                        get (if missing then dict_set d2 (lit "location")
                                     (VDict (dict_of_location
                                        (extract_location (location_of_page page) true)))
                             else d2) k = get data k).
  { intros k N1 N2 N3. unfold get. now rewrite K3, K2. }
  split; [now apply G|].
  split; [rewrite K3, K2; reflexivity|].
  split.
  { destruct missing; [apply lookup_dict_set_same | now rewrite K2]. }
  intros (Tp & T1 & T2 & T3 & T4 & T5).
  repeat split; try (rewrite G by reflexivity; assumption).
  unfold get. rewrite K3 by reflexivity. fold (get d2 (lit "price")).
  unfold d2. destruct c2.
  - rewrite get_dict_set_same. apply no_int_of_opt_float.
  - unfold get. rewrite K1 by reflexivity. exact Tp.
Qed.

(** ** What the cleaner writes *)

Lemma clean_data_fields d r :
  clean_data d = Ok r ->
  get r (lit "url") = of_opt_str (validate_url (get d (lit "url")))
  /\ get r (lit "location")
     = VDict match lookup (lit "location") d with
             | Some (VDict location) => clean_location location
             | _ => empty_location
             end
  /\ get r (lit "images")
     = VList (map VStr match get_default d (lit "images") (VList []) with
                       | VList images => firstn 15 (validated_images images)
                       | _ => []
                       end).
Proof.
  unfold clean_data.
  destruct (validate_price _) as [price|]; [|discriminate].
  destruct (validate_int_value (get d (lit "size_m2")) 1 None) as [sz|]; [|discriminate].
  destruct (validate_int_value (get d (lit "bedrooms")) 0 None) as [be|]; [|discriminate].
  destruct (validate_int_value (get d (lit "suites")) 0 None) as [su|]; [|discriminate].
  destruct (validate_int_value (get d (lit "bathrooms")) 0 None) as [ba|]; [|discriminate].
  destruct (validate_int_value (get d (lit "garage")) 0 None) as [ga|]; [|discriminate].
  cbn [bind]. cbv zeta. intro H. apply Ok_inj in H. subst r. repeat split.
Qed.


(** ** The record assembler, as a whole *)

Lemma extracted_count_zero data :
  (extracted_count data =? 0)%nat = essentials_absent data.
Proof.
  unfold extracted_count, essentials_absent, essential_fields. cbn [filter forallb].
  destruct (essential_found data (lit "property_type"));
    destruct (essential_found data (lit "price"));
    destruct (essential_found data (lit "location")); reflexivity.
Qed.

(** On the raw record of the first extraction, the check reads the three
    results: the type, the price and the city of the location. *)
Lemma essentials_absent_assemble url sa page :
  essentials_absent (assemble url sa page) = true
  <-> found_property_type page = None
      /\ found_price page = None
      /\ city (extract_location (location_of_page page) true) = None.
Proof.
  unfold essentials_absent, essential_fields, essential_found. cbn [forallb].
  rewrite assemble_property_type, assemble_price, assemble_location_get.
  generalize (extract_location (location_of_page page) true). intro l.
  change (get (dict_of_location l) (lit "city")) with (of_opt_str (city l)).
  generalize (city l). intro c.
  destruct (found_property_type page), (found_price page), c;
    cbn [of_opt_str of_opt_float is_none negb andb];
    split; try discriminate; try tauto; intros (A & B & C); discriminate.
Qed.

Lemma navigate_events s url : Forall navigation_event (fst (navigate s url)).
Proof.
  unfold navigate, then_, request, step, ret. cbn [fst snd app].
  destruct (get_first s); cbn [fst snd app];
    [destruct (current_url_first s) as [cur|]; cbn [fst snd app];
     [destruct (negb (same_page url cur)); cbn [fst snd app];
      [destruct (get_second s); cbn [fst snd app];
       [destruct (current_url_second s); cbn [fst snd app]|]|]|]|];
    repeat (apply Forall_cons;
            [first [ left; reflexivity
                   | right; left; reflexivity
                   | right; right; left; reflexivity
                   | right; right; right; reflexivity ]|]);
    apply Forall_nil.
Qed.

Lemma first_events_no_pass s url tr data :
  initial_extraction s url = (tr, Ok data) ->
  ~ In (EvSleep 5) tr /\ ~ In EvCleanData tr.
Proof.
  intro H. apply initial_extraction_ok in H as (page & nav & _ & _ & _ & N & ->).
  pose proof (navigate_events s url) as F. rewrite N in F. cbn [fst] in F.
  rewrite Forall_forall in F.
  split; intro K; apply in_app_or in K as [K|K];
    try (apply F in K; unfold navigation_event in K;
         destruct K as [K|[K|[K|K]]]; discriminate);
    cbn in K; repeat (destruct K as [K|K]; [discriminate|]); exact K.
Qed.

(** [scrape], once the first extraction has returned. *)
Lemma scrape_after_first s url tr data :
  initial_extraction s url = (tr, Ok data) ->
  scrape s url
  = if essentials_absent data
    then match reextraction s data with
         | (pass, Ok data') => (tr ++ pass ++ [EvCleanData], clean_data data')
         | (pass, Raise e) => (tr ++ pass, Raise e)
         end
    else (tr ++ [EvCleanData], clean_data data).
Proof.
  intro H. unfold scrape. rewrite (then_value _ H). rewrite extracted_count_zero.
  destruct (essentials_absent data).
  - destruct (reextraction s data) as [pass [data'|e]]; unfold then_, request;
      cbn [fst snd]; now rewrite ?app_nil_r.
  - reflexivity.
Qed.

(** The raw record [scrape] hands to the cleaner, when it returns. *)
Lemma scrape_ok s url tr r :
  scrape s url = (tr, Ok r) ->
  exists page data,
    first_page s = Ok page
    /\ clean_data data = Ok r
    /\ get data (lit "url") = VStr url
    /\ lookup (lit "images") data
       = Some (VList (map VStr (fst (extract_images (images_of_page page) 15 true))))
    /\ exists page',
         (page' = page \/ second_page s = Ok page')
         /\ lookup (lit "location") data
            = Some (VDict (dict_of_location
                             (extract_location (location_of_page page') true))).
Proof.
  intro H. pose proof H as H0. unfold scrape in H0.
  apply then_ok in H0 as (data & t1 & t2 & I & _ & _).
  rewrite (scrape_after_first _ _ I) in H.
  pose proof I as I'. apply initial_extraction_ok in I' as (page & nav & P & _ & D & _ & _).
  exists page.
  destruct (essentials_absent data).
  - destruct (second_page s) as [page2|e] eqn:P2.
    + destruct (reextraction_value s data P2) as (missing & M & R). rewrite R in H.
      destruct missing as [b|e]; [|discriminate].
      injection H as _ H.
      destruct (reextracted_fields data page2 b) as (F1 & F2 & F3 & _).
      exists (reextracted data page2 b). split; [exact P|]. split; [exact H|].
      split; [rewrite F1, D; apply assemble_url|].
      split; [rewrite F2, D; apply assemble_images|].
      rewrite F3. destruct b.
      * exists page2. split; [now right | reflexivity].
      * exists page. split; [now left | rewrite D; apply assemble_location].
    + rewrite (reextraction_raise s data P2) in H. discriminate.
  - injection H as _ H. exists data. split; [exact P|]. split; [exact H|].
    rewrite D. split; [apply assemble_url|]. split; [apply assemble_images|].
    exists page. split; [now left | apply assemble_location].
Qed.

Lemma startswith_two_slashes s :
  startswith (lit "//") s = true -> startswith (lit "/") s = true.
Proof.
  destruct s as [|a s]; [discriminate|].
  unfold lit. cbn [list_ascii_of_string startswith].
  intro H. apply andb_true_iff in H as [H _]. now rewrite H.
Qed.

(** ** C4: the address of the record *)

(** C4, as amended.  When [scrape] returns, the [url] of the record is what
    [validate_url] makes of the requested address, whatever the extractors
    found and whether or not the re-extraction pass ran: the address without
    the whitespace around it when that matches the URL pattern; and nothing
    (the field is absent) when it neither matches nor starts with [/]. *)
Theorem scrape_url_is_validated_request (s : session) (url : pystr) tr r :
  scrape s url = (tr, Ok r) ->
  get r (lit "url") = of_opt_str (validate_url (VStr url))
  /\ (url_pattern_match (strip url) = true -> get r (lit "url") = VStr (strip url))
  /\ (url_pattern_match (strip url) = false ->
      startswith (lit "/") (strip url) = false ->
      get r (lit "url") = VNone).
Proof.
  intro H. apply scrape_ok in H as (page & data & _ & C & U & _).
  apply clean_data_fields in C as (-> & _). rewrite U.
  split; [reflexivity|].
  unfold validate_url. cbn [truthy py_str]. cbv zeta.
  split.
  - intro M. rewrite M.
    assert (N : nonempty url = true).
    { destruct url; [vm_compute in M; discriminate | reflexivity]. }
    now rewrite N.
  - intros M S. rewrite M, S.
    assert (S2 : startswith (lit "//") (strip url) = false).
    { destruct (startswith (lit "//") (strip url)) eqn:E; [|reflexivity].
      apply startswith_two_slashes in E. congruence. }
    rewrite S2. now destruct (negb (nonempty url)).
Qed.

(** ** C2: the images of the record *)

Lemma validated_images_length l : List.length (validated_images l) <= List.length l.
Proof.
  unfold validated_images. induction l as [|x l IH]; simpl; [lia|].
  rewrite length_app.
  destruct (validate_url x) as [u|]; [destruct (nonempty u)|]; simpl; lia.
Qed.

Lemma validated_images_unchanged l :
  Forall (fun x => validate_url (VStr x) = Some x \/ validate_url (VStr x) = None) l ->
  validated_images (map VStr l) = kept l.
Proof.
  unfold validated_images, kept.
  induction 1 as [|x l Hx _ IH]; simpl; [reflexivity|].
  rewrite IH. destruct Hx as [Hx|Hx]; rewrite Hx; [|reflexivity].
  destruct (validate_url_trimmed _ Hx) as [_ N]. now rewrite N.
Qed.

(** C2, as amended.  The [images] of a record the pipeline produces are what
    [validate_url] makes of the entries of the resolver's list, in order,
    the entries it rejects left out.  The resolver's list holds at most 15
    entries and no two identical ones (compared as they are: query strings
    are not stripped), so the record holds at most 15 images.  Each image
    comes from one entry of the resolver; it matches the URL pattern unless
    that entry started with [/] and was repaired.  When [validate_url]
    changes no entry of the resolver, the images are pairwise different. *)
Theorem scrape_images_bounded_and_validated (s : session) (url : pystr) tr r :
  scrape s url = (tr, Ok r) ->
  exists page,
    first_page s = Ok page
    /\ let raw := fst (extract_images (images_of_page page) 15 true) in
       let imgs := validated_images (map VStr raw) in
       get r (lit "images") = VList (map VStr imgs)
       /\ NoDup raw
       /\ List.length raw <= 15
       /\ List.length imgs <= 15
       /\ Forall (fun e => exists x, In x raw /\ validate_url (VStr x) = Some e
                                     /\ (url_pattern_match e = true
                                         \/ startswith (lit "/") (strip x) = true)) imgs
       /\ (Forall (fun x => validate_url (VStr x) = Some x
                            \/ validate_url (VStr x) = None) raw ->
           imgs = kept raw /\ NoDup imgs).
Proof.
  intro H. apply scrape_ok in H as (page & data & P & C & _ & I & _).
  exists page. split; [exact P|]. cbv zeta.
  set (raw := fst (extract_images (images_of_page page) 15 true)).
  destruct (@extract_images_distinct (images_of_page page) 15 true ltac:(lia))
    as (N & L).
  fold raw in N, L.
  assert (L15 : List.length raw <= 15) by lia.
  pose proof (validated_images_length (map VStr raw)) as LV. rewrite length_map in LV.
  apply clean_data_fields in C as (_ & _ & ->).
  unfold get_default. rewrite I. fold raw.
  rewrite firstn_all2 by lia.
  split; [reflexivity|]. split; [exact N|]. split; [exact L15|]. split; [lia|].
  split.
  - apply Forall_forall. intros e He.
    apply validated_images_In in He as (v & Hv & E).
    apply in_map_iff in Hv as (x & <- & Hx). exists x. split; [exact Hx|]. split; [exact E|].
    apply validate_url_cases in E. cbv zeta in E. cbn [py_str] in E.
    destruct E as [[-> M]|[[_ S]|[_ S]]]; [now left | right | now right].
    now apply startswith_two_slashes.
  - intro U. rewrite (validated_images_unchanged U). split; [reflexivity|].
    now apply NoDup_filter.
Qed.

(** ** C6: the map link of the record *)

(** C6, as amended.  The location of a record the pipeline produces is the
    cleaned location of the first reading of the page, or of the second.
    Its map link comes from one of four places: nowhere, the page, the
    address parts, the oracle.  Once cleaned it is absent or has the shape of
    a map link (it contains [google.com/maps], or [maps.google], or [/maps/]
    and [google], or [lat=] and [lng=], whatever the case of the letters).  A
    link found on the page holds no [sitemap] or [mapa-do-site] marker; a
    link given by the oracle or written from the address is not screened for
    them. *)
Theorem scrape_map_link_shape (s : session) (url : pystr) tr r :
  scrape s url = (tr, Ok r) ->
  exists page,
    (first_page s = Ok page \/ second_page s = Ok page)
    /\ let found := extract_location (location_of_page page) true in
       let cleaned := clean_location (dict_of_location found) in
       get r (lit "location") = VDict cleaned
       /\ link_origin (location_of_page page) (map_link found)
       /\ (get cleaned (lit "map_link") = VNone
           \/ exists m, get cleaned (lit "map_link") = VStr m
                        /\ is_valid_map (lower m) = true)
       /\ (map_link found = page_map_link (location_of_page page) ->
           forall m, get cleaned (lit "map_link") = VStr m ->
                     sitemap_marked (lower m) = false).
Proof.
  intro H. apply scrape_ok in H as (page & data & P & C & _ & _ & page' & W & L).
  exists page'. split; [destruct W as [->|W]; [now left | now right]|].
  cbv zeta. apply clean_data_fields in C as (_ & -> & _). rewrite L.
  split; [reflexivity|].
  split; [apply extract_location_origin|].
  split; [apply cleaned_map_link_shape|].
  intros E m. now apply cleaned_page_link_unmarked.
Qed.

(** ** C8: the re-extraction pass *)

Lemma all_essentials_none_assemble url sa page :
  all_essentials_none (assemble url sa page)
  <-> essentials_absent (assemble url sa page) = true.
Proof.
  rewrite essentials_absent_assemble. unfold all_essentials_none.
  rewrite assemble_property_type, assemble_price, assemble_location_get.
  generalize (extract_location (location_of_page page) true). intro l.
  split.
  - intros (A & B & loc & C & D). injection C as <-.
    change (of_opt_str (city l) = VNone) in D.
    destruct (found_property_type page), (found_price page), (city l);
      try discriminate; auto.
  - intros (-> & -> & C). repeat split. exists (dict_of_location l).
    split; [reflexivity|]. change (of_opt_str (city l) = VNone). now rewrite C.
Qed.

(** The pass on a raw record without the three essential fields: each
    essential extractor is called again. *)
Lemma reextraction_all_absent s data page location :
  second_page s = Ok page ->
  get data (lit "property_type") = VNone ->
  get data (lit "price") = VNone ->
  get data (lit "location") = VDict location ->
  get location (lit "city") = VNone ->
  exists data',
    reextraction s data
    = ([EvSleep 5; EvPageSource; EvExtract XPropertyType; EvExtract XPrice;
        EvExtract XLocation], Ok data').
Proof.
  intros P Ept Epr El Ec. unfold reextraction. rewrite P.
  unfold then_, request, step, ret. cbn [fst snd app].
  rewrite Ept. cbn [truthy negb fst snd app].
  rewrite get_dict_set_other by reflexivity. rewrite Epr. cbn [truthy negb fst snd app].
  unfold location_missing.
  rewrite !get_dict_set_other, !get_default_dict_set_other by reflexivity.
  assert (G : get_default data (lit "location") (VDict []) = VDict location).
  { unfold get_default. unfold get in El.
    destruct (lookup (lit "location") data); [exact El | discriminate]. }
  rewrite G, El, Ec. cbn [truthy negb].
  destruct location; cbn [negb fst snd app]; eexists; reflexivity.
Qed.

(** C8.  Once the first extraction has assembled its raw record:
    - if the property type, the price and the city of the location are all
      absent, [scrape] waits five seconds and reads the markup again, once;
      if that reading succeeds it calls the three essential extractors
      again, once each, and then the cleaner; if it raises, [scrape] stops
      there;
    - if one of the three at least is there, the next thing [scrape] does is
      to call the cleaner.
    The first extraction itself holds no such wait and no call of the
    cleaner. *)
Theorem scrape_reextracts_once (s : session) (url : pystr) tr data :
  initial_extraction s url = (tr, Ok data) ->
  (all_essentials_none data ->
   fst (scrape s url)
   = tr ++ [EvSleep 5; EvPageSource]
        ++ match second_page s with
           | Ok _ => [EvExtract XPropertyType; EvExtract XPrice; EvExtract XLocation;
                      EvCleanData]
           | Raise _ => []
           end)
  /\ (~ all_essentials_none data -> fst (scrape s url) = tr ++ [EvCleanData])
  /\ ~ In (EvSleep 5) tr
  /\ ~ In EvCleanData tr.
Proof.
  intro I. pose proof (first_events_no_pass _ _ I) as [N1 N2].
  rewrite (scrape_after_first _ _ I).
  pose proof I as I'. apply initial_extraction_ok in I' as (page & nav & _ & _ & D & _ & _).
  assert (A : all_essentials_none data <-> essentials_absent data = true).
  { rewrite D. apply all_essentials_none_assemble. }
  split; [|split; [|split; assumption]].
  - intro E. pose proof E as (Ept & Epr & loc & El & Ec).
    apply A in E. rewrite E.
    destruct (second_page s) as [page2|e] eqn:P2.
    + destruct (reextraction_all_absent s data P2 Ept Epr El Ec) as (data' & ->).
      reflexivity.
    + rewrite (reextraction_raise s data P2). cbn [fst]. reflexivity.
  - intro E. destruct (essentials_absent data) eqn:B; [|reflexivity].
    exfalso. apply E, A. reflexivity.
Qed.

(* ================================================================== *)
(** * Part IX.  More of the code *)
(* ================================================================== *)

(** ** [normalize_text]: the shape of its results *)

Lemma join_cons2 (sep w w2 : pystr) ws :
  join sep (w :: w2 :: ws) = w ++ sep ++ join sep (w2 :: ws).
Proof. reflexivity. Qed.

Lemma word_no_space w c : spaceless w = true -> In c w -> is_space c = false.
Proof.
  unfold spaceless. rewrite forallb_forall. intros H I.
  apply H in I. now apply negb_true_iff in I.
Qed.

Lemma join_only_spaces ws c :
  Forall is_word ws -> In c (join (lit " ") ws) -> is_space c = true -> c = " "%char.
Proof.
  induction 1 as [|w ws [_ Hw] Hws IH]; [intros []|].
  destruct ws as [|w2 ws].
  - cbn [join]. intros I S. rewrite (@word_no_space w c Hw I) in S. discriminate.
  - rewrite join_cons2. intros I S.
    apply in_app_or in I as [I|I].
    + rewrite (@word_no_space w c Hw I) in S. discriminate.
    + apply in_app_or in I as [[<-|[]]|I]; [reflexivity|]. now apply IH.
Qed.

Lemma double_space_after_word w r :
  spaceless w = true -> contains (lit "  ") (w ++ r) = contains (lit "  ") r.
Proof.
  intro Hw. induction w as [|c w IH]; [reflexivity|].
  cbn [spaceless forallb] in Hw. apply andb_true_iff in Hw as [Hc Hw].
  cbn [app contains]. rewrite (IH Hw).
  replace (startswith (lit "  ") (c :: w ++ r)) with false; [reflexivity|].
  unfold lit. cbn [list_ascii_of_string startswith].
  destruct (Ascii.eqb_spec " " c) as [<-|]; [discriminate Hc | reflexivity].
Qed.

Lemma double_space_after_space r :
  clean_head is_space r = true ->
  contains (lit "  ") (" "%char :: r) = contains (lit "  ") r.
Proof.
  intro H. cbn [contains].
  replace (startswith (lit "  ") (" "%char :: r)) with false; [reflexivity|].
  unfold lit. cbn [list_ascii_of_string startswith].
  rewrite Ascii.eqb_refl. cbn [andb].
  destruct r as [|c r]; [reflexivity|].
  cbn [clean_head] in H.
  destruct (Ascii.eqb_spec " " c) as [<-|]; [discriminate H | reflexivity].
Qed.

Lemma join_no_double_space ws :
  Forall is_word ws -> contains (lit "  ") (join (lit " ") ws) = false.
Proof.
  induction 1 as [|w ws [Hn Hw] Hws IH]; [reflexivity|].
  destruct ws as [|w2 ws].
  - cbn [join]. rewrite <- (app_nil_r w), (@double_space_after_word w [] Hw). reflexivity.
  - rewrite join_cons2, (@double_space_after_word w _ Hw).
    change (lit " " ++ join (lit " ") (w2 :: ws))
      with (" "%char :: join (lit " ") (w2 :: ws)).
    rewrite double_space_after_space; [exact IH|].
    apply (join_words_trimmed Hws).
Qed.

(** What [normalize_text] returns is never empty, has no whitespace at
    either end, holds no whitespace but single spaces (tabs and newlines are
    gone, runs are collapsed), and is left as it is by [normalize_text]. *)
Theorem normalize_text_canonical (v : pyval) (t : pystr) :
  normalize_text v = Some t ->
  nonempty t = true
  /\ trimmed is_space t
  /\ (forall c, In c t -> is_space c = true -> c = " "%char)
  /\ contains (lit "  ") t = false
  /\ normalize_text (VStr t) = Some t.
Proof.
  intro H. pose proof (normalize_text_normal _ H) as N.
  pose proof (normalize_text_of_normal N) as F.
  destruct N as (ws & Hne & Hws & ->).
  split; [now apply join_words_nonempty|].
  split; [now apply join_words_trimmed|].
  split; [intros c; now apply join_only_spaces|].
  split; [now apply join_no_double_space | exact F].
Qed.

Lemma split_ws_nil s : split_ws s = [] <-> forallb is_space s = true.
Proof.
  unfold split_ws. induction s as [|c s IH]; [split; reflexivity|].
  cbn [pieces forallb]. destruct (is_space c); cbn [filter nonempty andb].
  - exact IH.
  - destruct (pieces s) as [|w ws]; cbn [filter nonempty]; split; discriminate.
Qed.

(** [normalize_text] gives nothing for a text exactly when the text is made
    of whitespace only (the empty text included). *)
Theorem normalize_text_blank (s : pystr) :
  normalize_text (VStr s) = None <-> forallb is_space s = true.
Proof.
  rewrite <- split_ws_nil. unfold normalize_text. cbn [truthy py_str]. cbv zeta.
  destruct s as [|c s]; [split; reflexivity|]. cbn [nonempty negb].
  pose proof (split_ws_words (c :: s)) as W.
  destruct (split_ws (c :: s)) as [|w ws] eqn:E.
  - split; reflexivity.
  - rewrite (strip_by_fixed (join_words_trimmed W) : strip _ = _).
    rewrite join_words_nonempty; [|discriminate|exact W].
    split; discriminate.
Qed.

(** ** [validate_price] *)

(** A price [validate_price] returns is a float that is not negative and not
    NaN, and [validate_price] returns it unchanged. *)
Theorem validate_price_result (v : pyval) (x : pyfloat) :
  validate_price v = Ok (Some x) ->
  float_ge0 x = true
  /\ x <> S754_nan
  /\ validate_price (VFloat x) = Ok (Some x).
Proof.
  intro H. pose proof (validate_price_ge0 _ H) as G.
  split; [exact G|]. split.
  - intros ->. discriminate G.
  - exact (validate_price_fixed _ H).
Qed.

Lemma digit_not_separator c :
  is_digit c = true -> Ascii.eqb c "." = false /\ Ascii.eqb c "," = false.
Proof.
  intro D. split.
  - destruct (Ascii.eqb_spec c "."); [subst; discriminate D | reflexivity].
  - destruct (Ascii.eqb_spec c ","); [subst; discriminate D | reflexivity].
Qed.

Lemma price_char_cases c :
  (c = "."%char /\ price_char c = true /\ is_digit c = false)
  \/ (c = ","%char /\ price_char c = true /\ is_digit c = false)
  \/ (c <> "."%char /\ c <> ","%char /\ price_char c = is_digit c).
Proof.
  unfold price_char.
  destruct (Ascii.eqb_spec c ".") as [->|N1]; [left; repeat split|].
  destruct (Ascii.eqb_spec c ",") as [->|N2]; [right; left; repeat split|].
  right; right. repeat split; try assumption. now rewrite !orb_false_r.
Qed.

Lemma eqb_neq_false (a b : ascii) : a <> b -> Ascii.eqb a b = false.
Proof. intro N. now destruct (Ascii.eqb_spec a b). Qed.

Lemma replace_char_cons c by_ x s :
  replace_char c by_ (x :: s) = (if Ascii.eqb x c then by_ else [x]) ++ replace_char c by_ s.
Proof. reflexivity. Qed.

Lemma count_char_cons c x s :
  count_char c (x :: s) = (if Ascii.eqb c x then 1 else 0) + count_char c s.
Proof. unfold count_char. cbn [filter]. now destruct (Ascii.eqb c x). Qed.

(** The dots of a price text after its commas were turned into dots. *)
Lemma dots_after_commas s :
  count_char "." (replace_char "," (lit ".") (filter price_char s))
  = count_char "." s + count_char "," s.
Proof.
  induction s as [|c s IH]; [reflexivity|].
  cbn [filter]. rewrite !(count_char_cons _ c).
  destruct (price_char_cases c) as [(-> & P & _)|[(-> & P & _)|(N1 & N2 & P)]].
  - rewrite P, replace_char_cons.
    change (Ascii.eqb "." ",") with false. change (Ascii.eqb "." ".") with true.
    change (Ascii.eqb "," ".") with false. cbv iota. cbn [app].
    rewrite count_char_cons. change (Ascii.eqb "." ".") with true. cbv iota.
    rewrite IH. lia.
  - rewrite P, replace_char_cons.
    change (Ascii.eqb "." ",") with false. change (Ascii.eqb "," ",") with true.
    cbv iota. unfold lit. cbn [list_ascii_of_string app].
    rewrite count_char_cons. change (Ascii.eqb "." ".") with true. cbv iota.
    change (lit ".") with ["."%char] in IH. rewrite IH. lia.
  - rewrite (eqb_neq_false (not_eq_sym N1)), (eqb_neq_false (not_eq_sym N2)).
    destruct (price_char c) eqn:Pc; [|exact IH].
    rewrite replace_char_cons, (eqb_neq_false N2). cbn [app].
    rewrite count_char_cons, (eqb_neq_false (not_eq_sym N1)). exact IH.
Qed.

Lemma digits_without_separators s :
  replace_char "." [] (replace_char "," (lit ".") (filter price_char s))
  = filter is_digit s.
Proof.
  induction s as [|c s IH]; [reflexivity|].
  cbn [filter].
  destruct (price_char_cases c) as [(-> & P & D)|[(-> & P & D)|(N1 & N2 & P)]].
  - rewrite P, D, replace_char_cons. exact IH.
  - rewrite P, D, replace_char_cons. exact IH.
  - rewrite P. destruct (is_digit c); [|exact IH].
    rewrite replace_char_cons, (eqb_neq_false N2). cbn [app].
    rewrite replace_char_cons, (eqb_neq_false N1). cbn [app]. now rewrite IH.
Qed.

Lemma price_clean_digits s : price_clean (filter is_digit s) = filter is_digit s.
Proof.
  assert (F : filter price_char (filter is_digit s) = filter is_digit s).
  { apply filter_all. apply forallb_forall. intros c I.
    apply filter_In in I as [_ D]. unfold price_char. now rewrite D. }
  assert (R : forall l, forallb is_digit l = true ->
                        replace_char "," (lit ".") l = l /\ count_char "." l = 0).
  { induction l as [|c l IH]; [split; reflexivity|].
    cbn [forallb]. intro H. apply andb_true_iff in H as [D H].
    destruct (@digit_not_separator c D) as [N1 N2]. destruct (IH H) as [I1 I2].
    rewrite replace_char_cons, count_char_cons, N2, (Ascii.eqb_sym "." c), N1.
    cbn [app]. now rewrite I1, I2. }
  unfold price_clean. cbv zeta. rewrite F.
  destruct (R _ (filter_forallb is_digit s)) as [-> ->]. reflexivity.
Qed.

Lemma price_clean_commas s : price_clean (replace_char "," (lit ".") s) = price_clean s.
Proof.
  assert (F : filter price_char (replace_char "," (lit ".") s)
              = replace_char "," (lit ".") (filter price_char s)).
  { induction s as [|c s IH]; [reflexivity|].
    rewrite replace_char_cons. cbn [filter].
    destruct (price_char_cases c) as [(-> & P & _)|[(-> & P & _)|(N1 & N2 & P)]].
    - rewrite P, replace_char_cons.
      change (Ascii.eqb "." ",") with false. cbn [app filter].
      change (price_char ".") with true. cbv iota. now rewrite IH.
    - rewrite P, replace_char_cons.
      change (Ascii.eqb "," ",") with true. cbv iota.
      change (lit "." ++ ?x) with ("."%char :: x). cbn [filter].
      change (price_char ".") with true. cbv iota. now rewrite IH.
    - rewrite (eqb_neq_false N2). cbn [app filter].
      destruct (price_char c); [|exact IH].
      rewrite replace_char_cons, (eqb_neq_false N2). cbn [app]. now rewrite IH. }
  assert (I : forall l, replace_char "," (lit ".") (replace_char "," (lit ".") l)
                        = replace_char "," (lit ".") l).
  { induction l as [|c l IH]; [reflexivity|].
    rewrite replace_char_cons. destruct (Ascii.eqb_spec c ",") as [->|N].
    - change (lit "." ++ ?x) with ("."%char :: x).
      rewrite replace_char_cons. change (Ascii.eqb "." ",") with false.
      cbv iota. cbn [app]. now rewrite IH.
    - cbn [app]. rewrite replace_char_cons, (eqb_neq_false N). cbn [app]. now rewrite IH. }
  unfold price_clean. cbv zeta. now rewrite F, I.
Qed.

(** In a price text the comma and the dot mean the same, and with more than
    one of them in the text all are dropped: the price is then the number
    written by the digits alone (so ["1.234,56"] is read as 123456). *)
Theorem validate_price_separators (s : pystr) :
  validate_price (VStr s) = validate_price (VStr (replace_char "," (lit ".") s))
  /\ (1 < count_char "." s + count_char "," s ->
      validate_price (VStr s) = validate_price (VStr (filter is_digit s))).
Proof.
  split.
  - cbn [validate_price]. now rewrite price_clean_commas.
  - intro H. cbn [validate_price]. rewrite price_clean_digits.
    unfold price_clean. cbv zeta. rewrite dots_after_commas.
    apply Nat.ltb_lt in H. rewrite H. now rewrite digits_without_separators.
Qed.

(** ** [validate_int_value] *)

(** An integer [validate_int_value] returns is within the bounds it was
    given, and [validate_int_value] returns it unchanged. *)
Theorem validate_int_value_within_bounds (v : pyval) (min_val : Z) (max_val : option Z)
    (n : Z) :
  validate_int_value v min_val max_val = Ok (Some n) ->
  (min_val <= n)%Z
  /\ (forall m, max_val = Some m -> (n <= m)%Z)
  /\ validate_int_value (VInt n) min_val max_val = Ok (Some n).
Proof.
  intro H. pose proof (validate_int_value_fixed _ _ _ H) as F.
  cbn [of_opt_int validate_int_value] in F.
  split; [|split; [|exact F]].
  - apply Ok_inj in F. unfold in_bounds in F.
    destruct (min_val <=? n)%Z eqn:L; [now apply Z.leb_le | discriminate].
  - intros m ->. apply Ok_inj in F. unfold in_bounds in F.
    destruct (min_val <=? n)%Z; [|discriminate].
    destruct (n <=? m)%Z eqn:L; [now apply Z.leb_le | discriminate].
Qed.

(** ** Regular expressions: what a match is made of *)




Lemma cat_Void_l b : cat Void b = Void.
Proof. reflexivity. Qed.


Lemma cat_Eps_l b : cat Eps b = b.
Proof. now destruct b. Qed.















(** ** [validate_url]: only absolute URLs *)




(** ** [clean_data]: the shape of a cleaned record *)










(** ** [scrape]: when it returns, and what it costs *)

Lemma navigate_value s url :
  get_first s = Ok tt ->
  (exists c, current_url_first s = Ok c) ->
  get_second s = Ok tt ->
  (exists c, current_url_second s = Ok c) ->
  exists nav, navigate s url = (nav, Ok tt).
Proof.
  intros G1 (c1 & C1) G2 (c2 & C2).
  unfold navigate, then_, request, step, ret. rewrite G1, C1, G2, C2. cbn [fst snd app].
  destruct (negb (same_page url c1)); cbn [fst snd app]; eexists; reflexivity.
Qed.

Lemma initial_extraction_value s url nav page :
  driver_initialised s = true ->
  navigate s url = (nav, Ok tt) ->
  wait_for_page_load s = Ok tt ->
  first_page s = Ok page ->
  1000 <= List.length (markup page) ->
  initial_extraction s url
  = (nav ++ [EvRateLimit; EvWaitForPageLoad; EvPageSource] ++ first_calls,
     Ok (assemble url (clock s ++ lit "Z") page)).
Proof.
  intros D N W P L. unfold initial_extraction. rewrite D. cbn [negb].
  rewrite (then_value _ N). unfold then_, request, step. rewrite W, P. cbn [fst snd app].
  apply Nat.ltb_ge in L. rewrite L. cbn [fst snd app]. reflexivity.
Qed.

Lemma get_lookup d k v : get d k = v -> v <> VNone -> lookup k d = Some v.
Proof.
  unfold get. destruct (lookup k d); [now intros -> | congruence].
Qed.

Lemma location_missing_dict d location :
  get d (lit "location") = VDict location -> exists b, location_missing d = Ok b.
Proof.
  intro G. unfold location_missing. rewrite G.
  unfold get_default. rewrite (@get_lookup _ _ _ G) by discriminate.
  destruct (negb (truthy (VDict location))); eexists; reflexivity.
Qed.

(** The driver answering and a page of 1000 characters or more are all it
    takes for [scrape] to return a record: no extractor and no step of the
    cleaner fails on what the extractors give. *)
Theorem scrape_returns_record (s : session) (url : pystr) :
  responsive s ->
  (forall page, first_page s = Ok page -> 1000 <= List.length (markup page)) ->
  exists tr r, scrape s url = (tr, Ok r).
Proof.
  intros (D & G1 & C1 & G2 & C2 & W & (page & P) & (page2 & P2)) L.
  destruct (@navigate_value s url G1 C1 G2 C2) as (nav & N).
  pose proof (@initial_extraction_value s url nav page D N W P (L _ P)) as I.
  rewrite (scrape_after_first _ _ I).
  set (data := assemble url (clock s ++ lit "Z") page).
  assert (T : numbers_typed data) by apply assemble_typed.
  destruct (essentials_absent data).
  - destruct (reextraction_value s data P2) as (missing & M & R). rewrite R.
    assert (B : exists b, missing = Ok b).
    { rewrite <- M. cbv zeta.
      apply location_missing_dict
        with (location := dict_of_location (extract_location (location_of_page page) true)).
      repeat match goal with
             | |- context [if ?c then _ else _] => destruct c
             end;
        rewrite ?get_dict_set_other by reflexivity; apply assemble_location_get. }
    destruct B as (b & ->).
    destruct (reextracted_fields data page2 b) as (_ & _ & _ & K).
    destruct (K T) as (T0 & T1 & T2 & T3 & T4 & T5).
    destruct (clean_data_total _ T0 T1 T2 T3 T4 T5) as (r & ->).
    eexists. eexists. reflexivity.
  - destruct T as (T0 & T1 & T2 & T3 & T4 & T5).
    destruct (clean_data_total _ T0 T1 T2 T3 T4 T5) as (r & ->).
    eexists. eexists. reflexivity.
Qed.

Lemma not_extract_navigation nav :
  Forall navigation_event nav ->
  (forall x, ~ In (EvExtract x) nav) /\ ~ In EvCleanData nav.
Proof.
  rewrite Forall_forall. intro F.
  split; [intro x|]; intro K; apply F in K; unfold navigation_event in K;
    destruct K as [K|[K|[K|K]]]; discriminate.
Qed.

(** On a page of fewer than 1000 characters [scrape] never returns a record:
    it raises, and neither an extractor nor the cleaner is called.  When the
    call got as far as reading the page, what it raises is [ValueError]. *)
Theorem scrape_short_page (s : session) (url : pystr) (page : page_view) :
  first_page s = Ok page ->
  List.length (markup page) < 1000 ->
  (exists e, snd (scrape s url) = Raise e)
  /\ (forall x, ~ In (EvExtract x) (fst (scrape s url)))
  /\ ~ In EvCleanData (fst (scrape s url))
  /\ (driver_initialised s = true ->
      forall nav, navigate s url = (nav, Ok tt) ->
      wait_for_page_load s = Ok tt ->
      scrape s url
      = (nav ++ [EvRateLimit; EvWaitForPageLoad; EvPageSource], Raise ValueError)).
Proof.
  intros P L. apply Nat.ltb_lt in L.
  assert (I : exists tr e, initial_extraction s url = (tr, Raise e)
                           /\ (forall x, ~ In (EvExtract x) tr) /\ ~ In EvCleanData tr
                           /\ (driver_initialised s = true ->
                               forall nav, navigate s url = (nav, Ok tt) ->
                               wait_for_page_load s = Ok tt ->
                               tr = nav ++ [EvRateLimit; EvWaitForPageLoad; EvPageSource]
                               /\ e = ValueError)).
  { unfold initial_extraction.
    destruct (driver_initialised s); cbn [negb].
    2:{ exists [], RuntimeError. split; [reflexivity|]. split; [intros ? []|].
        split; [intros []|]. intro K. discriminate K. }
    pose proof (navigate_events s url) as F.
    destruct (navigate s url) as [nav [[]|e]] eqn:N; cbn [fst] in F;
      destruct (@not_extract_navigation nav F) as [X C].
    2:{ exists nav, e. rewrite (then_raise _ eq_refl).
        split; [reflexivity|]. split; [exact X|]. split; [exact C|].
        intros _ nav' K. discriminate K. }
    rewrite (then_value _ eq_refl). unfold then_, request, step, raise.
    cbn [fst snd app].
    destruct (wait_for_page_load s) as [[]|e]; cbn [fst snd app].
    2:{ exists (nav ++ [EvRateLimit; EvWaitForPageLoad]), e.
        split; [reflexivity|].
        split; [intros x K; apply in_app_or in K as [K|K]; [now apply (X x)|];
                cbn in K; intuition discriminate|].
        split; [intros K; apply in_app_or in K as [K|K]; [now apply C|];
                cbn in K; intuition discriminate|].
        intros _ nav' _ K. discriminate K. }
    rewrite P. cbn [fst snd app]. rewrite L. cbn [fst snd app].
    exists (nav ++ [EvRateLimit; EvWaitForPageLoad; EvPageSource]), ValueError.
    split; [reflexivity|].
    split; [intros x K; apply in_app_or in K as [K|K]; [now apply (X x)|];
            cbn in K; intuition discriminate|].
    split; [intros K; apply in_app_or in K as [K|K]; [now apply C|];
            cbn in K; intuition discriminate|].
    intros _ nav' K _. injection K as <-. now split. }
  destruct I as (tr & e & I & X & C & V).
  assert (S : scrape s url = (tr, Raise e)).
  { unfold scrape. now rewrite (then_raise _ I). }
  rewrite S. cbn [fst snd].
  split; [now exists e|]. split; [exact X|]. split; [exact C|].
  intros D nav N W. destruct (V D nav N W) as [-> ->]. reflexivity.
Qed.

Lemma times_app kind a b : times kind (a ++ b) = times kind a + times kind b.
Proof. unfold times. now rewrite filter_app, length_app. Qed.

(** The events of the first extraction, counted. *)
Lemma initial_extraction_work s url :
  let tr := fst (initial_extraction s url) in
  times is_get tr <= 2
  /\ times is_page_source tr <= 1
  /\ times is_clean_data tr = 0
  /\ forall x, times (is_extract x) tr <= 1.
Proof.
  unfold initial_extraction, navigate, then_, request, step, ret, raise.
  destruct (driver_initialised s); cbn [negb fst snd app];
    [|repeat split; try (intro x); cbn; lia].
  destruct (get_first s) as [[]|]; cbn [fst snd app];
    [|repeat split; try (intro x); cbn; lia].
  destruct (current_url_first s) as [c1|]; cbn [fst snd app];
    [|repeat split; try (intro x); cbn; lia].
  destruct (negb (same_page url c1)); cbn [fst snd app].
  - destruct (get_second s) as [[]|]; cbn [fst snd app];
      [|repeat split; try (intro x); cbn; lia].
    destruct (current_url_second s) as [c2|]; cbn [fst snd app];
      [|repeat split; try (intro x); cbn; lia].
    destruct (wait_for_page_load s) as [[]|]; cbn [fst snd app];
      [|repeat split; try (intro x); cbn; lia].
    destruct (first_page s) as [page|]; cbn [fst snd app];
      [|repeat split; try (intro x); cbn; lia].
    destruct (List.length (markup page) <? 1000); cbn [fst snd app];
      repeat split; try (intro x; destruct x); cbn; lia.
  - destruct (wait_for_page_load s) as [[]|]; cbn [fst snd app];
      [|repeat split; try (intro x); cbn; lia].
    destruct (first_page s) as [page|]; cbn [fst snd app];
      [|repeat split; try (intro x); cbn; lia].
    destruct (List.length (markup page) <? 1000); cbn [fst snd app];
      repeat split; try (intro x; destruct x); cbn; lia.
Qed.

Lemma reextraction_calls_work data b :
  times is_get (reextraction_calls data b) = 0
  /\ times is_page_source (reextraction_calls data b) = 0
  /\ times is_clean_data (reextraction_calls data b) = 0
  /\ forall x, times (is_extract x) (reextraction_calls data b)
               <= if essential x then 1 else 0.
Proof.
  unfold reextraction_calls.
  destruct (negb (truthy (get data (lit "property_type"))));
    destruct (negb (truthy (get data (lit "price")))); destruct b;
    repeat split; try (intro x; destruct x); cbn; lia.
Qed.

Lemma reextraction_pass_work data b ending :
  ending = [] \/ ending = [EvCleanData] ->
  let pass := (EvSleep 5 :: EvPageSource :: reextraction_calls data b) ++ ending in
  times is_get pass = 0
  /\ times is_page_source pass = 1
  /\ times is_clean_data pass <= 1
  /\ forall x, times (is_extract x) pass <= if essential x then 1 else 0.
Proof.
  intros E. cbv zeta.
  change (EvSleep 5 :: EvPageSource :: reextraction_calls data b)
    with ([EvSleep 5; EvPageSource] ++ reextraction_calls data b).
  destruct (reextraction_calls_work data b) as (R1 & R2 & R3 & R4).
  rewrite !times_app, R1, R2, R3.
  destruct E as [-> | ->]; (split; [reflexivity|]); (split; [reflexivity|]);
    (split; [cbn; lia|]); intro x; rewrite !times_app; specialize (R4 x);
    destruct x; cbn in *; lia.
Qed.

(** Whatever the driver and the page answer, and whether the call returns or
    raises, one call of [scrape] loads the page at most twice, reads its
    markup at most twice, calls the extractor of each essential field at
    most twice and every other extractor at most once, and calls the cleaner
    at most once. *)
Theorem scrape_bounded_work (s : session) (url : pystr) :
  times is_get (fst (scrape s url)) <= 2
  /\ times is_page_source (fst (scrape s url)) <= 2
  /\ times is_clean_data (fst (scrape s url)) <= 1
  /\ forall x, times (is_extract x) (fst (scrape s url)) <= if essential x then 2 else 1.
Proof.
  pose proof (initial_extraction_work s url) as W. cbv zeta in W.
  destruct (initial_extraction s url) as [tr0 [data|e]] eqn:I; cbn [fst] in W;
    destruct W as (W1 & W2 & W3 & W4).
  - rewrite (scrape_after_first _ _ I).
    assert (K : forall pass,
                times is_get pass = 0
                /\ times is_page_source pass = 1
                /\ times is_clean_data pass <= 1
                /\ (forall x, times (is_extract x) pass <= if essential x then 1 else 0) ->
                times is_get (tr0 ++ pass) <= 2
                /\ times is_page_source (tr0 ++ pass) <= 2
                /\ times is_clean_data (tr0 ++ pass) <= 1
                /\ forall x, times (is_extract x) (tr0 ++ pass)
                             <= if essential x then 2 else 1).
    { intros pass (P1 & P2 & P3 & P4). rewrite !times_app.
      repeat split; try lia.
      intro x. rewrite times_app. specialize (W4 x). specialize (P4 x).
      destruct (essential x); lia. }
    destruct (essentials_absent data).
    + destruct (second_page s) as [page2|e] eqn:P2.
      * destruct (reextraction_value s data P2) as (missing & _ & ->).
        destruct missing as [b|e]; cbn [fst]; apply K.
        -- apply reextraction_pass_work. now right.
        -- rewrite <- (app_nil_r (EvSleep 5 :: _)).
           apply reextraction_pass_work. now left.
      * rewrite (reextraction_raise s data P2). cbn [fst].
        rewrite !times_app.
        repeat split; try (cbn; lia).
        intro x. rewrite !times_app. specialize (W4 x).
        destruct x; cbn in *; lia.
    + cbn [fst]. rewrite !times_app.
      repeat split; try (cbn; lia).
      intro x. rewrite times_app. specialize (W4 x). destruct x; cbn in *; lia.
  - unfold scrape. rewrite (then_raise _ I). cbn [fst].
    repeat split; try lia.
    intro x. specialize (W4 x). destruct (essential x); lia.
Qed.

(** ** [retry_on_failure] *)

Lemma retry_loop_success (A : Type) (f : retried A) (max_retries : Z) (a : A) k :
  (forall d, sleep f d = Ok tt) ->
  forall todo attempt d last,
    k < todo ->
    (Z.of_nat (attempt + k) < max_retries)%Z ->
    (forall i, i < k -> exists e, call f (attempt + i) = Raise e) ->
    call f (attempt + k) = Ok a ->
    retry_loop f max_retries todo attempt d last = (failed_attempts k d ++ [RCall], Ok a).
Proof.
  intro S. induction k as [|k IH]; intros todo attempt d last T M F C.
  - destruct todo as [|todo]; [lia|]. rewrite Nat.add_0_r in C.
    cbn [retry_loop]. now rewrite C.
  - destruct todo as [|todo]; [lia|].
    destruct (F 0) as (e & E); [lia|]. rewrite Nat.add_0_r in E.
    cbn [retry_loop]. rewrite E.
    replace (Z.of_nat attempt <? max_retries - 1)%Z with true
      by (symmetry; apply Z.ltb_lt; lia).
    rewrite S. cbv zeta.
    rewrite (IH todo (Datatypes.S attempt) (next_delay d) (Some e)).
    + reflexivity.
    + lia.
    + replace (Datatypes.S attempt + k) with (attempt + Datatypes.S k) by lia. exact M.
    + intros i Hi. replace (Datatypes.S attempt + i) with (attempt + Datatypes.S i) by lia.
      apply F. lia.
    + replace (Datatypes.S attempt + k) with (attempt + Datatypes.S k) by lia. exact C.
Qed.

(** When the calls fail until one returns, within [max_retries] calls, the
    decorated function returns what that call returned; before it each
    failed call was followed by one sleep, the first of [delay] seconds and
    each of the next 1.5 times longer. *)
Theorem retry_returns_first_success (A : Type) (f : retried A) (max_retries : Z)
    (delay : pyfloat) (k : nat) (a : A) :
  (Z.of_nat k < max_retries)%Z ->
  (forall i, i < k -> exists e, call f i = Raise e) ->
  call f k = Ok a ->
  (forall d, sleep f d = Ok tt) ->
  retry_on_failure max_retries delay f = (failed_attempts k delay ++ [RCall], Ok a).
Proof.
  intros M F C S. unfold retry_on_failure.
  apply retry_loop_success; try assumption; lia.
Qed.

Lemma retry_loop_step (A : Type) (f : retried A) max_retries todo attempt d last :
  retry_loop f max_retries (Datatypes.S todo) attempt d last
  = match call f attempt with
    | Ok a => ([RCall], Ok a)
    | Raise e =>
        if (Z.of_nat attempt <? max_retries - 1)%Z then
          match sleep f d with
          | Ok _ =>
              let rest := retry_loop f max_retries todo (Datatypes.S attempt)
                            (next_delay d) (Some e) in
              (RCall :: RSleep d :: fst rest, snd rest)
          | Raise e' => ([RCall; RSleep d], Raise e')
          end
        else
          let rest := retry_loop f max_retries todo (Datatypes.S attempt) d (Some e) in
          (RCall :: fst rest, snd rest)
    end.
Proof. reflexivity. Qed.

Lemma retry_loop_exhausted (A : Type) (f : retried A) (max_retries : Z) (e : exn) k :
  (forall d, sleep f d = Ok tt) ->
  forall attempt d last,
    Z.of_nat (attempt + Datatypes.S k) = max_retries ->
    (forall i, i < k -> exists e', call f (attempt + i) = Raise e') ->
    call f (attempt + k) = Raise e ->
    retry_loop f max_retries (Datatypes.S k) attempt d last
    = (failed_attempts k d ++ [RCall], Raise e).
Proof.
  intro S. induction k as [|k IH]; intros attempt d last M F C.
  - rewrite Nat.add_0_r in C. cbn [retry_loop]. rewrite C.
    replace (Z.of_nat attempt <? max_retries - 1)%Z with false
      by (symmetry; apply Z.ltb_ge; lia).
    reflexivity.
  - destruct (F 0) as (e0 & E); [lia|]. rewrite Nat.add_0_r in E.
    rewrite retry_loop_step, E.
    replace (Z.of_nat attempt <? max_retries - 1)%Z with true
      by (symmetry; apply Z.ltb_lt; lia).
    rewrite S. cbv zeta.
    rewrite (IH (Datatypes.S attempt) (next_delay d) (Some e0)).
    + reflexivity.
    + lia.
    + intros i Hi. replace (Datatypes.S attempt + i) with (attempt + Datatypes.S i) by lia.
      apply F. lia.
    + replace (Datatypes.S attempt + k) with (attempt + Datatypes.S k) by lia. exact C.
Qed.

(** When all the [max_retries] calls fail, the decorated function raises
    what the last call raised; it slept after every failed call but the
    last. *)
Theorem retry_raises_last_exception (A : Type) (f : retried A) (max_retries : Z)
    (delay : pyfloat) (n : nat) (e : exn) :
  max_retries = Z.of_nat (Datatypes.S n) ->
  (forall i, i < n -> exists e', call f i = Raise e') ->
  call f n = Raise e ->
  (forall d, sleep f d = Ok tt) ->
  retry_on_failure max_retries delay f = (failed_attempts n delay ++ [RCall], Raise e).
Proof.
  intros M F C S. unfold retry_on_failure. rewrite M, Nat2Z.id.
  apply retry_loop_exhausted; try assumption. reflexivity.
Qed.

Lemma retry_loop_bounded (A : Type) (f : retried A) (n : nat) todo :
  forall attempt d last,
    attempt + todo = n ->
    List.length (filter is_call (fst (retry_loop f (Z.of_nat n) todo attempt d last))) <= todo
    /\ List.length (filter is_sleep (fst (retry_loop f (Z.of_nat n) todo attempt d last)))
       <= todo - 1.
Proof.
  induction todo as [|todo IH]; intros attempt d last E; [cbn; lia|].
  cbn [retry_loop].
  destruct (call f attempt) as [a|e]; [cbn; lia|].
  destruct (Z.of_nat attempt <? Z.of_nat n - 1)%Z eqn:C.
  - apply Z.ltb_lt in C.
    destruct (sleep f d) as [[]|e']; [|cbn; lia].
    cbv zeta. cbn [fst filter is_call is_sleep List.length].
    destruct (IH (Datatypes.S attempt) (next_delay d) (Some e)) as [I1 I2]; lia.
  - cbv zeta. cbn [fst filter is_call is_sleep List.length].
    destruct (IH (Datatypes.S attempt) d (Some e)) as [I1 I2]; lia.
Qed.

(** Whatever the calls do, the decorated function calls the function at
    most [max_retries] times and sleeps fewer times than that.  With
    [max_retries] at 0 or below it never calls it, and raises [TypeError]
    (there is no exception to raise again). *)
Theorem retry_bounded (A : Type) (f : retried A) (max_retries : Z) (delay : pyfloat) :
  List.length (filter is_call (fst (retry_on_failure max_retries delay f)))
  <= Z.to_nat max_retries
  /\ List.length (filter is_sleep (fst (retry_on_failure max_retries delay f)))
     <= Z.to_nat max_retries - 1
  /\ ((max_retries <= 0)%Z -> retry_on_failure max_retries delay f = ([], Raise TypeError)).
Proof.
  unfold retry_on_failure.
  destruct (Z.le_gt_cases max_retries 0) as [L|G].
  - replace (Z.to_nat max_retries) with 0 by lia. cbn. repeat split; lia.
  - destruct (@retry_loop_bounded A f (Z.to_nat max_retries) (Z.to_nat max_retries)
                0 delay None eq_refl) as [B1 B2].
    rewrite Z2Nat.id in B1, B2 by lia.
    split; [exact B1|]. split; [exact B2|]. lia.
Qed.

(** ** [_wait_for_page_load] *)

Lemma wait_for_key_unbroken p selectors :
  (forall selector e, key_wait p selector <> Broke e) ->
  snd (wait_for_key p selectors) = Ok tt
  /\ exists n, n <= List.length selectors
               /\ fst (wait_for_key p selectors) = map LKey (firstn n selectors)
               /\ Forall (fun selector => key_wait p selector = TimedOut)
                    (firstn (n - 1) selectors)
               /\ (n < List.length selectors ->
                   exists selector, nth_error selectors (n - 1) = Some selector
                                    /\ key_wait p selector = Appeared).
Proof.
  intro U. induction selectors as [|selector rest [IH1 (n & L & E & T & F)]].
  - split; [reflexivity|]. exists 0. cbn. repeat split; try lia. constructor.
  - cbn [wait_for_key].
    destruct (key_wait p selector) eqn:K; [| |now destruct (U selector e)].
    + split; [reflexivity|]. exists 1. cbn [List.length firstn map Nat.sub].
      repeat split; try lia; try constructor.
      intros _. exists selector. now split.
    + cbn [fst snd]. split; [exact IH1|]. exists (Datatypes.S n).
      cbn [List.length firstn map]. rewrite E.
      split; [lia|]. split; [reflexivity|].
      destruct n as [|n].
      * cbn [Nat.sub firstn]. split; [constructor|].
        intro H. destruct F as (x & N & _); [lia|]. cbn in L.
        destruct rest; [cbn in H; lia | ].
        cbn [firstn map] in E. cbn [wait_for_key] in E.
        destruct (key_wait p p0); cbn [fst] in E; discriminate E.
      * cbn [Nat.sub] in *. rewrite Nat.sub_0_r in *.
        split; [now constructor|].
        intro H. destruct F as (x & N & A); [lia|].
        exists x. cbn [nth_error]. now split.
Qed.

Lemma wait_for_page_load_once_unbroken p :
  unbroken p -> snd (wait_for_page_load_once p) = Ok tt.
Proof.
  intros (U1 & U2 & U3). unfold wait_for_page_load_once.
  destruct (wait_for_key_unbroken p key_selectors U3) as (K1 & _).
  destruct (body_wait p) eqn:B; [|reflexivity|now destruct (U1 e)].
  cbv zeta. rewrite K1.
  destruct (ready_wait p) eqn:R; [reflexivity | reflexivity | now destruct (U2 e)].
Qed.

(** A run in which waits time out but none breaks never raises.  If the
    body does not appear in time nothing else is done: no interception is
    enabled and there is no final sleep.  Otherwise the key selectors are
    waited for in order, up to the first that appears, and the run ends with
    the sleep of three seconds. *)
Theorem wait_for_page_load_swallows_timeouts (p : page_load) :
  unbroken p ->
  snd (wait_for_page_load_once p) = Ok tt
  /\ (body_wait p = TimedOut -> fst (wait_for_page_load_once p) = [LBody])
  /\ (body_wait p = Appeared ->
      exists n,
        n <= List.length key_selectors
        /\ fst (wait_for_page_load_once p)
           = [LBody; LReady] ++ enable_interception p
             ++ map LKey (firstn n key_selectors) ++ [LSleep3]
        /\ Forall (fun selector => key_wait p selector = TimedOut)
             (firstn (n - 1) key_selectors)).
Proof.
  intros (U1 & U2 & U3). unfold wait_for_page_load_once.
  destruct (wait_for_key_unbroken p key_selectors U3) as (K1 & n & L & E & T & _).
  destruct (body_wait p) eqn:B; [| |now destruct (U1 e)].
  - cbv zeta. rewrite K1, E.
    destruct (ready_wait p) eqn:Rw; [| |now destruct (U2 e)];
      (split; [reflexivity|]); (split; [discriminate|]);
      intros _; exists n; repeat split; assumption.
  - split; [reflexivity|]. split; [reflexivity | discriminate].
Qed.

(** Under the decorator: a run that meets nothing worse than timeouts is
    not tried again; when three runs in a row break, the method raises what
    the third raised, having slept 2 seconds, then 3. *)
Theorem wait_for_page_load_retries (runs : nat -> page_load)
    (time_sleep : pyfloat -> result unit) :
  (unbroken (runs 0) -> wait_for_page_load_retried runs time_sleep = ([RCall], Ok tt))
  /\ (forall e0 e1 e2,
        snd (wait_for_page_load_once (runs 0)) = Raise e0 ->
        snd (wait_for_page_load_once (runs 1)) = Raise e1 ->
        snd (wait_for_page_load_once (runs 2)) = Raise e2 ->
        (forall d, time_sleep d = Ok tt) ->
        wait_for_page_load_retried runs time_sleep
        = ([RCall; RSleep float_two; RCall; RSleep float_three; RCall], Raise e2)).
Proof.
  unfold wait_for_page_load_retried, retry_on_failure.
  change (Z.to_nat 3) with 3. split.
  - intro U. rewrite retry_loop_step. cbn [call].
    rewrite (wait_for_page_load_once_unbroken U). reflexivity.
  - intros e0 e1 e2 R0 R1 R2 S.
    rewrite (@retry_loop_exhausted unit _ 3 e2 2); try assumption.
    + cbn [failed_attempts app].
      replace (next_delay float_two) with float_three by (vm_compute; reflexivity).
      reflexivity.
    + reflexivity.
    + intros [|[|i]] Hi; [now exists e0 | now exists e1 | lia].
Qed.

(** ** [extract_location]: when the oracle is left alone, and where the
    fields come from *)

Lemma page_link_nonempty m : page_link_ok m -> nonempty m = true.
Proof. intros [V _]. destruct m; [discriminate V | reflexivity]. Qed.

Lemma page_link_not_site_map m : page_link_ok m -> contains (lit "mapa-do-site") m = false.
Proof.
  intros [_ U]. unfold sitemap_marked in U. apply orb_false_iff in U as [U _].
  destruct (contains (lit "mapa-do-site") m) eqn:C; [|reflexivity].
  apply contains_lower in C.
  change (lower (lit "mapa-do-site")) with (lit "mapa-do-site") in C. congruence.
Qed.

(** When the title gives a city other than ['São'] and the page gives a map
    link, the oracle is not asked and nothing is built: the location is the
    one read from the title, with the link of the page; zip code and
    complement stay absent. *)
Theorem extract_location_needs_no_oracle (src : location_sources) (parts : title_parts)
    (m : pystr) (use_ai : bool) :
  title_fields src = Ok parts ->
  present (title_city parts) = true ->
  title_city parts <> Some Sao ->
  page_map_link src = Some m ->
  extract_location src use_ai
  = {| city := title_city parts; neighborhood := title_neighborhood parts;
       street := title_street parts; number := title_number parts;
       zipcode := None; complement := None; map_link := Some m |}.
Proof.
  intros T C NS M. unfold extract_location. rewrite T, M. cbv zeta.
  pose proof (page_map_link_ok _ M) as K.
  pose proof (page_link_nonempty K) as N.
  pose proof (page_link_not_site_map K) as X.
  cbn [set_map_link city neighborhood street number zipcode complement map_link].
  set (l := {| city := title_city parts; neighborhood := title_neighborhood parts;
               street := title_street parts; number := title_number parts;
               zipcode := None; complement := None; map_link := Some m |}).
  assert (B1 : build_link_first l = l).
  { unfold build_link_first. cbn [map_link l present]. now rewrite N. }
  assert (W : wants_ai l use_ai = false).
  { unfold wants_ai, points_at_sitemap. cbn [city map_link l present]. rewrite N, X.
    fold (present (title_city parts)). rewrite C. cbn [negb orb].
    destruct (title_city parts) as [c|]; [|reflexivity].
    destruct (str_eqb c Sao) eqn:E; [|reflexivity].
    apply str_eqb_eq in E. now subst c. }
  change (build_link_last (ai_fallback src use_ai (build_link_first l)) = l).
  rewrite B1. unfold ai_fallback. rewrite W.
  unfold build_link_last, points_at_sitemap. cbn [map_link l present]. now rewrite N, X.
Qed.







(** ** [extract_property_type], [extract_modality], [extract_description] *)

Lemma type_named_found types text p :
  type_named types text = Some p ->
  In p types /\ contains (lower p) (lower text) = true.
Proof. intro H. apply find_some in H. exact H. Qed.

Lemma breadcrumb_type_found types items p :
  breadcrumb_type types items = Some p ->
  exists property_types item_text,
    types = Some property_types /\ In p property_types /\ In (Ok item_text) items
    /\ contains (lower p) (lower (strip item_text)) = true.
Proof.
  induction items as [|[item_text|e] items IH]; cbn [breadcrumb_type]; try discriminate.
  cbv zeta. destruct types as [property_types|]; [|discriminate].
  destruct (type_named property_types (strip item_text)) as [q|] eqn:E.
  - intro H. injection H as ->.
    apply type_named_found in E as [E1 E2].
    exists property_types, item_text. repeat split; try assumption. now left.
  - intro H. destruct (IH H) as (ts & it & H1 & H2 & H3 & H4).
    exists ts, it. repeat split; try assumption. now right.
Qed.

Lemma property_type_is_text p : In p property_types -> normalize_text (VStr p) = Some p.
Proof.
  intro H. repeat (destruct H as [<-|H]; [vm_compute; reflexivity|]). destruct H.
Qed.

Lemma too_small_false s : too_small s = false -> 100 <= List.length s.
Proof.
  unfold too_small. intro H. apply orb_false_iff in H as [_ H].
  apply Nat.ltb_ge in H. exact H.
Qed.

(** A property type is returned only for a page of 100 characters or
    more that has a title; it is one of the nine names of the list, written
    as in the list, its lower-case form occurs in the lower-cased title or
    in a lower-cased breadcrumb text, and the cleaner keeps it as it is. *)
Theorem extract_property_type_result (src : heading_sources) (p : pystr) :
  extract_property_type src = Some p ->
  100 <= List.length (page_source src)
  /\ In p property_types
  /\ normalize_text (VStr p) = Some p
  /\ exists t, title_text src = Ok (Some t)
       /\ (contains (lower p) (lower t) = true
           \/ exists items item_text,
                breadcrumb src = Ok items /\ In (Ok item_text) items
                /\ contains (lower p) (lower (strip item_text)) = true).
Proof.
  unfold extract_property_type.
  destruct (too_small (page_source src)) eqn:S; [discriminate|].
  apply too_small_false in S.
  destruct (title_text src) as [[t|]|e]; try discriminate.
  - destruct (type_named property_types t) as [q|] eqn:E.
    + intro H. injection H as ->. apply type_named_found in E as [E1 E2].
      split; [exact S|]. split; [exact E1|]. split; [now apply property_type_is_text|].
      exists t. split; [reflexivity|]. now left.
    + destruct (breadcrumb src) as [items|e]; [|discriminate].
      intro H. apply breadcrumb_type_found in H as (ts & it & H1 & H2 & H3 & H4).
      injection H1 as <-.
      split; [exact S|]. split; [exact H2|]. split; [now apply property_type_is_text|].
      exists t. split; [reflexivity|]. right. exists items, it. now repeat split.
  - destruct (breadcrumb src) as [items|e]; [|discriminate].
    intro H. apply breadcrumb_type_found in H as (ts & it & H1 & _). discriminate H1.
Qed.

Lemma title_modality_cases t m :
  title_modality t = Some m ->
  (m = Venda \/ m = Aluguel)
  /\ (m = Aluguel ->
      contains (lit "venda") (lower t) = false /\ contains (lit "por r$") (lower t) = false).
Proof.
  unfold title_modality. cbv zeta.
  destruct (contains (lit "venda") (lower t) || contains (lit "por r$") (lower t)) eqn:A.
  - intro H. injection H as <-. split; [now left|]. intro K. discriminate K.
  - apply orb_false_iff in A.
    destruct (contains (lit "aluguel") (lower t) || contains (lit "alugar") (lower t));
      [|discriminate].
    intro H. injection H as <-. split; [now right|]. intros _. exact A.
Qed.

Lemma url_modality_cases u m : url_modality u = Some m -> m = Venda \/ m = Aluguel.
Proof.
  unfold url_modality. cbv zeta.
  destruct (contains (lit "/venda/") (lower u)); [intro H; injection H as <-; now left|].
  destruct (contains (lit "/aluguel/") (lower u)); [|discriminate].
  intro H. injection H as <-. now right.
Qed.

Lemma modality_is_text m : m = Venda \/ m = Aluguel -> normalize_text (VStr m) = Some m.
Proof. intros [->| ->]; vm_compute; reflexivity. Qed.

(** A modality is returned only for a page of 100 characters or more; it
    is ['Venda'] or ['Aluguel'], which the cleaner keeps as it is; and
    ['Aluguel'] is never the answer for a page whose title mentions 'venda'
    or 'por r$' (in any case), whatever its address says. *)
Theorem extract_modality_result (src : heading_sources) (m : pystr) :
  extract_modality src = Some m ->
  100 <= List.length (page_source src)
  /\ (m = Venda \/ m = Aluguel)
  /\ normalize_text (VStr m) = Some m
  /\ (m = Aluguel ->
      forall t, title_text src = Ok (Some t) ->
        contains (lit "venda") (lower t) = false
        /\ contains (lit "por r$") (lower t) = false).
Proof.
  unfold extract_modality.
  destruct (too_small (page_source src)) eqn:S; [discriminate|].
  apply too_small_false in S.
  destruct (title_text src) as [[t|]|e]; try discriminate.
  - destruct (title_modality t) as [q|] eqn:E.
    + intro H. injection H as ->. apply title_modality_cases in E as [E1 E2].
      split; [exact S|]. split; [exact E1|]. split; [now apply modality_is_text|].
      intros A t' T. injection T as <-. now apply E2.
    + destruct (current_url src) as [u|e]; [|discriminate].
      intro H. apply url_modality_cases in H.
      split; [exact S|]. split; [exact H|]. split; [now apply modality_is_text|].
      intros A t' T. injection T as <-.
      unfold title_modality in E. cbv zeta in E.
      destruct (contains (lit "venda") (lower t) || contains (lit "por r$") (lower t)) eqn:B;
        [discriminate|].
      now apply orb_false_iff in B.
  - destruct (current_url src) as [u|e]; [|discriminate].
    intro H. apply url_modality_cases in H.
    split; [exact S|]. split; [exact H|]. split; [now apply modality_is_text|].
    intros _ t T. discriminate T.
Qed.

Lemma split_char_no_sep c s : Forall (fun w => ~ In c w) (split_char c s).
Proof.
  induction s as [|x s IH]; cbn [split_char].
  - constructor; [intros []|constructor].
  - destruct (Ascii.eqb x c) eqn:E.
    + constructor; [intros []|exact IH].
    + apply eqb_neq in E. destruct (split_char c s) as [|w ws].
      * constructor; [|constructor]. intros [H|[]]. congruence.
      * inversion IH as [|? ? Hw Hws]; subst. constructor; [|exact Hws].
        intros [H|H]; [congruence|now apply Hw].
Qed.

Lemma split_char_plain c w : ~ In c w -> split_char c w = [w].
Proof.
  induction w as [|x w IH]; intro H; cbn [split_char]; [reflexivity|].
  destruct (Ascii.eqb_spec x c) as [->|N]; [exfalso; apply H; now left|].
  rewrite IH; [reflexivity|]. intro K. apply H. now right.
Qed.

Lemma split_char_app c w s : ~ In c w -> split_char c (w ++ c :: s) = w :: split_char c s.
Proof.
  induction w as [|x w IH]; intro H; cbn [split_char app].
  - now rewrite Ascii.eqb_refl.
  - destruct (Ascii.eqb_spec x c) as [->|N]; [exfalso; apply H; now left|].
    rewrite IH; [reflexivity|]. intro K. apply H. now right.
Qed.

Lemma split_char_join c lines :
  lines <> [] -> Forall (fun w => ~ In c w) lines -> split_char c (join [c] lines) = lines.
Proof.
  induction lines as [|w ws IH]; [congruence|]. intros _ H.
  inversion H as [|? ? Hw Hws]; subst.
  destruct ws as [|w' ws'].
  - cbn [join]. now apply split_char_plain.
  - change (join [c] (w :: w' :: ws')) with (w ++ c :: join [c] (w' :: ws')).
    rewrite split_char_app by exact Hw. f_equal. apply IH; [discriminate|exact Hws].
Qed.

Lemma in_strip x s : In x (strip s) -> In x s.
Proof.
  intro H. destruct (strip_inside s) as (a & b & E). rewrite E.
  apply in_or_app. right. apply in_or_app. now left.
Qed.

Lemma description_lines_ok text : Forall description_line (description_lines text).
Proof.
  unfold description_lines. apply Forall_forall. intros line H.
  apply filter_In in H as [H F]. apply in_map_iff in H as (w & <- & H).
  apply andb_true_iff in F as [F1 F2]. apply negb_true_iff in F2.
  split; [exact F1|]. split; [apply strip_idempotent|]. split.
  - intro K. apply in_strip in K.
    pose proof (split_char_no_sep newline text) as N.
    rewrite Forall_forall in N. exact (N w H K).
  - apply Forall_forall. intros header Hh.
    destruct (contains header (lower (strip w))) eqn:C; [|reflexivity].
    assert (X : existsb (fun header => contains header (lower (strip w))) headers = true).
    { apply existsb_exists. now exists header. }
    congruence.
Qed.

Lemma description_among_found elements d :
  description_among elements = Some d ->
  exists element_text,
    In (Ok element_text) elements
    /\ 50 < List.length (strip element_text)
    /\ description_lines (strip element_text) <> []
    /\ d = join [newline] (description_lines (strip element_text)).
Proof.
  induction elements as [|[element_text|e] elements IH]; cbn [description_among];
    try discriminate.
  cbv zeta. intro H.
  assert (K : description_among elements = Some d ->
              exists t, In (Ok t) (Ok element_text :: elements)
                        /\ 50 < List.length (strip t)
                        /\ description_lines (strip t) <> []
                        /\ d = join [newline] (description_lines (strip t))).
  { intro G. destruct (IH G) as (t & H1 & H2). exists t. split; [now right|exact H2]. }
  destruct (50 <? List.length (strip element_text)) eqn:L; [|now apply K].
  apply Nat.ltb_lt in L.
  destruct (description_lines (strip element_text)) as [|l ls] eqn:E; [now apply K|].
  injection H as <-. exists element_text. rewrite E.
  split; [now left|]. split; [exact L|]. split; [discriminate|reflexivity].
Qed.

Lemma first_description_found find_elements selectors d :
  first_description find_elements selectors = Some d ->
  exists selector elements,
    In selector selectors /\ find_elements selector = Ok elements
    /\ description_among elements = Some d.
Proof.
  induction selectors as [|selector selectors IH]; cbn [first_description];
    [discriminate|].
  intro H.
  assert (K : first_description find_elements selectors = Some d ->
              exists sel elements,
                In sel (selector :: selectors) /\ find_elements sel = Ok elements
                /\ description_among elements = Some d).
  { intro G. destruct (IH G) as (sel & els & H1 & H2).
    exists sel, els. split; [now right|exact H2]. }
  destruct (find_elements selector) as [elements|e] eqn:F; [|now apply K].
  destruct (description_among elements) as [d'|] eqn:A; [|now apply K].
  injection H as <-. exists selector, elements. split; [now left|]. now split.
Qed.

(** A description that is returned is made of the lines of one element's
    text (stripped, and longer than 50 characters) found by one of the three
    selectors: the lines are stripped, the empty ones and those that mention
    'descrição' or 'características' (in any case) are left out, and what
    remains, one line at least, is joined by line feeds; splitting the
    description at line feeds gives these lines back. *)
Theorem extract_description_lines (src : description_sources) (d : pystr) :
  extract_description src = Some d ->
  exists selector elements element_text,
    In selector description_selectors
    /\ description_elements src selector = Ok elements
    /\ In (Ok element_text) elements
    /\ 50 < List.length (strip element_text)
    /\ d = join [newline] (description_lines (strip element_text))
    /\ split_char newline d = description_lines (strip element_text)
    /\ description_lines (strip element_text) <> []
    /\ Forall description_line (description_lines (strip element_text))
    /\ nonempty d = true.
Proof.
  unfold extract_description. destruct (description_soup src) as [[]|e]; [|discriminate].
  intro H. apply first_description_found in H as (selector & elements & H1 & H2 & H).
  apply description_among_found in H as (t & H3 & H4 & H5 & H6).
  exists selector, elements, t.
  pose proof (description_lines_ok (strip t)) as OK.
  assert (N : Forall (fun w => ~ In newline w) (description_lines (strip t))).
  { eapply Forall_impl; [|exact OK]. intros w (_ & _ & W & _). exact W. }
  repeat (split; [assumption|]).
  split; [subst d; now apply split_char_join|].
  repeat (split; [assumption|]).
  subst d. destruct (description_lines (strip t)) as [|l ls]; [congruence|].
  inversion OK as [|? ? (L & _) _]; subst.
  destruct l as [|c l]; [discriminate L|]. destruct ls; reflexivity.
Qed.

(** ** [app.py]: which scraped records [process_single_url] keeps *)

Lemma split_skipping_pieces sep skip s : split_skipping sep skip s <> [].
Proof.
  revert skip. induction s as [|x s IH]; intro skip; cbn [split_skipping]; [discriminate|].
  destruct skip as [|k]; [|apply IH].
  destruct (startswith sep (x :: s)); [discriminate|].
  destruct (split_skipping sep 0 s); discriminate.
Qed.

(** With the separator in the text, the split has two pieces at least. *)
Lemma split_str_second sep s :
  contains sep s = true -> nonempty sep = true -> 2 <= List.length (split_str sep s).
Proof.
  intros C N. unfold split_str. induction s as [|x s IH].
  - destruct sep; discriminate.
  - cbn [split_skipping]. cbn [contains] in C.
    destruct (startswith sep (x :: s)) eqn:E.
    + pose proof (@split_skipping_pieces sep (List.length sep - 1) s) as P.
      destruct (split_skipping sep (List.length sep - 1) s); [congruence|].
      cbn [List.length]. lia.
    + cbn [orb] in C. specialize (IH C).
      destruct (split_skipping sep 0 s) as [|w ws]; cbn [List.length] in *; lia.
Qed.

Lemma before_without c s : ~ In c (before c s).
Proof.
  induction s as [|x s IH]; cbn [before]; [intros []|].
  destruct (Ascii.eqb_spec x c) as [->|N]; [intros []|].
  intros [H|H]; [congruence|now apply IH].
Qed.









(** ** The four image strategies *)

Lemma mentions_false words text : mentions words text = false -> without_words words text.
Proof.
  unfold mentions, without_words. intro H. apply Forall_forall. intros word Hw.
  destruct (contains word text) eqn:C; [|reflexivity].
  assert (X : existsb (fun word => contains word text) words = true).
  { apply existsb_exists. now exists word. }
  congruence.
Qed.

Lemma contains_inner a n b s : contains (a ++ n ++ b) s = true -> contains n s = true.
Proof.
  rewrite !contains_split. intros (x & y & ->). exists (x ++ a), (b ++ y).
  now rewrite <- !app_assoc.
Qed.

Lemma names_listing text :
  contains (lit "vr-listing") text || contains (lit "/img/vr-listing/") text = true ->
  contains (lit "vr-listing") text = true.
Proof.
  intro H. apply orb_true_iff in H as [H|H]; [exact H|].
  exact (@contains_inner (lit "/img/") (lit "vr-listing") (lit "/") text H).
Qed.

Lemma contains_char c s : contains [c] s = true <-> In c s.
Proof.
  induction s as [|x s IH]; cbn [contains startswith In].
  - split; [discriminate | tauto].
  - rewrite orb_true_iff, IH, andb_true_r, Ascii.eqb_eq. split; intros [H|H]; auto.
Qed.

Lemma clean_query_plain url : ~ In "?"%char (clean_query url).
Proof.
  unfold clean_query. destruct (contains (lit "?") url) eqn:C.
  - apply before_without.
  - intro H. apply (contains_char "?") in H. change (lit "?") with ["?"%char] in C.
    congruence.
Qed.

Lemma gathered_nothing P : gathered P nothing_yet.
Proof. repeat split; constructor. Qed.

Lemma gathered_append P st url :
  gathered P st -> mem url (seen_urls st) = false -> P url ->
  gathered P (append_image st url).
Proof.
  intros [[N S] F] M Hp. rewrite S, mem_rev in M. apply mem_not_In in M.
  unfold append_image. split; [split|]; cbn [images seen_urls].
  - now apply NoDup_snoc.
  - rewrite rev_app_distr, S. reflexivity.
  - apply Forall_app. split; [exact F|]. now constructor.
Qed.

Lemma Forall_firstn_of (A : Type) (P : A -> Prop) n (l : list A) :
  Forall P l -> Forall P (firstn n l).
Proof.
  rewrite !Forall_forall. intros H x Hx. apply H. now apply In_firstn in Hx.
Qed.

Lemma slice_to_cut n l :
  exists k, slice_to n l = firstn k l /\ ((0 <= n)%Z -> k = Z.to_nat n).
Proof.
  unfold slice_to. destruct (0 <=? n)%Z eqn:E.
  - exists (Z.to_nat n). now split.
  - exists (List.length l - Z.to_nat (- n)). split; [reflexivity|].
    apply Z.leb_gt in E. lia.
Qed.

(** What the final [images[:max_images]] keeps of the loop's state. *)
Lemma gathered_slice P max_images st :
  gathered P st ->
  NoDup (slice_to max_images (images st))
  /\ ((0 <= max_images)%Z ->
      (Z.of_nat (List.length (slice_to max_images (images st))) <= max_images)%Z)
  /\ Forall P (slice_to max_images (images st)).
Proof.
  intros [[N _] F]. destruct (slice_to_cut max_images (images st)) as (k & -> & K).
  split; [now apply NoDup_firstn|]. split; [|now apply Forall_firstn_of].
  intro H. rewrite (K H). pose proof (firstn_le_length (Z.to_nat max_images) (images st)). lia.
Qed.

Lemma fold_left_invariant (A B : Type) (Inv : A -> Prop) (f : A -> B -> A) l :
  (forall a b, In b l -> Inv a -> Inv (f a b)) ->
  forall a, Inv a -> Inv (fold_left f l a).
Proof.
  induction l as [|b l IH]; intros H a Ha; cbn [fold_left]; [exact Ha|].
  apply IH; [intros a' b' Hb; apply H; now right|]. apply H; [now left|exact Ha].
Qed.

Lemma network_image_photo method url mime_type :
  network_image method url mime_type = true ->
  method = lit "Network.responseReceived"
  /\ startswith (lit "image/") mime_type = true
  /\ network_photo url.
Proof.
  unfold network_image. intro H.
  apply andb_true_iff in H as [H H5]. apply andb_true_iff in H as [H H4].
  apply andb_true_iff in H as [H H3]. apply andb_true_iff in H as [H1 H2].
  apply str_eqb_eq in H1. apply negb_true_iff in H4.
  split; [exact H1|]. split; [exact H2|].
  split; [now apply names_listing|]. split; [exact H3|now apply mentions_false].
Qed.

Lemma network_loop_gathered (P : pystr -> Prop) max_images logs st :
  (forall method url mime_type,
     In (Message method url mime_type) logs ->
     network_image method url mime_type = true -> P url) ->
  gathered P st -> gathered P (network_loop max_images logs st).
Proof.
  revert st. induction logs as [|[|e|method url mime_type] logs IH]; intros st HP G;
    cbn [network_loop]; try exact G.
  - apply IH; [|exact G]. intros m u t Hin. apply HP. now right.
  - assert (HP' : forall m u t, In (Message m u t) logs -> network_image m u t = true -> P u).
    { intros m u t Hin. apply HP. now right. }
    destruct (network_image method url mime_type && negb (mem url (seen_urls st))) eqn:E;
      [|now apply IH].
    cbv zeta. apply andb_true_iff in E as [E1 E2]. apply negb_true_iff in E2.
    assert (G' : gathered P (append_image st url)).
    { apply gathered_append; [exact G|exact E2|]. apply (HP method url mime_type); [now left|exact E1]. }
    destruct (enough max_images (append_image st url)); [exact G'|now apply IH].
Qed.

(** The images of the network strategy.  No address twice; at most
    [max_images] of them (for a [max_images] that is not negative); each one
    is the address of a response among the last 200 entries of the
    performance log whose MIME type starts with ['image/'], names
    ['vr-listing'] and one of the two image hosts, and none of the ten
    excluded words (logo, banner, icon, ...), all without regard to case. *)
Theorem network_interception_images (src : network_sources) (max_images : Z) :
  let found := extract_images_with_network_interception src max_images in
  NoDup found
  /\ ((0 <= max_images)%Z -> (Z.of_nat (List.length found) <= max_images)%Z)
  /\ Forall (fun url =>
       network_photo url
       /\ exists all_logs mime_type,
            performance_log src = Ok all_logs
            /\ In (Message (lit "Network.responseReceived") url mime_type)
                  (recent_logs all_logs)
            /\ startswith (lit "image/") mime_type = true) found.
Proof.
  cbv zeta. unfold extract_images_with_network_interception.
  destruct (scroll_page src) as [[]|e].
  - cbv zeta. apply gathered_slice.
    destruct (performance_log src) as [all_logs|e].
    + apply network_loop_gathered; [|apply gathered_nothing].
      intros method url mime_type Hin H.
      apply network_image_photo in H as (-> & H2 & H3).
      split; [exact H3|]. exists all_logs, mime_type. now repeat split.
    + cbn [network_loop]. apply gathered_nothing.
  - change (@nil pystr) with (images nothing_yet). apply gathered_slice, gathered_nothing.
Qed.

Lemma interaction_image_photo url :
  nonempty url = true -> interaction_image url = true -> interaction_photo url.
Proof.
  unfold interaction_image. intros N H. apply andb_true_iff in H as [H1 H2].
  apply negb_true_iff in H2.
  split; [exact N|]. split; [now apply names_listing|now apply mentions_false].
Qed.

Lemma interaction_loop_gathered max_images elements st :
  gathered interaction_photo st ->
  gathered interaction_photo (interaction_loop max_images elements st).
Proof.
  revert st. induction elements as [|element elements IH]; intros st G;
    cbn [interaction_loop]; [exact G|].
  destruct (enough max_images st); [exact G|].
  destruct (image_url element) as [[url|]|e]; [|now apply IH|exact G].
  destruct (nonempty url && negb (mem url (seen_urls st)) && interaction_image url) eqn:E;
    [|now apply IH].
  apply andb_true_iff in E as [E E3]. apply andb_true_iff in E as [E1 E2].
  apply negb_true_iff in E2.
  apply IH. apply gathered_append; [exact G|exact E2|now apply interaction_image_photo].
Qed.

(** The loop stops adding once there are enough images. *)
Lemma interaction_loop_bounded max_images elements st :
  (0 <= max_images)%Z ->
  (Z.of_nat (List.length (images st)) <= max_images)%Z ->
  (Z.of_nat (List.length (images (interaction_loop max_images elements st)))
   <= max_images)%Z.
Proof.
  intro M. revert st. induction elements as [|element elements IH]; intros st B;
    cbn [interaction_loop]; [exact B|].
  destruct (enough max_images st) eqn:En; [exact B|].
  destruct (image_url element) as [[url|]|e]; [|now apply IH|exact B].
  destruct (nonempty url && negb (mem url (seen_urls st)) && interaction_image url);
    [|now apply IH].
  apply IH. unfold enough in En. apply Z.leb_gt in En.
  unfold append_image. cbn [images]. rewrite length_app. cbn [List.length]. lia.
Qed.

(** The images of the interaction strategy.  No address twice; at most
    [max_images] of them, a bound the loops keep by themselves, before the
    final cut; each one is not empty, names ['vr-listing'] and none of the
    five excluded words (logo, banner, icon, avatar, profile), without
    regard to case. *)
Theorem page_interaction_images (src : interaction_sources) (max_images : Z) :
  let found := extract_images_with_page_interaction src max_images in
  NoDup found
  /\ ((0 <= max_images)%Z ->
      (Z.of_nat (List.length found) <= max_images)%Z
      /\ (interact src = Ok tt ->
          found = images (fold_left (interaction_selector src max_images)
                                    image_selectors nothing_yet)))
  /\ Forall interaction_photo found.
Proof.
  cbv zeta. unfold extract_images_with_page_interaction.
  destruct (interact src) as [[]|e].
  - set (st := fold_left (interaction_selector src max_images) image_selectors nothing_yet).
    assert (G : gathered interaction_photo st).
    { apply fold_left_invariant; [|apply gathered_nothing].
      intros a selector _ Ga. unfold interaction_selector.
      destruct (find_images src selector); [|exact Ga].
      now apply interaction_loop_gathered. }
    destruct (gathered_slice max_images G) as (G1 & G2 & G3).
    split; [exact G1|]. split; [|exact G3].
    intro M. split; [now apply G2|]. intros _.
    assert (B : (Z.of_nat (List.length (images st)) <= max_images)%Z).
    { apply (fold_left_invariant
               (fun a => (Z.of_nat (List.length (images a)) <= max_images)%Z)).
      - intros a selector _ Ba. unfold interaction_selector.
        destruct (find_images src selector); [|exact Ba].
        now apply interaction_loop_bounded.
      - exact M. }
    rewrite slice_to_firstn by exact M. apply firstn_all2. lia.
  - change (@nil pystr) with (images nothing_yet).
    destruct (gathered_slice max_images (gathered_nothing interaction_photo))
      as (G1 & G2 & G3).
    split; [exact G1|]. split; [|exact G3].
    intro M. split; [now apply G2|]. intro K. discriminate K.
Qed.

Lemma find_images_in_dict_gathered P levels obj st :
  (forall value, ld_image value = true -> P value) ->
  gathered P st -> gathered P (find_images_in_dict levels obj st).
Proof.
  intro HP. revert obj st. induction levels as [|deeper IH]; intros obj st G;
    cbn [find_images_in_dict]; [exact G|].
  destruct obj as [| | | | |l|d]; try exact G.
  - apply fold_left_invariant; [|exact G]. intros a item _ Ga. now apply IH.
  - apply fold_left_invariant; [|exact G]. intros a [key value] _ Ga. cbn [fst snd].
    destruct value as [| | | |value| |]; try now apply IH.
    destruct (contains (lit "image") (lower key)); [|now apply IH].
    destruct (ld_image value && negb (mem value (seen_urls a))) eqn:E; [|exact Ga].
    apply andb_true_iff in E as [E1 E2]. apply negb_true_iff in E2.
    apply gathered_append; [exact Ga|exact E2|now apply HP].
Qed.

Lemma json_ld_loop_gathered P scripts st :
  (forall value, ld_image value = true -> P value) ->
  gathered P st -> gathered P (fst (json_ld_loop scripts st)).
Proof.
  intro HP. revert st. induction scripts as [|[|e|data] scripts IH]; intros st G;
    cbn [json_ld_loop fst]; try exact G.
  - now apply IH.
  - apply IH. now apply find_images_in_dict_gathered.
Qed.

Lemma matches_loop_gathered (P : pystr -> Prop) max_images matches st :
  (forall found, In found matches -> P (clean_query found)) ->
  gathered P st -> gathered P (matches_loop max_images matches st).
Proof.
  revert st. induction matches as [|found matches IH]; intros st HP G;
    cbn [matches_loop]; [exact G|].
  cbv zeta.
  assert (HP' : forall f, In f matches -> P (clean_query f)).
  { intros f Hf. apply HP. now right. }
  destruct (negb (mem (clean_query found) (seen_urls st))) eqn:E; [|now apply IH].
  apply negb_true_iff in E.
  assert (G' : gathered P (append_image st (clean_query found))).
  { apply gathered_append; [exact G|exact E|]. apply HP. now left. }
  destruct (enough max_images (append_image st (clean_query found)));
    [exact G'|now apply IH].
Qed.

(** The images of the script strategy.  No address twice; at most
    [max_images] of them; each one is either a string of a JSON-LD script
    that names ['vivareal.com'] and ['vr-listing'], returned as it stands
    (with its query string, if it has one), or a match of the pattern in a
    script cut at its first question mark, which then holds none. *)
Theorem script_mining_images (src : script_sources) (max_images : Z) :
  let found := extract_images_from_scripts src max_images in
  NoDup found
  /\ ((0 <= max_images)%Z -> (Z.of_nat (List.length found) <= max_images)%Z)
  /\ Forall (script_photo src) found.
Proof.
  cbv zeta. unfold extract_images_from_scripts.
  destruct (script_soup src) as [[]|e].
  - pose proof (@json_ld_loop_gathered (script_photo src) (json_ld_scripts src) nothing_yet)
      as G.
    destruct (json_ld_loop (json_ld_scripts src) nothing_yet) as [st aborted].
    cbn [fst] in G.
    assert (G0 : gathered (script_photo src) st).
    { apply G; [|apply gathered_nothing]. intros value H. now left. }
    destruct aborted; apply gathered_slice; [exact G0|].
    apply fold_left_invariant; [|exact G0].
    intros a matches Hm Ga. apply matches_loop_gathered; [|exact Ga].
    intros f Hf. right. split; [apply clean_query_plain|].
    now exists matches, f.
  - change (@nil pystr) with (images nothing_yet). apply gathered_slice, gathered_nothing.
Qed.

Lemma collect_candidate_gathered (P : pystr -> Prop) keep urls st :
  (forall url, keep (clean_query url) = true -> P (clean_query url)) ->
  gathered P st -> gathered P (fold_left (collect_candidate keep) urls st).
Proof.
  intros HP G. apply fold_left_invariant; [|exact G].
  intros a url _ Ga. unfold collect_candidate. cbv zeta.
  destruct (negb (mem (clean_query url) (seen_urls a)) && keep (clean_query url)) eqn:E;
    [|exact Ga].
  apply andb_true_iff in E as [E1 E2]. apply negb_true_iff in E1.
  apply gathered_append; [exact Ga|exact E1|now apply HP].
Qed.

Lemma vivareal_urls_gathered src :
  NoDup (vivareal_urls src)
  /\ Forall (fun url => ~ In "?"%char url /\ general_candidate url = true)
            (vivareal_urls src).
Proof.
  unfold vivareal_urls. cbv zeta.
  set (P := fun url => ~ In "?"%char url /\ general_candidate url = true).
  assert (G : gathered P (fold_left (collect_candidate listing_candidate)
                                    (pattern_urls src) nothing_yet)).
  { apply collect_candidate_gathered; [|apply gathered_nothing].
    intros url K. split; [apply clean_query_plain|].
    unfold general_candidate. unfold listing_candidate in K. now rewrite K. }
  set (st := fold_left (collect_candidate listing_candidate) (pattern_urls src) nothing_yet)
    in *.
  assert (G' : gathered P match images st with
                          | [] => fold_left (collect_candidate general_candidate)
                                            (general_urls src) st
                          | _ :: _ => st
                          end).
  { destruct (images st); [|exact G].
    apply collect_candidate_gathered; [|exact G].
    intros url K. split; [apply clean_query_plain|exact K]. }
  destruct G' as [[N _] F]. now split.
Qed.

Lemma valid_image_http img url :
  In url (valid_image img) ->
  startswith (lit "http") url = true
  /\ exists s, img = VStr s /\ (url = s \/ url = lit "https:" ++ s).
Proof.
  destruct img as [| | | |s| |]; cbn [valid_image]; try (intros []).
  destruct (startswith (lit "http") s) eqn:E.
  - intros [<-|[]]. split; [exact E|]. exists s. split; [reflexivity|now left].
  - destruct (startswith (lit "//") s); [|intros []].
    intros [<-|[]]. split; [reflexivity|]. exists s. split; [reflexivity|now right].
Qed.

(** The images of the fourth strategy.  At most 15 addresses, each one
    starting with ['http']: a string of the answer that does, or one that
    started with two slashes, behind ['https:'].  There are none unless the
    adapter is ready and the markup gave a candidate to list in the prompt;
    the candidates hold no address twice and no question mark, and each
    names ['vr-listing'] or ['/img/']. *)
Theorem ai_answer_images (src : ai_image_sources) :
  let found := extract_images_with_ai src in
  List.length found <= 15
  /\ Forall (fun url => startswith (lit "http") url = true) found
  /\ NoDup (vivareal_urls src)
  /\ Forall (fun url => ~ In "?"%char url /\ general_candidate url = true)
            (vivareal_urls src)
  /\ (found <> [] ->
      ai_ready src = true
      /\ vivareal_urls src <> []
      /\ exists replied,
           parsed_reply src (firstn 25 (firstn 30 (vivareal_urls src))) = Ok (VList replied)
           /\ Forall (replied_photo replied) found).
Proof.
  cbv zeta.
  destruct (vivareal_urls_gathered src) as [N F].
  assert (K : forall replied,
            Forall (fun url => startswith (lit "http") url = true
                               /\ replied_photo replied url)
                   (firstn 15 (flat_map valid_image replied))).
  { intro replied. apply Forall_firstn_of, Forall_forall. intros url H.
    apply in_flat_map in H as (img & Hi & Hu).
    apply valid_image_http in Hu as (H1 & s & -> & H2).
    split; [exact H1|]. now exists s. }
  unfold extract_images_with_ai.
  destruct (ai_ready src); cbn [negb];
    [|split; [cbn; lia|]; split; [constructor|]; repeat (split; [assumption|]);
      intro X; congruence].
  destruct (ai_client src) as [[]|e];
    [|split; [cbn; lia|]; split; [constructor|]; repeat (split; [assumption|]);
      intro X; congruence].
  destruct (vivareal_urls src) as [|u us] eqn:V;
    [split; [cbn; lia|]; split; [constructor|]; repeat (split; [assumption|]);
      intro X; congruence|].
  cbv zeta.
  destruct (parsed_reply src (firstn 25 (firstn 30 (u :: us)))) as [[| | | | |replied|]|e]
    eqn:R;
    try (split; [cbn; lia|]; split; [constructor|]; repeat (split; [assumption|]);
         intro X; congruence).
  specialize (K replied).
  split; [apply firstn_le_length|].
  split; [eapply Forall_impl; [|exact K]; intros a Ha; apply Ha|].
  repeat (split; [assumption|]).
  intros _. split; [reflexivity|]. split; [discriminate|].
  exists replied. split; [reflexivity|].
  eapply Forall_impl; [|exact K]. intros a Ha. apply Ha.
Qed.

(** ** [extract_location_with_ai]: the map link of the answer *)

Lemma append_value_length location key parts :
  List.length parts <= List.length (append_value location key parts)
  /\ (truthy (get location key) = true ->
      List.length (append_value location key parts) = S (List.length parts)).
Proof.
  unfold append_value. destruct (truthy (get location key)).
  - rewrite length_app. cbn [List.length]. split; [lia|intros _; lia].
  - split; [lia|discriminate].
Qed.

Lemma google_maps_url_names_maps parts :
  contains (lit "google.com/maps") (google_maps_url parts) = true.
Proof.
  unfold google_maps_url. cbv zeta. apply contains_app_l. vm_compute. reflexivity.
Qed.

Lemma repair_map_link_cases location repaired :
  repair_map_link location = Ok repaired ->
  (repaired = location
   /\ (forall m, get location (lit "map_link") = VStr m -> nonempty m = true ->
         contains (lit "google.com/maps") m = true
         \/ truthy (get location (lit "street")) = false
         \/ truthy (get location (lit "city")) = false))
  \/ (exists parts,
        repaired = dict_set location (lit "map_link") (VStr (google_maps_url parts))
        /\ truthy (get location (lit "map_link")) = true
        /\ truthy (get location (lit "street")) = true
        /\ truthy (get location (lit "city")) = true).
Proof.
  unfold repair_map_link.
  destruct (truthy (get location (lit "map_link"))) eqn:T.
  - unfold get_default, get in *.
    destruct (lookup (lit "map_link") location) as [v|] eqn:L; [|discriminate T].
    destruct (str_in (lit "google.com/maps") v) as [found|e] eqn:F; [|discriminate].
    cbn [bind]. destruct found; cbn [negb].
    + intro H. apply Ok_inj in H. subst repaired. left. split; [reflexivity|].
      intros m -> _. left. cbn [str_in] in F. now apply Ok_inj in F.
    + fold (get location (lit "street")). fold (get location (lit "city")).
      destruct (truthy (get location (lit "street"))) eqn:S1; cbn [andb].
      * destruct (truthy (get location (lit "city"))) eqn:S2.
        -- cbv zeta.
           set (p1 := append_value location (lit "street") []).
           set (p2 := append_value location (lit "number") p1).
           set (p3 := append_value location (lit "neighborhood") p2).
           set (p4 := append_value location (lit "city") p3).
           assert (B : 2 <= List.length p4).
           { pose proof (proj2 (append_value_length location (lit "street") []) S1) as A1.
             pose proof (proj1 (append_value_length location (lit "number") p1)) as A2.
             pose proof (proj1 (append_value_length location (lit "neighborhood") p2)) as A3.
             pose proof (proj2 (append_value_length location (lit "city") p3) S2) as A4.
             fold p1 in A1, A2. fold p2 in A2, A3. fold p3 in A3, A4. fold p4 in A4.
             cbn [List.length] in A1. lia. }
           apply Nat.leb_le in B. rewrite B.
           destruct (joinable (filter truthy p4)) as [parts|e]; [|discriminate].
           cbn [bind]. intro H. apply Ok_inj in H. subst repaired.
           right. exists parts. now repeat split.
        -- intro H. apply Ok_inj in H. subst repaired. left. split; [reflexivity|].
           intros m _ _. right. now right.
      * intro H. apply Ok_inj in H. subst repaired. left. split; [reflexivity|].
        intros m _ _. right. now left.
  - intro H. apply Ok_inj in H. subst repaired. left. split; [reflexivity|].
    intros m E N. rewrite E in T. cbn [truthy] in T. congruence.
Qed.

(** The dictionary [extract_location_with_ai] returns is empty, or the
    answer with at most its map link changed.  In it, a map link that is a
    non-empty string without ['google.com/maps'] is found only beside a
    street or a city that is missing: with both there, such a link of the
    answer has been written anew as a Google Maps search of the address. *)
Theorem extract_location_with_ai_map_link (src : ai_location_sources) :
  let location := extract_location_with_ai src in
  (forall m, get location (lit "map_link") = VStr m -> nonempty m = true ->
     contains (lit "google.com/maps") m = true
     \/ truthy (get location (lit "street")) = false
     \/ truthy (get location (lit "city")) = false)
  /\ (location = []
      \/ exists replied,
           parsed_location src = Ok (VDict replied)
           /\ forall key, key <> lit "map_link" -> get location key = get replied key).
Proof.
  cbv zeta. unfold extract_location_with_ai.
  assert (E : (forall m, get [] (lit "map_link") = VStr m -> nonempty m = true ->
                 contains (lit "google.com/maps") m = true
                 \/ truthy (get [] (lit "street")) = false
                 \/ truthy (get [] (lit "city")) = false)
              /\ (@nil (pystr * pyval) = []
                  \/ exists replied,
                       parsed_location src = Ok (VDict replied)
                       /\ forall key, key <> lit "map_link" -> get [] key = get replied key)).
  { split; [intros m H; discriminate H | now left]. }
  destruct (ai_location_ready src); cbn [negb]; [|exact E].
  destruct (ai_location_client src) as [[]|e]; [|exact E].
  destruct (parsed_location src) as [[| | | | | |replied]|e]; try exact E.
  destruct (repair_map_link replied) as [repaired|e] eqn:R; [|exact E].
  apply repair_map_link_cases in R as [[-> K]|(parts & -> & T & S1 & S2)].
  - split; [exact K|]. right. exists replied. now split.
  - split.
    + intros m H _. rewrite get_dict_set_same in H. injection H as <-.
      left. apply google_maps_url_names_maps.
    + right. exists replied. split; [reflexivity|].
      intros key N. apply get_dict_set_other. now apply str_eqb_neq.
Qed.

End Program.

(* ================================================================== *)
(** * Part X.  The claims at concrete inputs *)
(* ================================================================== *)

(** ** C2 *)

(** C2 fails as stated.  One photograph fetched in two sizes gives two
    different strings in the network log; both stay in [images], and
    without their query strings they are the same URL. *)
Lemma scrape_keeps_images_differing_by_query :
  exists tr r,
    scrape no_repr two_sizes_session listing_url = (tr, Ok r)
    /\ get r (lit "images") = VList [VStr photo_small; VStr photo_large]
    /\ photo_small <> photo_large
    /\ before "?" photo_small = before "?" photo_large.
Proof.
  exists (trace_of no_repr two_sizes_session listing_url),
         (record_of no_repr two_sizes_session listing_url).
  split; [vm_compute; reflexivity|].
  split; [vm_compute; reflexivity|].
  split; [discriminate | reflexivity].
Qed.

(** C2, as amended, on that call: the record holds the two entries of the
    resolver, which are different strings. *)
Lemma scrape_images_bounded_and_validated_witness :
  scrape no_repr two_sizes_session listing_url
  = (trace_of no_repr two_sizes_session listing_url,
     Ok (record_of no_repr two_sizes_session listing_url))
  /\ exists page,
       first_page two_sizes_session = Ok page
       /\ get (record_of no_repr two_sizes_session listing_url) (lit "images")
          = VList (map VStr (validated_images no_repr
                     (map VStr (fst (extract_images (images_of_page page) 15 true)))))
       /\ NoDup (fst (extract_images (images_of_page page) 15 true)).
Proof.
  assert (H : scrape no_repr two_sizes_session listing_url
              = (trace_of no_repr two_sizes_session listing_url,
                 Ok (record_of no_repr two_sizes_session listing_url)))
    by (vm_compute; reflexivity).
  split; [exact H|].
  destruct (scrape_images_bounded_and_validated no_repr _ _ H) as (page & P & I & N & _).
  exists page. split; [exact P|]. split; [exact I | exact N].
Defined.

(** ** C3 *)

(** C3 fails as stated.  A path is repaired by putting the site in front of
    it; with a space in it the result does not match the URL pattern, and the
    second cleaning drops it. *)
Lemma clean_data_twice_drops_repaired_url :
  exists r r',
    clean_data no_repr relative_url_record = Ok r
    /\ clean_data no_repr r = Ok r'
    /\ get r (lit "url") = VStr (lit "https://www.vivareal.com.br/imovel/casa 2")
    /\ get r' (lit "url") = VNone
    /\ r' <> r.
Proof.
  exists (cleaned_of no_repr relative_url_record),
         (cleaned_of no_repr (cleaned_of no_repr relative_url_record)).
  split; [vm_compute; reflexivity|].
  split; [vm_compute; reflexivity|].
  split; [vm_compute; reflexivity|].
  split; [vm_compute; reflexivity|].
  vm_compute. discriminate.
Qed.

(** C3, as amended, on a raw record whose URLs are all well formed. *)
Lemma clean_data_idempotent_on_matching_urls_witness :
  clean_data no_repr raw_listing = Ok (cleaned_of no_repr raw_listing)
  /\ urls_match (cleaned_of no_repr raw_listing)
  /\ clean_data no_repr (cleaned_of no_repr raw_listing) = Ok (cleaned_of no_repr raw_listing).
Proof.
  assert (H : clean_data no_repr raw_listing = Ok (cleaned_of no_repr raw_listing))
    by (vm_compute; reflexivity).
  assert (U : urls_match (cleaned_of no_repr raw_listing)).
  { unfold urls_match.
    split; [vm_compute; reflexivity|]. split; [vm_compute; exact I|].
    let v := eval vm_compute in (get (cleaned_of no_repr raw_listing) (lit "images")) in
    change (get (cleaned_of no_repr raw_listing) (lit "images")) with v.
    repeat (apply Forall_cons; [vm_compute; reflexivity|]). apply Forall_nil. }
  split; [exact H|]. split; [exact U|].
  exact (clean_data_idempotent_on_matching_urls no_repr raw_listing H U).
Defined.

(** ** C4 *)

(** C4 fails as stated.  The call on an address whose top-level domain has
    more than six letters returns a record without [url]. *)
Lemma scrape_drops_unmatched_url :
  exists tr r,
    scrape no_repr long_domain_session long_domain_url = (tr, Ok r)
    /\ get r (lit "url") = VNone.
Proof.
  exists (trace_of no_repr long_domain_session long_domain_url),
         (record_of no_repr long_domain_session long_domain_url).
  split; vm_compute; reflexivity.
Qed.

(** C4, as amended, on an address of the site. *)
Lemma scrape_url_is_validated_request_witness :
  scrape no_repr two_sizes_session listing_url
  = (trace_of no_repr two_sizes_session listing_url,
     Ok (record_of no_repr two_sizes_session listing_url))
  /\ get (record_of no_repr two_sizes_session listing_url) (lit "url")
     = of_opt_str (validate_url no_repr (VStr listing_url)).
Proof.
  assert (H : scrape no_repr two_sizes_session listing_url
              = (trace_of no_repr two_sizes_session listing_url,
                 Ok (record_of no_repr two_sizes_session listing_url)))
    by (vm_compute; reflexivity).
  split; [exact H|].
  exact (proj1 (scrape_url_is_validated_request no_repr _ _ H)).
Defined.

(** ** C5 *)

(** C5 fails as stated.  The location holds a map link found on the page;
    the oracle's link replaces it all the same. *)
Lemma ai_merge_replaces_present_map_link :
  present (map_link short_city_location) = true
  /\ map_link (ai_merge full_city_answer short_city_location)
     = ai_map_link full_city_answer
  /\ map_link (ai_merge full_city_answer short_city_location)
     <> map_link short_city_location.
Proof.
  split; [reflexivity|]. split; [reflexivity|]. vm_compute. discriminate.
Qed.

(** C5, as amended, on the same location and answer: the longer city and
    the oracle's link are taken, the neighbourhood is kept. *)
Lemma ai_merge_rule_witness :
  (city short_city_location = None -> present (ai_city full_city_answer) = false)
  /\ ai_merge full_city_answer short_city_location
     = merged full_city_answer short_city_location.
Proof.
  assert (H : city short_city_location = None -> present (ai_city full_city_answer) = false)
    by (intro K; discriminate K).
  split; [exact H|].
  exact (proj1 (ai_merge_rule full_city_answer short_city_location H)).
Defined.

(** ** C6 *)

(** C6 fails as stated.  The oracle's link is taken when it holds
    [google.com/maps]; one that also holds [sitemap] reaches the record. *)
Lemma scrape_keeps_oracle_sitemap_link :
  exists tr r location m,
    scrape no_repr sitemap_session listing_url = (tr, Ok r)
    /\ get r (lit "location") = VDict location
    /\ get location (lit "map_link") = VStr m
    /\ sitemap_marked (lower m) = true.
Proof.
  exists (trace_of no_repr sitemap_session listing_url),
         (record_of no_repr sitemap_session listing_url),
         (clean_location no_repr
            (dict_of_location (extract_location (location_from no_title sitemap_answer) true))),
         (lit "https://www.google.com/maps/sitemap").
  repeat split; vm_compute; reflexivity.
Qed.

(** C6, as amended, on that call. *)
Lemma scrape_map_link_shape_witness :
  scrape no_repr sitemap_session listing_url
  = (trace_of no_repr sitemap_session listing_url,
     Ok (record_of no_repr sitemap_session listing_url))
  /\ exists page,
       (first_page sitemap_session = Ok page \/ second_page sitemap_session = Ok page)
       /\ get (record_of no_repr sitemap_session listing_url) (lit "location")
          = VDict (clean_location no_repr
                     (dict_of_location (extract_location (location_of_page page) true)))
       /\ link_origin (location_of_page page)
            (map_link (extract_location (location_of_page page) true)).
Proof.
  assert (H : scrape no_repr sitemap_session listing_url
              = (trace_of no_repr sitemap_session listing_url,
                 Ok (record_of no_repr sitemap_session listing_url)))
    by (vm_compute; reflexivity).
  split; [exact H|].
  destruct (scrape_map_link_shape no_repr _ _ H) as (page & W & L & O & _).
  exists page. split; [exact W|]. split; [exact L | exact O].
Defined.

(** ** C7 *)

(** C7 on the example of the specification: the first strategy leaves two
    images, so the second is called; three are held then, so the third and
    the oracle are not; the result is [a.jpg, b.jpg, c.jpg]. *)
Lemma extract_images_priority_witness :
  (0 <= 15)%Z
  /\ extract_images two_strategies 15 true
     = ([lit "a.jpg"; lit "b.jpg"; lit "c.jpg"], [NetworkInterception; PageInteraction]).
Proof.
  assert (H : (0 <= 15)%Z) by (vm_compute; discriminate).
  split; [exact H|].
  destruct (extract_images_priority two_strategies true H)
    as (ran2 & ran3 & ran4 & T & R2 & _ & R3 & R4 & F & _).
  cbv zeta in T, R3, R4, F.
  assert (E2 : ran2 = true) by (apply R2; vm_compute; lia).
  subst ran2.
  assert (E3 : ran3 = false).
  { destruct ran3; [|reflexivity].
    pose proof (proj1 R3 eq_refl) as K. vm_compute in K. lia. }
  subst ran3.
  assert (E4 : ran4 = false).
  { destruct ran4; [|reflexivity].
    destruct (proj1 R4 eq_refl) as [K _]. vm_compute in K. discriminate K. }
  subst ran4.
  rewrite (surjective_pairing (extract_images two_strategies 15 true)), T, F.
  reflexivity.
Defined.

(** ** C8 *)

(** C8 on a page where no extractor finds anything: one pass. *)
Lemma scrape_reextracts_once_witness :
  initial_extraction blank_session listing_url
  = (fst (initial_extraction blank_session listing_url),
     Ok (assemble listing_url (lit "2024-01-01T00:00:00Z") blank_page))
  /\ all_essentials_none (assemble listing_url (lit "2024-01-01T00:00:00Z") blank_page)
  /\ fst (scrape no_repr blank_session listing_url)
     = fst (initial_extraction blank_session listing_url)
       ++ [EvSleep 5; EvPageSource]
       ++ match second_page blank_session with
          | Ok _ => [EvExtract XPropertyType; EvExtract XPrice; EvExtract XLocation;
                     EvCleanData]
          | Raise _ => []
          end.
Proof.
  assert (H : initial_extraction blank_session listing_url
              = (fst (initial_extraction blank_session listing_url),
                 Ok (assemble listing_url (lit "2024-01-01T00:00:00Z") blank_page)))
    by (vm_compute; reflexivity).
  assert (A : all_essentials_none
                (assemble listing_url (lit "2024-01-01T00:00:00Z") blank_page)).
  { split; [reflexivity|]. split; [reflexivity|].
    exists (dict_of_location (extract_location (location_of_page blank_page) true)).
    split; reflexivity. }
  split; [exact H|]. split; [exact A|].
  exact (proj1 (scrape_reextracts_once no_repr _ _ H) A).
Defined.

(** ** C10 *)


(** ** Further facts at concrete inputs *)

(** Eight digits, with or without the hyphen, give [DDDDD-DDD]. *)
Lemma normalize_zipcode_eight_witness :
  exists z, normalize_zipcode no_repr (VStr (lit "01310-100")) = Some z
            /\ zip_pattern z = true.
Proof. apply normalize_zipcode_eight; reflexivity. Defined.

(** Seven digits give [DDDD-DDD]. *)
Lemma normalize_zipcode_seven_witness :
  exists z, normalize_zipcode no_repr (VStr (lit "1310100")) = Some z
            /\ zip_pattern z = false.
Proof. apply normalize_zipcode_seven; reflexivity. Defined.

(** A location without a city is left as it is by an answer that has one. *)
Lemma ai_merge_without_city_witness :
  ai_merge full_city_answer no_location = no_location.
Proof. apply ai_merge_without_city; reflexivity. Defined.


(** ** More of the code, at concrete inputs *)

(** Text with whitespace of several kinds around and between its words. *)
Lemma normalize_text_canonical_witness :
  normalize_text no_repr (VStr (lit "  Casa   com quintal ")) = Some (lit "Casa com quintal")
  /\ nonempty (lit "Casa com quintal") = true
  /\ trimmed is_space (lit "Casa com quintal")
  /\ contains (lit "  ") (lit "Casa com quintal") = false
  /\ normalize_text no_repr (VStr (lit "Casa com quintal")) = Some (lit "Casa com quintal").
Proof.
  assert (H : normalize_text no_repr (VStr (lit "  Casa   com quintal "))
              = Some (lit "Casa com quintal")) by (vm_compute; reflexivity).
  split; [exact H|].
  destruct (normalize_text_canonical no_repr _ H) as (H1 & H2 & _ & H4 & H5).
  repeat split; assumption.
Defined.

(** A price written with a decimal comma. *)
Lemma validate_price_result_witness :
  validate_price (VStr (lit "2,0")) = Ok (Some float_two)
  /\ float_ge0 float_two = true
  /\ float_two <> S754_nan
  /\ validate_price (VFloat float_two) = Ok (Some float_two).
Proof.
  assert (H : validate_price (VStr (lit "2,0")) = Ok (Some float_two))
    by (vm_compute; reflexivity).
  split; [exact H|]. exact (validate_price_result _ H).
Defined.

(** A count read from a text. *)
Lemma validate_int_value_within_bounds_witness :
  validate_int_value (VStr (lit "3 quartos")) 0 (Some 20%Z) = Ok (Some 3%Z)
  /\ (0 <= 3)%Z
  /\ validate_int_value (VInt 3) 0 (Some 20%Z) = Ok (Some 3%Z).
Proof.
  assert (H : validate_int_value (VStr (lit "3 quartos")) 0 (Some 20%Z) = Ok (Some 3%Z))
    by (vm_compute; reflexivity).
  split; [exact H|].
  destruct (@validate_int_value_within_bounds _ 0%Z (Some 20%Z) 3%Z H) as (H1 & _ & H3).
  split; assumption.
Defined.



(** A session in which the driver answers and the page is long enough. *)
Lemma scrape_returns_record_witness :
  responsive two_sizes_session
  /\ exists tr r, scrape no_repr two_sizes_session listing_url = (tr, Ok r).
Proof.
  assert (R : responsive two_sizes_session).
  { unfold responsive. cbn.
    repeat (split; [first [reflexivity | eexists; reflexivity]|]).
    eexists; reflexivity. }
  split; [exact R|].
  apply (@scrape_returns_record no_repr two_sizes_session listing_url R).
  intros page H. cbn in H. injection H as <-. cbn [markup apartment_page].
  rewrite repeat_length. apply Nat.le_refl.
Defined.

(** A page of 999 characters. *)
Lemma scrape_short_page_witness :
  first_page short_session = Ok short_page
  /\ List.length (markup short_page) < 1000
  /\ scrape no_repr short_session listing_url
     = (fst (navigate short_session listing_url)
          ++ [EvRateLimit; EvWaitForPageLoad; EvPageSource],
        Raise ValueError).
Proof.
  assert (H1 : first_page short_session = Ok short_page) by reflexivity.
  assert (H2 : List.length (markup short_page) < 1000).
  { cbn [markup short_page]. rewrite repeat_length. apply Nat.lt_succ_diag_r. }
  split; [exact H1|]. split; [exact H2|].
  destruct (scrape_short_page no_repr short_session listing_url H1 H2) as (_ & _ & _ & K).
  apply K; [reflexivity | vm_compute; reflexivity | reflexivity].
Defined.

(** One failure, then a result. *)
Lemma retry_returns_first_success_witness :
  retry_on_failure 3 float_two fails_once
  = ([RCall; RSleep float_two; RCall], Ok 7%Z).
Proof.
  apply (@retry_returns_first_success Z fails_once 3%Z float_two 1 7%Z).
  - reflexivity.
  - intros i Hi. destruct i as [|i]; [eexists; reflexivity|].
    exfalso. apply (Nat.nlt_0_r i). apply Nat.succ_lt_mono. exact Hi.
  - reflexivity.
  - reflexivity.
Defined.

(** Three failures. *)
Lemma retry_raises_last_exception_witness :
  retry_on_failure 3 float_two always_fails
  = ([RCall; RSleep float_two; RCall; RSleep float_three; RCall],
     Raise WebDriverException).
Proof.
  apply (@retry_raises_last_exception Z always_fails 3%Z float_two 2 WebDriverException).
  - reflexivity.
  - intros i _. eexists; reflexivity.
  - reflexivity.
  - reflexivity.
Defined.

(** A page whose body never appears: the wait returns all the same. *)
Lemma wait_for_page_load_swallows_timeouts_witness :
  unbroken slow_load
  /\ wait_for_page_load_once slow_load = ([LBody], Ok tt).
Proof.
  assert (U : unbroken slow_load).
  { repeat split; intros; discriminate. }
  split; [exact U|].
  destruct (wait_for_page_load_swallows_timeouts U) as (H1 & H2 & _).
  rewrite (surjective_pairing (wait_for_page_load_once slow_load)).
  rewrite H1, (H2 eq_refl). reflexivity.
Defined.

(** A title with the whole address and a map link on the page: the oracle,
    which knows another link, is not asked. *)
Lemma extract_location_needs_no_oracle_witness :
  page_map_link mapped_location = Some centro_map
  /\ extract_location mapped_location true
     = {| city := Some Sao_Luis; neighborhood := Some (lit "Centro");
          street := Some (lit "Rua Grande"); number := Some (lit "120");
          zipcode := None; complement := None; map_link := Some centro_map |}.
Proof.
  assert (M : page_map_link mapped_location = Some centro_map) by (vm_compute; reflexivity).
  split; [exact M|].
  apply (@extract_location_needs_no_oracle mapped_location full_title centro_map true).
  - reflexivity.
  - reflexivity.
  - intro H. discriminate H.
  - exact M.
Defined.


(** The title of a rental. *)
Lemma extract_property_type_result_witness :
  extract_property_type rental_heading = Some (lit "Apartamento")
  /\ In (lit "Apartamento") property_types
  /\ normalize_text no_repr (VStr (lit "Apartamento")) = Some (lit "Apartamento").
Proof.
  assert (H : extract_property_type rental_heading = Some (lit "Apartamento"))
    by (vm_compute; reflexivity).
  split; [exact H|].
  destruct (extract_property_type_result no_repr _ H) as (_ & H2 & H3 & _).
  split; assumption.
Defined.

(** The title of a rental that gives its price: the words 'por R$' make it
    a sale. *)
Lemma extract_modality_result_witness :
  extract_modality rental_heading = Some Venda
  /\ 100 <= List.length (page_source rental_heading)
  /\ normalize_text no_repr (VStr Venda) = Some Venda.
Proof.
  assert (H : extract_modality rental_heading = Some Venda) by (vm_compute; reflexivity).
  split; [exact H|].
  destruct (extract_modality_result no_repr _ H) as (H1 & _ & H3 & _).
  split; assumption.
Defined.

(** A text with a header line and an empty line: the lines kept, and the
    round trip through the line feeds. *)
Lemma extract_description_lines_witness :
  extract_description described = Some (join [newline] described_lines)
  /\ join [newline] (split_char newline (join [newline] described_lines))
     = join [newline] described_lines.
Proof.
  assert (H : extract_description described = Some (join [newline] described_lines))
    by (vm_compute; reflexivity).
  split; [exact H|].
  destruct (extract_description_lines _ H)
    as (selector & elements & t & _ & _ & _ & _ & E & S & _).
  rewrite S. symmetry. exact E.
Defined.

